(** * FedLab: hierarchical connectors, client managers, memory and meters

    A shallow embedding of

      - [fedlab/core/server/hierarchical/connector.py]
        ([ClientConnector], [ServerConnector]),
      - [fedlab_core/client/manager.py]
        ([ClientPassiveManager], [ClientActiveManager]),
      - [fedlab_core/communicator/memory.py] ([Memory]),
      - [fedlab/utils/functional.py] ([AverageMeter]),

    together with the properties their specification states about them.

    Python methods that read and write [self], talk to the transport and
    may raise are written in a small monad: a computation takes the object
    state and returns the new state, the transport events it performed, in
    order, and how it ended.  [while True] loops are unrolled with fuel. *)

From stdpp Require Import base option list.
From Stdlib Require Import ZArith QArith Lia.

Local Open Scope Z_scope.

(** ** Python-level plumbing *)

Module Py.

(** The exceptions the modelled code can end with.  [SystemExit] is what
    [exit(0)] raises; the last five are the error kinds the specification
    names. *)
Inductive exn : Type :=
| IndexError
| AttributeError
| ValueError
| ZeroDivisionError
| SystemExit (status : Z)
| LifecycleViolation
| IncompleteHandshake
| DuplicateIdentity
| UnknownIdentity
| TransportFailure.

(** How a computation ends: it returns, it raises, it blocks for ever on
    an empty queue or on a receive nothing answers, or the unrolling of a
    loop ran out of fuel. *)
Inductive outcome (A : Type) : Type :=
| Done (a : A)
| Raise (e : exn)
| Blocked
| OutOfFuel.
Global Arguments Done {A} a.
Global Arguments Raise {A} e.
Global Arguments Blocked {A}.
Global Arguments OutOfFuel {A}.

Record result (S E A : Type) : Type :=
  Result { st : S; evs : list E; out : outcome A }.
Global Arguments Result {S E A} st evs out.
Global Arguments st {S E A} r.
Global Arguments evs {S E A} r.
Global Arguments out {S E A} r.

(** State [S], a log of events [E], and an [outcome]. *)
Definition M (S E A : Type) : Type := S -> result S E A.

Section Monad.
Context {S E : Type}.

Definition ret {A} (a : A) : M S E A := fun s => Result s [] (Done a).

Definition bind {A B} (m : M S E A) (k : A -> M S E B) : M S E B :=
  fun s =>
    let r := m s in
    match out r with
    | Done a =>
        let r' := k a (st r) in
        Result (st r') (evs r ++ evs r') (out r')
    | Raise e => Result (st r) (evs r) (Raise e)
    | Blocked => Result (st r) (evs r) Blocked
    | OutOfFuel => Result (st r) (evs r) OutOfFuel
    end.

Definition gets {A} (f : S -> A) : M S E A := fun s => Result s [] (Done (f s)).
Definition modify (f : S -> S) : M S E unit := fun s => Result (f s) [] (Done tt).
Definition emit (e : E) : M S E unit := fun s => Result s [e] (Done tt).
Definition raise {A} (e : exn) : M S E A := fun s => Result s [] (Raise e).
Definition block {A} : M S E A := fun s => Result s [] Blocked.
Definition out_of_fuel {A} : M S E A := fun s => Result s [] OutOfFuel.

(** [for x in l: body(x)] *)
Fixpoint for_each {A} (l : list A) (body : A -> M S E unit) : M S E unit :=
  match l with
  | [] => ret tt
  | x :: l' => bind (body x) (fun _ => for_each l' body)
  end.

(** [while True: body()], unrolled at most [fuel] times. *)
Fixpoint forever (fuel : nat) (body : M S E unit) : M S E unit :=
  match fuel with
  | O => out_of_fuel
  | Datatypes.S fuel' => bind body (fun _ => forever fuel' body)
  end.
End Monad.

(** [l[i]] on a Python list, for [i >= 0]. *)
Definition index {S E A} (l : list A) (i : nat) : M S E A :=
  match l !! i with
  | Some x => ret x
  | None => raise IndexError
  end.

(** [range(lo, hi)] *)
Definition range (lo hi : Z) : list Z :=
  (fun i => lo + Z.of_nat i) <$> seq 0 (Z.to_nat (hi - lo)).

(** A Python [dict]: its items in insertion order.  [d[k] = v] replaces
    the value of a key that is present and appends a new key at the end. *)
Definition dict (K V : Type) : Type := list (K * V).

Section Dict.
Context {K V : Type} `{EqDecision K}.

Fixpoint dict_get (d : dict K V) (k : K) : option V :=
  match d with
  | [] => None
  | (k', v) :: d' => if decide (k' = k) then Some v else dict_get d' k
  end.

Fixpoint dict_set (d : dict K V) (k : K) (v : V) : dict K V :=
  match d with
  | [] => [(k, v)]
  | (k', v') :: d' =>
      if decide (k' = k) then (k, v) :: d' else (k', v') :: dict_set d' k v
  end.

Definition keys (d : dict K V) : list K := d.*1.

(** Every key occurs once: what makes a list of items a [dict]. *)
Definition dict_wf (d : dict K V) : Prop := NoDup (keys d).
End Dict.

End Py.

Declare Scope py_scope.
Delimit Scope py_scope with py.
Notation "x ← c1 ; c2" := (Py.bind c1 (fun x => c2))
  (at level 20, c1 at level 100, c2 at level 200, only parsing) : py_scope.
Notation "' x ← c1 ; c2" := (Py.bind c1 (fun x => c2))
  (at level 20, x pattern, c1 at level 100, c2 at level 200, only parsing) : py_scope.
Notation "c1 ;; c2" := (Py.bind c1 (fun _ => c2))
  (at level 100, c2 at level 200, only parsing, right associativity) : py_scope.

Import Py.
Local Open Scope py_scope.

(** ** The wire: message codes, messages, transport events *)

(** Modelled from the spec: the enumeration [MessageCode] lives in
    [fedlab_utils/message_code.py]; the specification gives it as the closed
    set of verbs [ParameterRequest], [ParameterUpdate], [Exit], "plus room
    for deployment-specific control verbs". *)
Inductive MessageCode : Type :=
| ParameterRequest
| ParameterUpdate
| Exit
| Control (verb : Z).

#[global] Instance MessageCode_eq_dec : EqDecision MessageCode.
Proof. solve_decision. Defined.

(** What the code asks of [torch]: [t.item()], which is defined on a tensor
    of one element only, and [torch.Tensor(values).to(torch.int32)]. *)
Class Torch (Tensor : Type) : Type := {
  item : Tensor -> option Z;
  Tensor_to_int32 : list Z -> Tensor
}.

(** A keyword argument of a call: left out, or given ([None] included). *)
Inductive kwarg (A : Type) : Type :=
| Omitted
| Given (v : A).
Global Arguments Omitted {A}.
Global Arguments Given {A} v.

Inductive thread_target : Type :=
| deal_queue_target.

Section Transport.
Context {Tensor : Type}.

(** [(sender, message_code, payload)]: what a receive returns and what
    the queues of a connector hold. *)
Definition message : Type := Z * MessageCode * list Tensor.

Definition sender_of (m : message) : Z := m.1.1.
Definition code_of (m : message) : MessageCode := m.1.2.
Definition payload_of (m : message) : list Tensor := m.2.

(** Modelled from the spec: [Package] lives in
    [fedlab_core/communicator/processor.py]; the specification gives the
    envelope as a message code with an ordered sequence of buffers. *)
Record Package : Type := { message_code : MessageCode; content : list Tensor }.

(** [Package(message_code=c)] and [Package(message_code=c, content=t)] *)
Definition Package_new (c : MessageCode) (t : option Tensor) : Package :=
  {| message_code := c; content := match t with Some x => [x] | None => [] end |}.

Definition append_tensor_list (p : Package) (l : list Tensor) : Package :=
  {| message_code := message_code p; content := content p ++ l |}.

(** What a process does that its peers or its handler can observe. *)
Inductive event : Type :=
| EvInit
| EvRecv (src : option Z) (m : message)
| EvSend (dst : Z) (code : MessageCode) (payload : list Tensor)
| EvTrain (epoch : kwarg (option Z)) (model_parameters : Tensor)
| EvThread (target : thread_target).

Definition is_send_to (dst : Z) (e : event) : bool :=
  match e with EvSend d _ _ => bool_decide (d = dst) | _ => false end.

(** The receive of an envelope whose code is [Exit]. *)
Definition is_exit_recv (e : event) : bool :=
  match e with EvRecv _ m => bool_decide (code_of m = Exit) | _ => false end.

(** A run that is refused because a lifecycle method came out of order. *)
Definition fails_with_LifecycleViolation {S A} (r : result S event A) : Prop :=
  out r = Raise LifecycleViolation.

(** A log in which an [Exit] is received at most as the very last event,
    the process then ending with [SystemExit(0)]. *)
Definition ends_at_exit {S A} (r : result S event A) : Prop :=
  Forall (fun e => is_exit_recv e = false) (evs r) \/
  exists pre src m,
    evs r = pre ++ [EvRecv src m] /\
    Forall (fun e => is_exit_recv e = false) pre /\
    code_of m = Exit /\
    out r = Raise (SystemExit 0).

(** A log in which every send is a [ParameterUpdate] of one buffer to
    rank 0 that comes right after a training step. *)
Definition sends_follow_training (l : list event) : Prop :=
  forall (i : nat) (dst : Z) (code : MessageCode) (payload : list Tensor),
    l !! i = Some (EvSend dst code payload) ->
    dst = 0 /\ code = ParameterUpdate /\ (exists t, payload = [t]) /\
    exists (j : nat) (p : Tensor), i = Datatypes.S j /\ l !! j = Some (EvTrain Omitted p).

(** The transport group as one process sees it: the size of the group and
    the messages that have arrived and are not yet received, in arrival
    order. *)
Record DistNetwork : Type := { world_size : Z; inbox : list message }.

(** The first pending message of [src], and what stays pending. *)
Fixpoint take_from (src : Z) (l : list message) : option (message * list message) :=
  match l with
  | [] => None
  | m :: l' =>
      if decide (sender_of m = src) then Some (m, l')
      else match take_from src l' with
           | Some (m', rest) => Some (m', m :: rest)
           | None => None
           end
  end.

Definition take_pending (src : option Z) (l : list message) : option (message * list message) :=
  match src with
  | Some r => take_from r l
  | None => match l with [] => None | m :: l' => Some (m, l') end
  end.

(** A blocking receive on the network held in a state [S]: with nothing
    pending from [src] it never returns. *)
Definition recv_on {S} (getn : S -> DistNetwork) (setn : DistNetwork -> S -> S)
    (src : option Z) : M S event message :=
  fun s =>
    match take_pending src (inbox (getn s)) with
    | Some (m, rest) =>
        Result (setn {| world_size := world_size (getn s); inbox := rest |} s)
               [EvRecv src m] (Done m)
    | None => Result s [] Blocked
    end.

Definition send_on {S} (payload : list Tensor) (code : MessageCode) (dst : Z)
    : M S event unit :=
  emit (EvSend dst code payload).

(** [queue.get()]: blocks while the queue is empty. *)
Definition queue_get {S} (getq : S -> list message) (setq : list message -> S -> S)
    : M S event message :=
  fun s =>
    match getq s with
    | m :: q => Result (setq q s) [] (Done m)
    | [] => Result s [] Blocked
    end.

(** [queue.put(m)] on an unbounded queue. *)
Definition queue_put {S} (getq : S -> list message) (setq : list message -> S -> S)
    (m : message) : M S event unit :=
  modify (fun s => setq (getq s ++ [m]) s).

Definition lift {S A} (r : exn + A) : M S event A :=
  match r with
  | inl e => raise e
  | inr a => ret a
  end.
End Transport.
Global Arguments message Tensor : clear implicits.
Global Arguments Package Tensor : clear implicits.
Global Arguments event Tensor : clear implicits.
Global Arguments DistNetwork Tensor : clear implicits.

(** The part of [Coordinator] ([fedlab/core/coordinator.py]) the connector
    calls: the constructor on the rank-to-identity [dict], [map_id_list] and
    [total]. *)
Class CoordinatorAPI (Tensor Coord : Type) : Type := {
  Coordinator_new : dict Z Z -> exn + Coord;
  map_id_list : Coord -> Tensor -> exn + dict Z (list Z);
  total : Coord -> Z
}.

(** The handler attached to a network manager, as far as the connector
    touches it. *)
Record Handler : Type := { client_num_in_total : Z }.


(** ** The coordinator *)

Module Coordinator.

(** Modelled from the spec: the class [Coordinator] lives in
    [fedlab/core/coordinator.py].  The specification gives it as the owner
    of a mapping from each rank to the set of logical identifiers the rank
    hosts, built once from the handshake, with the reverse lookup from an
    identifier to its rank derived from it. *)
Record t : Type := { rank_ids : dict Z (list Z) }.

(** Modelled from the spec: [build] consumes one handshake value per rank
    and "fails with [DuplicateIdentity] if two ranks report overlapping
    LogicalIds". *)
Definition build (handshake : dict Z Z) : exn + t :=
  if decide (NoDup handshake.*2)
  then inr {| rank_ids := (fun ri : Z * Z => (ri.1, [ri.2])) <$> handshake |}
  else inl DuplicateIdentity.

(** Modelled from the spec: the reverse lookup, "every LogicalId maps to
    exactly one Rank". *)
Fixpoint owner (m : dict Z (list Z)) (id : Z) : option Z :=
  match m with
  | [] => None
  | (rank, ids) :: m' => if decide (id ∈ ids) then Some rank else owner m' id
  end.

(** Modelled from the spec: the identifier joins the end of the group of
    its rank, and a rank met for the first time gets a new group, after the
    groups there are. *)
Definition add_to_group (acc : dict Z (list Z)) (rank id : Z) : dict Z (list Z) :=
  dict_set acc rank (default [] (dict_get acc rank) ++ [id]).

(** Modelled from the spec: the requested identifiers are grouped one
    after the other, in the order of the request. *)
Fixpoint group (m : dict Z (list Z)) (ids : list Z) (acc : dict Z (list Z))
    : exn + dict Z (list Z) :=
  match ids with
  | [] => inr acc
  | id :: ids' =>
      match owner m id with
      | Some rank => group m ids' (add_to_group acc rank id)
      | None => inl UnknownIdentity
      end
  end.

(** Modelled from the spec: [mapIdList] "groups requested LogicalIds by
    their owning Rank, preserving the relative order within each group" and
    "fails with [UnknownIdentity] if any id is not present". *)
Definition map_id_list (c : t) (ids : list Z) : exn + dict Z (list Z) :=
  group (rank_ids c) ids [].

(** Modelled from the spec: [total] is the "count of distinct LogicalIds
    known". *)
Definition total (c : t) : Z :=
  Z.of_nat (length (remove_dups (concat (rank_ids c).*2))).

(** Modelled from the spec: the method as a call on the coordinator
    object, "a pure function of the built mapping"; it reads the mapping
    and leaves the object as it was. *)
Definition call_map_id_list {E} (ids : list Z) : M t E (dict Z (list Z)) :=
  c ← gets (fun c : t => c);
  match map_id_list c ids with
  | inl e => raise e
  | inr d => ret d
  end.

(** Tensors of integers, flattened.  Every value the examples use is below
    [2^24] in absolute value, where the passage through [float32] that
    [torch.Tensor(values)] makes is exact. *)
#[global] Instance ints_Torch : Torch (list Z) := {|
  item := fun t => match t with [x] => Some x | _ => None end;
  Tensor_to_int32 := fun values => values
|}.

#[global] Instance api : CoordinatorAPI (list Z) t :=
  Build_CoordinatorAPI (list Z) t build map_id_list total.

End Coordinator.


(** ** [connector.py] *)

Module ClientConnector.
Section WithCoordinator.
Context {Tensor Coord : Type} `{!Torch Tensor} `{!CoordinatorAPI Tensor Coord}.

Record t : Type := {
  _network : DistNetwork Tensor;
  _handler : option Handler;
  mq_read : list (message Tensor);
  mq_write : list (message Tensor);
  coordinator : option Coord
}.

Definition set_network (n : DistNetwork Tensor) (s : t) : t :=
  {| _network := n; _handler := _handler s; mq_read := mq_read s;
     mq_write := mq_write s; coordinator := coordinator s |}.
Definition set_handler (h : option Handler) (s : t) : t :=
  {| _network := _network s; _handler := h; mq_read := mq_read s;
     mq_write := mq_write s; coordinator := coordinator s |}.
Definition set_mq_read (q : list (message Tensor)) (s : t) : t :=
  {| _network := _network s; _handler := _handler s; mq_read := q;
     mq_write := mq_write s; coordinator := coordinator s |}.
Definition set_mq_write (q : list (message Tensor)) (s : t) : t :=
  {| _network := _network s; _handler := _handler s; mq_read := mq_read s;
     mq_write := q; coordinator := coordinator s |}.
Definition set_coordinator (c : option Coord) (s : t) : t :=
  {| _network := _network s; _handler := _handler s; mq_read := mq_read s;
     mq_write := mq_write s; coordinator := c |}.

(** [Connector.__init__] calls [NetworkManager.__init__(network)], which
    leaves the handler unset. *)
Definition __init__ (network : DistNetwork Tensor)
    (write_queue read_queue : list (message Tensor)) : t :=
  {| _network := network; _handler := None; mq_read := read_queue;
     mq_write := write_queue; coordinator := None |}.

Definition recv (src : option Z) : M t (event Tensor) (message Tensor) :=
  recv_on _network set_network src.

(** One turn of the [for rank in range(1, world_size)] loop of [setup]. *)
Definition setup_rank (rank_client_id_map : dict Z Z) (rank : Z)
    : M t (event Tensor) (dict Z Z) :=
  m ← recv (Some rank);
  c0 ← index (payload_of m) 0;
  match item c0 with
  | Some v => ret (dict_set rank_client_id_map rank v)
  | None => raise ValueError
  end.

Fixpoint setup_loop (ranks : list Z) (rank_client_id_map : dict Z Z)
    : M t (event Tensor) (dict Z Z) :=
  match ranks with
  | [] => ret rank_client_id_map
  | rank :: ranks' =>
      d ← setup_rank rank_client_id_map rank;
      setup_loop ranks' d
  end.

Definition setup : M t (event Tensor) unit :=
  ws ← gets (fun s => world_size (_network s));
  rank_client_id_map ← setup_loop (range 1 ws) [];
  c ← lift (Coordinator_new rank_client_id_map);
  modify (set_coordinator (Some c));;
  h ← gets _handler;
  match h with
  | Some _ => modify (set_handler (Some {| client_num_in_total := total c |}))
  | None => ret tt
  end.

(** The identity declaration of [rank] among the pending messages: its
    first pending message and the number in the first tensor of its
    payload. *)
Definition declaration (pending : list (message Tensor)) (rank : Z)
    : option (message Tensor * Z) :=
  match take_from rank pending with
  | Some (m, _) =>
      match payload_of m !! 0%nat with
      | Some c0 => match item c0 with Some v => Some (m, v) | None => None end
      | None => None
      end
  | None => None
  end.

(** What stays pending once the first message of each of [ranks] has been
    received. *)
Definition consume (pending : list (message Tensor)) (ranks : list Z)
    : list (message Tensor) :=
  fold_left (fun l rank => match take_from rank l with
                           | Some (_, rest) => rest
                           | None => l
                           end) ranks pending.

(** The body of the [while True] of [main_loop]. *)
Definition main_loop_body : M t (event Tensor) unit :=
  m ← recv None;
  queue_put mq_write set_mq_write m.

Definition main_loop (fuel : nat) : M t (event Tensor) unit :=
  setup;;
  emit (EvThread deal_queue_target);;
  forever fuel main_loop_body.

(** The body of the [while True] of [deal_queue]. *)
Definition deal_queue_body : M t (event Tensor) unit :=
  m ← queue_get mq_read set_mq_read;
  id_list ← index (payload_of m) 0;
  let payload := drop 1 (payload_of m) in
  oc ← gets coordinator;
  c ← match oc with Some c => ret c | None => raise AttributeError end;
  rank_dict ← lift (map_id_list c id_list);
  for_each rank_dict (fun rv : Z * list Z =>
    let id_list := Tensor_to_int32 rv.2 in
    send_on ([id_list] ++ payload) (code_of m) rv.1).

Definition deal_queue (fuel : nat) : M t (event Tensor) unit :=
  forever fuel deal_queue_body.

End WithCoordinator.
Global Arguments t Tensor Coord : clear implicits.
End ClientConnector.

Module ServerConnector.
Section WithTensor.
Context {Tensor : Type}.

Record t : Type := {
  _network : DistNetwork Tensor;
  mq_read : list (message Tensor);
  mq_write : list (message Tensor)
}.

Definition set_network (n : DistNetwork Tensor) (s : t) : t :=
  {| _network := n; mq_read := mq_read s; mq_write := mq_write s |}.
Definition set_mq_read (q : list (message Tensor)) (s : t) : t :=
  {| _network := _network s; mq_read := q; mq_write := mq_write s |}.
Definition set_mq_write (q : list (message Tensor)) (s : t) : t :=
  {| _network := _network s; mq_read := mq_read s; mq_write := q |}.

Definition __init__ (network : DistNetwork Tensor)
    (write_queue read_queue : list (message Tensor)) : t :=
  {| _network := network; mq_read := read_queue; mq_write := write_queue |}.

(** [PackageProcessor.recv_package()]: a receive from any source on the
    process group. *)
Definition recv_package (src : option Z) : M t (event Tensor) (message Tensor) :=
  recv_on _network set_network src.

Definition on_receive (sender : Z) (message_code : MessageCode)
    (payload : list Tensor) : M t (event Tensor) unit :=
  queue_put mq_write set_mq_write (sender, message_code, payload).

Definition main_loop_body : M t (event Tensor) unit :=
  m ← recv_package None;
  queue_put mq_write set_mq_write (sender_of m, code_of m, payload_of m).

Definition main_loop (fuel : nat) : M t (event Tensor) unit :=
  emit (EvThread deal_queue_target);;
  forever fuel main_loop_body.

Definition deal_queue_body : M t (event Tensor) unit :=
  m ← queue_get mq_read set_mq_read;
  send_on (payload_of m) (code_of m) 0.

(** The send the specification expects for a dequeued item: to rank 0,
    with the item's code and payload. *)
Definition forwarded (m : message Tensor) : event Tensor :=
  EvSend 0 (code_of m) (payload_of m).

Definition deal_queue (fuel : nat) : M t (event Tensor) unit :=
  forever fuel deal_queue_body.

End WithTensor.
Global Arguments t Tensor : clear implicits.
End ServerConnector.


(** ** [manager.py] *)

(** What the client managers ask of their collaborators: the handler's
    [model] attribute and [train] method, which leaves the trained model in
    the handler, and [SerializationTool.serialize_model]. *)
Class ClientBackendHandler (Tensor H Model : Type) : Type := {
  model : H -> Model;
  train : kwarg (option Z) -> Tensor -> H -> H;
  serialize_model : Model -> Tensor
}.

(** [exit(0)] *)
Definition exit {S E A} (status : Z) : M S E A := raise (SystemExit status).

Module ClientPassiveManager.
Section WithHandler.
Context {Tensor H Model : Type} `{!ClientBackendHandler Tensor H Model}.

Record t : Type := {
  _network : DistNetwork Tensor;
  _handler : H
}.

Definition set_network (n : DistNetwork Tensor) (s : t) : t :=
  {| _network := n; _handler := _handler s |}.
Definition set_handler (h : H) (s : t) : t :=
  {| _network := _network s; _handler := h |}.

(** The state once a receive has taken a message and left [rest] pending. *)
Definition after_recv (rest : list (message Tensor)) (s : t) : t :=
  set_network {| world_size := world_size (_network s); inbox := rest |} s.

Definition recv_package (src : option Z) : M t (event Tensor) (message Tensor) :=
  recv_on _network set_network src.

Definition send_package (pack : Package Tensor) (dst : Z) : M t (event Tensor) unit :=
  send_on (content pack) (message_code pack) dst.

Definition on_receive (sender_rank : Z) (message_code : MessageCode)
    (payload : list Tensor) : M t (event Tensor) unit :=
  s_parameters ← index payload 0;
  emit (EvTrain Omitted s_parameters);;
  modify (fun s => set_handler (train Omitted s_parameters (_handler s)) s).

Definition synchronize : M t (event Tensor) unit :=
  h ← gets _handler;
  let model_params := serialize_model (model h) in
  let pack := Package_new ParameterUpdate (Some model_params) in
  send_package pack 0.

(** The body of the [while True] of [run]. *)
Definition run_body : M t (event Tensor) unit :=
  m ← recv_package (Some 0);
  (if decide (code_of m = Exit)
   then exit 0
   else on_receive (sender_of m) (code_of m) (payload_of m));;
  synchronize.

Definition run (fuel : nat) : M t (event Tensor) unit :=
  emit EvInit;;
  forever fuel run_body.

End WithHandler.
Global Arguments t Tensor H : clear implicits.
End ClientPassiveManager.

Module ClientActiveManager.
Section WithHandler.
Context {Tensor H Model : Type} `{!ClientBackendHandler Tensor H Model}.

Record t : Type := {
  _network : DistNetwork Tensor;
  _handler : H;
  epochs : option Z;
  model_gen_time : option Tensor
}.

Definition set_network (n : DistNetwork Tensor) (s : t) : t :=
  {| _network := n; _handler := _handler s; epochs := epochs s;
     model_gen_time := model_gen_time s |}.
Definition set_handler (h : H) (s : t) : t :=
  {| _network := _network s; _handler := h; epochs := epochs s;
     model_gen_time := model_gen_time s |}.
Definition set_model_gen_time (g : option Tensor) (s : t) : t :=
  {| _network := _network s; _handler := _handler s; epochs := epochs s;
     model_gen_time := g |}.

Definition __init__ (handler : H) (network : DistNetwork Tensor)
    (local_epochs : option Z) : t :=
  {| _network := network; _handler := handler; epochs := local_epochs;
     model_gen_time := None |}.

(** The state once a receive has taken a message and left [rest] pending. *)
Definition after_recv (rest : list (message Tensor)) (s : t) : t :=
  set_network {| world_size := world_size (_network s); inbox := rest |} s.

Definition recv_package (src : option Z) : M t (event Tensor) (message Tensor) :=
  recv_on _network set_network src.

Definition send_package (pack : Package Tensor) (dst : Z) : M t (event Tensor) unit :=
  send_on (content pack) (message_code pack) dst.

Definition on_receive (sender_rank : Z) (message_code : MessageCode)
    (payload : list Tensor) : M t (event Tensor) unit :=
  s_parameters ← index payload 0;
  gen_time ← index payload 1;
  modify (set_model_gen_time (Some gen_time));;
  epoch ← gets epochs;
  emit (EvTrain (Given epoch) s_parameters);;
  modify (fun s => set_handler (train (Given epoch) s_parameters (_handler s)) s).

(** [append_tensor_list] is given [self.model_gen_time] as it stands.  In
    [run] it has always been assigned by [on_receive] before; while it is
    still [None] it is no tensor and the append fails. *)
Definition synchronize : M t (event Tensor) unit :=
  h ← gets _handler;
  let model_params := serialize_model (model h) in
  let pack := Package_new ParameterUpdate None in
  g ← gets model_gen_time;
  match g with
  | Some gen_time =>
      send_package (append_tensor_list pack [model_params; gen_time]) 0
  | None => raise AttributeError
  end.

Definition request_model : M t (event Tensor) unit :=
  let pack := Package_new ParameterRequest None in
  send_package pack 0.

(** The body of the [while True] of [run]. *)
Definition run_body : M t (event Tensor) unit :=
  request_model;;
  m ← recv_package (Some 0);
  (if decide (code_of m = Exit) then exit 0 else ret tt);;
  on_receive (sender_of m) (code_of m) (payload_of m);;
  synchronize.

Definition run (fuel : nat) : M t (event Tensor) unit :=
  emit EvInit;;
  forever fuel run_body.

End WithHandler.
Global Arguments t Tensor H : clear implicits.
End ClientActiveManager.


(** ** [memory.py] *)

(** The interface of a compensation strategy: the five methods of [Memory],
    which [DGCSGDMemory] overrides.  [S] is whatever state the strategy
    keeps, [Args] the further arguments of a call, [D] a state dictionary. *)
Class MemoryStrategy (Tensor Args D S : Type) : Type := {
  initialize : Args -> M S unit unit;
  compensate : Tensor -> Args -> M S unit Tensor;
  update : Args -> M S unit unit;
  state_dict : M S unit (option D);
  load_state_dict : D -> M S unit unit
}.

Module Memory.
Section Base.
Context {Tensor Args D S : Type}.

(** [pass] *)
Definition initialize (args : Args) : M S unit unit := ret tt.

(** [return tensor] *)
Definition compensate (tensor : Tensor) (args : Args) : M S unit Tensor := ret tensor.

(** [pass] *)
Definition update (args : Args) : M S unit unit := ret tt.

(** [return None] *)
Definition state_dict : M S unit (option D) := ret None.

(** [pass] *)
Definition load_state_dict (d : D) : M S unit unit := ret tt.

#[global] Instance strategy : MemoryStrategy Tensor Args D S :=
  Build_MemoryStrategy Tensor Args D S
    initialize compensate update state_dict load_state_dict.

End Base.
End Memory.


(** ** [functional.py]: [AverageMeter] *)

(** Python numbers as the meter uses them: [0.0], the default [n = 1],
    [+], [*], and [/], which raises [ZeroDivisionError] exactly when the
    divisor is zero.  Nothing is asked of the operations: on floats [+] is
    not associative, and the meter adds in the order of the calls. *)
Class PyNum (num : Type) : Type := {
  zero : num;
  one : num;
  add : num -> num -> num;
  mul : num -> num -> num;
  div : num -> num -> num;
  is_zero : num -> bool
}.

#[global] Instance Q_PyNum : PyNum Q := {|
  zero := 0%Q;
  one := 1%Q;
  add := Qplus;
  mul := Qmult;
  div := Qdiv;
  is_zero := fun q => Qeq_bool q 0%Q
|}.

Module AverageMeter.
Section WithNumbers.
Context {num : Type} `{!PyNum num}.

Record t : Type := { val : num; avg : num; sum : num; count : num }.

Definition reset : M t unit unit :=
  modify (fun _ => {| val := zero; avg := zero; sum := zero; count := zero |}).

(** [AverageMeter()] *)
Definition __init__ : t := st (reset {| val := zero; avg := zero; sum := zero; count := zero |}).

Definition n_of (n : kwarg num) : num :=
  match n with Omitted => one | Given n => n end.

(** [a / b] *)
Definition truediv (a b : num) : option num :=
  if is_zero b then None else Some (div a b).

Definition update (v : num) (n : kwarg num) : M t unit unit :=
  let n := n_of n in
  modify (fun s => {| val := v; avg := avg s; sum := sum s; count := count s |});;
  modify (fun s => {| val := val s; avg := avg s; sum := add (sum s) (mul v n);
                      count := count s |});;
  modify (fun s => {| val := val s; avg := avg s; sum := sum s;
                      count := add (count s) n |});;
  s ← gets (fun s => s);
  match truediv (sum s) (count s) with
  | Some q => modify (fun s => {| val := val s; avg := q; sum := sum s; count := count s |})
  | None => raise ZeroDivisionError
  end.

(** A sequence of [update] calls, one after the other. *)
Fixpoint updates (calls : list (num * kwarg num)) : M t unit unit :=
  match calls with
  | [] => ret tt
  | (v, n) :: calls' => update v n;; updates calls'
  end.

(** The quantities the meter is meant to hold after a sequence of calls,
    added up in the order of the calls from [0.0]. *)
Definition count_of (calls : list (num * kwarg num)) : num :=
  fold_left (fun acc c => add acc (n_of c.2)) calls zero.

Definition sum_of (calls : list (num * kwarg num)) : num :=
  fold_left (fun acc c => add acc (mul c.1 (n_of c.2))) calls zero.

Definition last_val (calls : list (num * kwarg num)) : num :=
  default zero (fst <$> last calls).

(** The state the meter is meant to be in after [reset] and [calls]: the
    calls have returned, [count], [sum] and [val] are as above and [avg] is
    the quotient of [sum] by [count]. *)
Definition meter_holds (calls : list (num * kwarg num)) (r : result t unit unit) : Prop :=
  out r = Done tt /\
  count (st r) = count_of calls /\
  sum (st r) = sum_of calls /\
  val (st r) = last_val calls /\
  truediv (sum (st r)) (count (st r)) = Some (avg (st r)).

(** The running count is zero after none of the calls. *)
Definition counts_nonzero (calls : list (num * kwarg num)) : Prop :=
  forall k, (0 < k <= length calls)%nat -> is_zero (count_of (take k calls)) = false.

End WithNumbers.
Global Arguments t num : clear implicits.
End AverageMeter.


(** ** Concrete scenarios *)

Module Scenario.

(** The fan-out scenario of the specification: identifiers 3 and 7 live on
    rank 2, identifier 9 on rank 5. *)
Definition fan_coordinator : Coordinator.t :=
  {| Coordinator.rank_ids := [(2, [3; 7]); (5, [9])] |}.

Definition model_buffer : list Z := [11; 22; 33].

Definition fan_item : message (list Z) :=
  (0, ParameterUpdate, [[3; 7; 9]; model_buffer]).

Definition fan_connector : ClientConnector.t (list Z) Coordinator.t :=
  {| ClientConnector._network := {| world_size := 6; inbox := [] |};
     ClientConnector._handler := None;
     ClientConnector.mq_read := [];
     ClientConnector.mq_write := [];
     ClientConnector.coordinator := Some fan_coordinator |}.

(** The end-to-end scenario of the specification: world size 4, the ranks
    1 to 3 declare the identifiers 10, 11 and 12.  The declarations arrive
    in another order than the ranks, and a handler is attached. *)
Definition declare (rank id : Z) : message (list Z) := (rank, Control 0, [[id]]).

Definition handshake_connector : ClientConnector.t (list Z) Coordinator.t :=
  {| ClientConnector._network :=
       {| world_size := 4; inbox := [declare 2 11; declare 3 12; declare 1 10] |};
     ClientConnector._handler := Some {| client_num_in_total := 0 |};
     ClientConnector.mq_read := [];
     ClientConnector.mq_write := [];
     ClientConnector.coordinator := None |}.

Definition handshake_coordinator : Coordinator.t :=
  {| Coordinator.rank_ids := [(1, [10]); (2, [11]); (3, [12])] |}.

(** A client whose model is a buffer of integers: training on received
    parameters leaves each of them increased by one in the handler. *)
#[global] Instance toy_handler : ClientBackendHandler (list Z) (list Z) (list Z) := {|
  model := fun h => h;
  train := fun _ params _ => Z.succ <$> params;
  serialize_model := fun m => m
|}.

Definition broadcast (params : list Z) : message (list Z) :=
  (0, ParameterUpdate, [params]).

Definition stop : message (list Z) := (0, Exit, []).

Definition passive_client : ClientPassiveManager.t (list Z) (list Z) :=
  {| ClientPassiveManager._network :=
       {| world_size := 2; inbox := [broadcast [1; 2]; stop; broadcast [5; 6]] |};
     ClientPassiveManager._handler := [0; 0] |}.

(** The server answers a request with the parameters and the time the
    model was generated at. *)
Definition answer (params : list Z) (gen_time : Z) : message (list Z) :=
  (0, ParameterUpdate, [params; [gen_time]]).

Definition active_client : ClientActiveManager.t (list Z) (list Z) :=
  ClientActiveManager.__init__ [0; 0]
    {| world_size := 2; inbox := [answer [1; 2] 7; stop; answer [5; 6] 8] |}
    (Some 3).

(** A server-facing connector as its constructor leaves it, with one
    envelope from the server pending.  No [setup] has been called. *)
Definition fresh_server_connector : ServerConnector.t (list Z) :=
  ServerConnector.__init__ {| world_size := 2; inbox := [broadcast [1; 2]] |} [] [].

(** A client-facing connector as its constructor leaves it, with the three
    declarations of the handshake pending.  No [setup] has been called. *)
Definition fresh_client_connector : ClientConnector.t (list Z) Coordinator.t :=
  ClientConnector.__init__
    {| world_size := 4; inbox := [declare 2 11; declare 3 12; declare 1 10] |} [] [].

(** A meter that is reset and then updated once, with the value 1 for a
    batch of 0 samples. *)
Definition zero_count_run : result (AverageMeter.t Q) unit unit :=
  (AverageMeter.reset;; AverageMeter.updates [(1%Q, Given 0%Q)]) AverageMeter.__init__.

End Scenario.


(** ** What the connectors are expected to log *)

Module Relay.
Section WithCoordinator.
Context {Tensor Coord : Type} `{!Torch Tensor} `{!CoordinatorAPI Tensor Coord}.

(** The sends [ClientConnector.deal_queue] owes to one queue item under the
    coordinator [c], or the exception the item ends the drain thread with:
    [IndexError] on an empty payload, else whatever [map_id_list] raises. *)
Definition fan_out (c : Coord) (m : message Tensor) : exn + list (event Tensor) :=
  match payload_of m with
  | [] => inl IndexError
  | id_list :: rest =>
      match map_id_list c id_list with
      | inl e => inl e
      | inr d =>
          inr ((fun rv : Z * list Z =>
                  EvSend rv.1 (code_of m) (Tensor_to_int32 rv.2 :: rest)) <$> d)
      end
  end.

(** The receives of a handshake over [ranks] that returned [decls]. *)
Definition handshake_log (ranks : list Z) (decls : list (message Tensor * Z))
    : list (event Tensor) :=
  zip_with (fun rank d => EvRecv (Some rank) d.1) ranks decls.

(** What [setup] logs at a rank whose declaration is missing or malformed:
    nothing when no message of the rank is pending, else the receive of
    its first pending message. *)
Definition bad_declaration_log (pending : list (message Tensor)) (rank : Z)
    : list (event Tensor) :=
  match take_from rank pending with
  | None => []
  | Some (m, _) => [EvRecv (Some rank) m]
  end.

(** How [setup] ends there: it waits for ever when nothing is pending from
    the rank, and raises on a payload without a first tensor or on a first
    tensor that does not hold exactly one number. *)
Definition bad_declaration_end {A} (pending : list (message Tensor)) (rank : Z)
    : outcome A :=
  match take_from rank pending with
  | None => Blocked
  | Some (m, _) =>
      match payload_of m with
      | [] => Raise IndexError
      | _ :: _ => Raise ValueError
      end
  end.

End WithCoordinator.
End Relay.

Module Scenario2.

(** The handshake of a world of size 4 in which rank 2 never declares. *)
Definition silent_rank_connector : ClientConnector.t (list Z) Coordinator.t :=
  ClientConnector.__init__
    {| world_size := 4; inbox := [Scenario.declare 3 12; Scenario.declare 1 10] |} [] [].

(** The handshake of a world of size 3 in which both ranks declare 10. *)
Definition duplicate_connector : ClientConnector.t (list Z) Coordinator.t :=
  {| ClientConnector._network :=
       {| world_size := 3; inbox := [Scenario.declare 1 10; Scenario.declare 2 10] |};
     ClientConnector._handler := Some {| client_num_in_total := 0 |};
     ClientConnector.mq_read := [];
     ClientConnector.mq_write := [];
     ClientConnector.coordinator := None |}.

(** Two broadcasts for the fan-out coordinator, then an item without
    payload, then a further broadcast. *)
Definition item_a : message (list Z) := (0, ParameterUpdate, [[9; 3]; [1; 1]]).
Definition item_b : message (list Z) := (0, Control 4, [[7]; [2; 2]]).
Definition item_bad : message (list Z) := (0, ParameterUpdate, []).
Definition item_unknown : message (list Z) := (0, ParameterUpdate, [[3; 8]; [1; 1]]).

End Scenario2.


(** ** What the client managers are expected to log *)

Module Rounds.
Section WithHandler.
Context {Tensor H Model : Type} `{!ClientBackendHandler Tensor H Model}.

(** The envelopes of rank [src] among the pending ones, and the others. *)
Definition from (src : Z) (l : list (message Tensor)) : list (message Tensor) :=
  filter (fun m => sender_of m = src) l.

Definition not_from (src : Z) (l : list (message Tensor)) : list (message Tensor) :=
  filter (fun m => sender_of m <> src) l.

(** An envelope a passive client can train on, and one an active client
    can train on. *)
Definition passive_servable (m : message Tensor) : Prop :=
  code_of m <> Exit /\ (0 < length (payload_of m))%nat.

Definition active_servable (m : message Tensor) : Prop :=
  code_of m <> Exit /\ (1 < length (payload_of m))%nat.

(** The rounds of a passive client on the envelopes [ms], from a handler
    [h]: the log of the rounds and the handler they leave. *)
Fixpoint passive_rounds (h : H) (ms : list (message Tensor)) : list (event Tensor) * H :=
  match ms with
  | [] => ([], h)
  | m :: ms' =>
      match payload_of m with
      | p :: _ =>
          let h' := train Omitted p h in
          let rest := passive_rounds h' ms' in
          (EvRecv (Some 0) m :: EvTrain Omitted p
             :: EvSend 0 ParameterUpdate [serialize_model (model h')] :: rest.1,
           rest.2)
      | [] => ([], h)
      end
  end.

(** The rounds of an active client with [epochs] on the envelopes [ms]:
    the log, the handler and the generation time they leave.  After the
    last round the client has made one more request. *)
Fixpoint active_rounds (epochs : option Z) (h : H) (g : option Tensor)
    (ms : list (message Tensor)) : list (event Tensor) * H * option Tensor :=
  match ms with
  | [] => ([EvSend 0 ParameterRequest []], h, g)
  | m :: ms' =>
      match payload_of m with
      | p :: t :: _ =>
          let h' := train (Given epochs) p h in
          let rest := active_rounds epochs h' (Some t) ms' in
          (EvSend 0 ParameterRequest [] :: EvRecv (Some 0) m
             :: EvTrain (Given epochs) p
             :: EvSend 0 ParameterUpdate [serialize_model (model h'); t] :: rest.1.1,
           rest.1.2, rest.2)
      | _ => ([], h, g)
      end
  end.

(** A log in which every receive is from rank 0 and answers a
    [ParameterRequest] sent just before it, and every other send is a
    [ParameterUpdate] of two buffers to rank 0 made right after a training
    step. *)
Definition requests_before_receives (l : list (event Tensor)) : Prop :=
  forall (i : nat) (e : event Tensor),
    l !! i = Some e ->
    match e with
    | EvRecv src m =>
        src = Some 0 /\
        exists j : nat, i = Datatypes.S j /\ l !! j = Some (EvSend 0 ParameterRequest [])
    | EvSend dst code payload =>
        dst = 0 /\
        ((code = ParameterRequest /\ payload = []) \/
         (code = ParameterUpdate /\
          exists (t g : Tensor) (j : nat) (ep : kwarg (option Z)) (p : Tensor),
            payload = [t; g] /\ i = Datatypes.S j /\ l !! j = Some (EvTrain ep p)))
    | _ => True
    end.

End WithHandler.
End Rounds.

Module Scenario3.

(** A passive client with two broadcasts of the server pending, and between
    them an envelope of rank 3. *)
Definition stray : message (list Z) := (3, ParameterUpdate, [[9; 9]]).

Definition busy_passive_client : ClientPassiveManager.t (list Z) (list Z) :=
  {| ClientPassiveManager._network :=
       {| world_size := 4;
          inbox := [Scenario.broadcast [1; 2]; stray; Scenario.broadcast [5; 6]] |};
     ClientPassiveManager._handler := [0; 0] |}.

Definition busy_active_client : ClientActiveManager.t (list Z) (list Z) :=
  ClientActiveManager.__init__ [0; 0]
    {| world_size := 4;
       inbox := [Scenario.answer [1; 2] 7; stray; Scenario.answer [5; 6] 8] |}
    (Some 3).

(** An envelope without payload, and an answer that lacks the generation
    time. *)
Definition hollow : message (list Z) := (0, ParameterUpdate, []).

Definition hollow_passive_client : ClientPassiveManager.t (list Z) (list Z) :=
  {| ClientPassiveManager._network := {| world_size := 2; inbox := [hollow] |};
     ClientPassiveManager._handler := [0; 0] |}.

Definition untimed_active_client : ClientActiveManager.t (list Z) (list Z) :=
  ClientActiveManager.__init__ [0; 0]
    {| world_size := 2; inbox := [Scenario.broadcast [1; 2]] |} None.

End Scenario3.


(** ** [functional.py]: [evaluate] *)

(** What [evaluate] asks of the model, the criterion and a batch
    [(inputs, labels)] of the loader, with or without [cuda]:
    [criterion(model(inputs), labels).item()], the number of labels the
    model predicts, [torch.sum(predicted.eq(labels)).item()], and
    [len(labels)]. *)
Class Evaluation (Batch num : Type) : Type := {
  batch_loss : bool -> Batch -> num;
  batch_correct : bool -> Batch -> num;
  batch_len : Batch -> num
}.

Module Functional.
Section WithModel.
Context {Batch num : Type} `{!PyNum num} `{!Evaluation Batch num}.

(** The one thing [evaluate] lets the outside see besides its result: the
    line it prints, with the loss and the accuracy. *)
Inductive printed : Type :=
| Evaluate (loss_sum accuracy : num).

(** The three accumulators after the loop over the loader. *)
Definition accumulate (cuda : bool) (test_loader : list Batch) : num * num * num :=
  fold_left (fun acc b =>
               let '(loss_sum, correct, total) := acc in
               (add loss_sum (batch_loss cuda b),
                add correct (batch_correct cuda b),
                add total (batch_len b)))
            test_loader (zero, zero, zero).

(** The state is the mode of the model: [true] while it trains;
    [model.eval()] clears it. *)
Definition evaluate (cuda : bool) (test_loader : list Batch) : M bool printed (num * num) :=
  modify (fun _ => false);;
  let '(loss_sum, correct, total) := accumulate cuda test_loader in
  match AverageMeter.truediv correct total with
  | Some accuracy =>
      emit (Evaluate loss_sum accuracy);;
      ret (loss_sum, accuracy)
  | None => raise ZeroDivisionError
  end.

(** The sums the accumulators are meant to hold, each added up on its own
    in the order of the loader. *)
Definition total_of (f : Batch -> num) (test_loader : list Batch) : num :=
  fold_left (fun acc b => add acc (f b)) test_loader zero.

End WithModel.
End Functional.

(** The state each call of a sequence of [update] calls leaves, whether the
    call returned or raised. *)
Definition meter_after {num : Type} `{!PyNum num} (calls : list (num * kwarg num))
    (s : AverageMeter.t num) : AverageMeter.t num :=
  fold_left (fun s c => st (AverageMeter.update c.1 c.2 s)) calls s.

(** ** [examples/hierarchical-hybrid-mnist/serial_client.py] *)

Module SerialClient.

(** [[i for i in range((rank - 1) * 10, (rank - 1) * 10 + 10)]] *)
Definition client_id_list (rank : Z) : list Z :=
  range ((rank - 1) * 10) ((rank - 1) * 10 + 10).

(** [d[k]] on a key the [dict] lacks. *)
Inductive key_error : Type :=
| KeyError (key : Z).

(** [enumerate(l)] *)
Definition enumerate {A} (l : list A) : list (Z * A) :=
  imap (fun i x => (Z.of_nat i, x)) l.

Section WithPartition.
Context {V : Type}.

(** The comprehension [{idx: data_indices[cid] for idx, cid in ...}], one
    pair after the other. *)
Fixpoint comprehension (data_indices : dict Z V) (pairs : list (Z * Z)) (acc : dict Z V)
    : key_error + dict Z V :=
  match pairs with
  | [] => inr acc
  | (idx, cid) :: pairs' =>
      match dict_get data_indices cid with
      | Some v => comprehension data_indices pairs' (dict_set acc idx v)
      | None => inl (KeyError cid)
      end
  end.

Definition sub_data_indices (data_indices : dict Z V) (rank : Z) : key_error + dict Z V :=
  comprehension data_indices (enumerate (client_id_list rank)) [].

End WithPartition.
End SerialClient.

Module Scenario4.

(** Two batches of 4 and 6 labels of which 3 and 6 are predicted, with the
    losses 1/2 and 1/4. *)
#[global] Instance toy_evaluation : Evaluation (Q * Q * Q) Q := {|
  batch_loss := fun _ b => b.1.1;
  batch_correct := fun _ b => b.1.2;
  batch_len := fun b => b.2
|}.

Definition toy_loader : list (Q * Q * Q) := [((1 # 2, 3), 4); ((1 # 4, 6), 6)]%Q.

(** A partition that knows the clients 10 to 19 but for client 14. *)
Definition holed_partition : dict Z (list Z) :=
  (fun c => (c, [c; c + 100])) <$> [10; 11; 12; 13; 15; 16; 17; 18; 19].

Definition full_partition : dict Z (list Z) :=
  (fun c => (c, [c; c + 100])) <$> range 0 30.

End Scenario4.


(** ** [memory.py]: [DGCSGDMemory] *)

(** What [DGCSGDMemory] asks of [torch], on tensors [T], index tensors [I]
    and Python numbers: [torch.zeros_like(t)]; [a.add(b)] and [a.add_(b)],
    [a.mul_(c)] by a number and [a.view(-1).index_fill_(0, indices, 0)],
    each of which [torch] may refuse (shapes, types, bounds), the tensor
    then being as it was. *)
Class TensorOps (T I num : Type) : Type := {
  zeros_like : T -> T;
  tensor_add : T -> T -> option T;
  tensor_mul : T -> num -> option T;
  index_fill_zero : T -> I -> option T
}.

Module DGCSGDMemory.

(** How a method of the memory can fail: a name the [dict] lacks, a
    context tuple without first element, an operation [torch] refuses. *)
Inductive error (Name : Type) : Type :=
| KeyError (name : Name)
| IndexError
| TorchError.
Global Arguments KeyError {Name} name.
Global Arguments IndexError {Name}.
Global Arguments TorchError {Name}.

Section WithTensors.
Context {Name T I num : Type} `{EqDecision Name} `{!TensorOps T I num}.

(** The memory holds its tensors by value, one per name.  A method that
    changes a tensor in place is modelled by storing the changed tensor
    under its name; this is the memory as long as the tensors it holds, and
    the gradients it is given, are distinct objects, as [initialize] makes
    them. *)
Record t : Type := {
  gradient_clipping : option (T -> T);
  momentum_masking : bool;
  momentum : num;
  nesterov : bool;
  momentums : dict Name T;
  velocities : dict Name T
}.

Definition set_momentums (d : dict Name T) (s : t) : t :=
  {| gradient_clipping := gradient_clipping s; momentum_masking := momentum_masking s;
     momentum := momentum s; nesterov := nesterov s; momentums := d;
     velocities := velocities s |}.
Definition set_velocities (d : dict Name T) (s : t) : t :=
  {| gradient_clipping := gradient_clipping s; momentum_masking := momentum_masking s;
     momentum := momentum s; nesterov := nesterov s; momentums := momentums s;
     velocities := d |}.

Definition __init__ (momentum : num) (nesterov : bool) (gradient_clipping : option (T -> T))
    (momentum_masking : bool) : t :=
  {| gradient_clipping := gradient_clipping; momentum_masking := momentum_masking;
     momentum := momentum; nesterov := nesterov; momentums := []; velocities := [] |}.

(** A method: from the memory to the memory it leaves and its result or
    failure. *)
Definition method (A : Type) : Type := t -> t * (error Name + A).

Definition done {A} (a : A) : method A := fun s => (s, inr a).
Definition fail {A} (e : error Name) : method A := fun s => (s, inl e).
Definition and_then {A B} (m : method A) (k : A -> method B) : method B :=
  fun s => match m s with
           | (s', inr a) => k a s'
           | (s', inl e) => (s', inl e)
           end.

(** [d[name]] *)
Definition lookup_in {A} (d : t -> dict Name A) (name : Name) : method A :=
  fun s => match dict_get (d s) name with
           | Some v => (s, inr v)
           | None => (s, inl (KeyError name))
           end.

(** An operation of [torch] that may be refused. *)
Definition torch {A} (r : option A) : method A :=
  match r with Some a => done a | None => fail TorchError end.

(** [self.momentums[name].op_(...)] and [self.velocities[name].op_(...)]:
    the tensor is changed in place and is the value of the expression. *)
Definition momentum_inplace (name : Name) (op : T -> option T) : method T :=
  and_then (lookup_in momentums name) (fun mmt =>
  and_then (torch (op mmt)) (fun mmt' =>
  fun s => (set_momentums (dict_set (momentums s) name mmt') s, inr mmt'))).

Definition velocity_inplace (name : Name) (op : T -> option T) : method T :=
  and_then (lookup_in velocities name) (fun vec =>
  and_then (torch (op vec)) (fun vec' =>
  fun s => (set_velocities (dict_set (velocities s) name vec') s, inr vec'))).

Fixpoint initialize (named_parameters : list (Name * T)) : method unit :=
  match named_parameters with
  | [] => done tt
  | (name, param) :: rest =>
      fun s =>
        initialize rest
          (set_velocities (dict_set (velocities s) name (zeros_like param))
             (set_momentums (dict_set (momentums s) name (zeros_like param)) s))
  end.

Definition compensate (grad : T) (name : Name) (accumulate : bool) : method T :=
  fun s0 =>
    let grad := match gradient_clipping s0 with Some clip => clip grad | None => grad end in
    let m := momentum s0 in
    (and_then (lookup_in momentums name) (fun _ =>
     if accumulate then
       and_then (lookup_in velocities name) (fun _ =>
       if nesterov s0 then
         and_then (momentum_inplace name (fun mmt => tensor_add mmt grad)) (fun _ =>
         and_then (momentum_inplace name (fun mmt => tensor_mul mmt m)) (fun mmt =>
         and_then (velocity_inplace name (fun vec => tensor_add vec mmt)) (fun _ =>
         velocity_inplace name (fun vec => tensor_add vec grad))))
       else
         and_then (momentum_inplace name (fun mmt => tensor_mul mmt m)) (fun _ =>
         and_then (momentum_inplace name (fun mmt => tensor_add mmt grad)) (fun mmt =>
         velocity_inplace name (fun vec => tensor_add vec mmt))))
     else
       if nesterov s0 then
         and_then (momentum_inplace name (fun mmt => tensor_add mmt grad)) (fun _ =>
         and_then (momentum_inplace name (fun mmt => tensor_mul mmt m)) (fun mmt =>
         torch (tensor_add mmt grad)))
       else
         and_then (momentum_inplace name (fun mmt => tensor_mul mmt m)) (fun _ =>
         momentum_inplace name (fun mmt => tensor_add mmt grad)))) s0.

(** [ctx] is the tuple handed over by the compressor; its first element
    are the indices. *)
Definition update (name : Name) (ctx : list I) : method unit :=
  fun s0 =>
    match ctx with
    | [] => (s0, inl IndexError)
    | indices :: _ =>
        (and_then (if momentum_masking s0
                   then and_then (momentum_inplace name (fun mmt => index_fill_zero mmt indices))
                          (fun _ => done tt)
                   else done tt) (fun _ =>
         and_then (velocity_inplace name (fun vec => index_fill_zero vec indices))
           (fun _ => done tt))) s0
    end.

(** [dict(momentums=self.momentums, velocities=self.velocities)] *)
Record state : Type := { sd_momentums : dict Name T; sd_velocities : dict Name T }.

Definition state_dict (s : t) : state :=
  {| sd_momentums := momentums s; sd_velocities := velocities s |}.

(** One turn of the loop of [load_state_dict], for a name of the memory. *)
Definition load_name (sd : state) (name : Name) : method unit :=
  fun s =>
    match dict_get (sd_momentums sd) name with
    | None => (s, inr tt)
    | Some mmt =>
        let s1 := set_momentums (dict_set (momentums s) name mmt) s in
        match dict_get (sd_velocities sd) name with
        | Some vec => (set_velocities (dict_set (velocities s1) name vec) s1, inr tt)
        | None => (s1, inl (KeyError name))
        end
    end.

Fixpoint load_names (sd : state) (names : list Name) : method unit :=
  match names with
  | [] => done tt
  | name :: names' => and_then (load_name sd name) (fun _ => load_names sd names')
  end.

Definition load_state_dict (sd : state) : method unit :=
  fun s => load_names sd (keys (momentums s)) s.

(** The tensor the last parameter called [name] in [named_parameters]
    gives rise to. *)
Definition initial (named_parameters : list (Name * T)) (name : Name) : option T :=
  zeros_like <$> dict_get (reverse named_parameters) name.

(** The memory [s'] holds tensors under the same names as [s], in the
    same order. *)
Definition same_names (s s' : t) : Prop :=
  keys (momentums s') = keys (momentums s) /\ keys (velocities s') = keys (velocities s).

(** A method that neither adds nor drops a name, however it ends. *)
Definition keeps_names {A} (m : method A) : Prop :=
  forall s, same_names s (m s).1.

(** Every parameter has its momentum and its velocity. *)
Definition paired (s : t) : Prop := keys (momentums s) = keys (velocities s).

End WithTensors.
Global Arguments t Name T num : clear implicits.
Global Arguments state Name T : clear implicits.
End DGCSGDMemory.

Module Scenario5.

(** Tensors as lists of rationals: sums and products element by element on
    tensors of the same length, indices as positions. *)
#[global] Instance toy_tensors : TensorOps (list Q) (list nat) Q := {|
  zeros_like := fun t => (fun _ => 0%Q) <$> t;
  tensor_add := fun a b =>
    if decide (length a = length b) then Some (zip_with Qplus a b) else None;
  tensor_mul := fun a c => Some ((fun x => Qmult x c) <$> a);
  index_fill_zero := fun a idx =>
    if decide (Forall (fun i => (i < length a)%nat) idx)
    then Some (foldr (fun i t => <[i := 0%Q]> t) a idx) else None
|}.

(** A memory that knows the parameters [1] and [2]. *)
Definition toy_memory : DGCSGDMemory.t Z (list Q) Q :=
  (DGCSGDMemory.initialize (I := list nat) [(1, [1; 2]%Q); (2, [3]%Q)]
     (DGCSGDMemory.__init__ (9 # 10)%Q false None true)).1.

End Scenario5.


(** * Properties *)

(** ** The monad *)

Section MonadFacts.
Context {S E : Type}.

Lemma bind_Done {A B} (m : M S E A) (k : A -> M S E B) (s : S) (a : A) :
  out (m s) = Done a ->
  bind m k s = Result (st (k a (st (m s)))) (evs (m s) ++ evs (k a (st (m s))))
                      (out (k a (st (m s)))).
Proof. intros Ha. unfold bind. now rewrite Ha. Qed.

(** A [while True] loop never falls through. *)
Lemma forever_not_Done (body : M S E unit) (fuel : nat) (s : S) :
  out (forever fuel body s) <> Done tt.
Proof.
  revert s. induction fuel as [|fuel IH]; intros s; simpl; [discriminate|].
  unfold bind. destruct (out (body s)); simpl; try discriminate. apply IH.
Qed.

End MonadFacts.

(** ** [ServerConnector] *)

Section ServerConnectorFacts.
Context {Tensor : Type}.
Implicit Types (s : ServerConnector.t Tensor) (m : message Tensor).

Lemma server_deal_queue_body_cons s m q :
  ServerConnector.deal_queue_body (ServerConnector.set_mq_read (m :: q) s)
  = Result (ServerConnector.set_mq_read q s) [ServerConnector.forwarded m] (Done tt).
Proof. reflexivity. Qed.

Lemma server_deal_queue_body_nil s :
  ServerConnector.deal_queue_body (ServerConnector.set_mq_read [] s)
  = Result (ServerConnector.set_mq_read [] s) [] Blocked.
Proof. reflexivity. Qed.

Lemma server_deal_queue_run (fuel : nat) : forall s q,
  let r := ServerConnector.deal_queue fuel (ServerConnector.set_mq_read q s) in
  st r = ServerConnector.set_mq_read (drop fuel q) s /\
  evs r = ServerConnector.forwarded <$> take fuel q /\
  out r = if decide (fuel <= length q)%nat then OutOfFuel else Blocked.
Proof.
  induction fuel as [|fuel IH]; intros s q.
  - simpl. rewrite drop_0. repeat split. 
  - destruct q as [|m q].
    + simpl. repeat split.
    + cbn zeta. unfold ServerConnector.deal_queue. simpl forever.
      rewrite (bind_Done _ _ _ tt) by reflexivity.
      rewrite server_deal_queue_body_cons. simpl st. simpl evs. simpl out.
      destruct (IH s q) as (Hst & Hev & Hout).
      unfold ServerConnector.deal_queue in Hst, Hev, Hout.
      rewrite Hst, Hev, Hout. simpl. repeat split.
      repeat case_decide; try reflexivity; lia.
Qed.

(** C6. Every item [ServerConnector.deal_queue] takes from its read queue
    is forwarded by exactly one send to rank 0 that carries the item's
    message code and payload as they are; the sender rank of the item is
    not sent.  One turn of the loop on a queue [m :: q] leaves [q] and
    performs the single send for [m]; the loop run [fuel] times on a queue
    [q] performs, in queue order, one such send for each of the first
    [fuel] items and nothing else, and waits on the empty queue once the
    queue is drained. *)
Theorem server_deal_queue_forwards :
  (forall s m q,
     ServerConnector.deal_queue_body (ServerConnector.set_mq_read (m :: q) s)
     = Result (ServerConnector.set_mq_read q s)
              [EvSend 0 (code_of m) (payload_of m)] (Done tt)) /\
  (forall (fuel : nat) s q,
     let r := ServerConnector.deal_queue fuel (ServerConnector.set_mq_read q s) in
     evs r = (fun m => EvSend 0 (code_of m) (payload_of m)) <$> take fuel q /\
     length (evs r) = Nat.min fuel (length q) /\
     ServerConnector.mq_read (st r) = drop fuel q /\
     out r = if decide (fuel <= length q)%nat then OutOfFuel else Blocked).
Proof.
  split.
  - intros s m q. apply server_deal_queue_body_cons.
  - intros fuel s q. destruct (server_deal_queue_run fuel s q) as (Hst & Hev & Hout).
    cbn zeta. rewrite Hst, Hev, Hout. repeat split.
    now rewrite length_fmap, length_take.
Qed.

End ServerConnectorFacts.

(** ** [Memory] *)

(** C9. The base [Memory] strategy is the identity: [compensate] returns
    the tensor it is given, whatever the further arguments, and changes
    nothing; [initialize] and [update] change nothing; [state_dict]
    returns [None]. *)
Theorem Memory_is_identity {Tensor Args D S : Type} (tensor : Tensor) (args : Args) (s : S) :
  Memory.compensate (S := S) tensor args s = Result s [] (Done tensor) /\
  Memory.initialize (S := S) args s = Result s [] (Done tt) /\
  Memory.update (S := S) args s = Result s [] (Done tt) /\
  Memory.state_dict (D := D) (S := S) s = Result s [] (Done None).
Proof. repeat split. Qed.

(** ** [ClientConnector.deal_queue] *)

Section ClientDealQueueFacts.
Context {Tensor Coord : Type} `{!Torch Tensor} `{!CoordinatorAPI Tensor Coord}.
Implicit Types (s : ClientConnector.t Tensor Coord) (d : dict Z (list Z)).

Lemma for_each_send {S A} (l : list A) (f : A -> list Tensor) (g : A -> Z)
    (code : MessageCode) (s : S) :
  for_each l (fun x => send_on (f x) code (g x)) s
  = Result s ((fun x => EvSend (g x) code (f x)) <$> l) (Done tt).
Proof.
  induction l as [|x l IH]; [reflexivity|].
  simpl for_each. rewrite (bind_Done _ _ _ tt) by reflexivity.
  simpl st. rewrite IH. reflexivity.
Qed.

Lemma sends_to_absent_rank (code : MessageCode) (f : list Z -> list Tensor) d (rank : Z) :
  rank ∉ keys d ->
  filter (fun e => is_send_to rank e) ((fun rv : Z * list Z => EvSend rv.1 code (f rv.2)) <$> d) = [].
Proof.
  induction d as [|[k v] d IH]; intros Hk; [reflexivity|].
  unfold keys in *. simpl in Hk. apply not_elem_of_cons in Hk as [Hne Hk].
  rewrite fmap_cons, filter_cons_False; [now apply IH|].
  simpl. rewrite bool_decide_eq_false_2; [tauto | congruence].
Qed.

Lemma sends_to_rank (code : MessageCode) (f : list Z -> list Tensor) d (rank : Z) :
  dict_wf d ->
  filter (fun e => is_send_to rank e) ((fun rv : Z * list Z => EvSend rv.1 code (f rv.2)) <$> d)
  = match dict_get d rank with
    | Some values => [EvSend rank code (f values)]
    | None => []
    end.
Proof.
  unfold dict_wf, keys. induction d as [|[k v] d IH]; intros Hwf; [reflexivity|].
  simpl in Hwf. apply NoDup_cons in Hwf as [Hk Hwf].
  rewrite fmap_cons. simpl dict_get. case_decide as Hkr.
  - subst k. rewrite filter_cons_True.
    + simpl. now rewrite (sends_to_absent_rank code f d rank Hk).
    + simpl. now rewrite bool_decide_eq_true_2.
  - rewrite filter_cons_False; [now apply IH|].
    simpl. rewrite bool_decide_eq_false_2; [tauto | congruence].
Qed.

(** C1. For an item [(sender, code, id_list :: rest)] taken from the read
    queue, [ClientConnector.deal_queue] hands the leading element [id_list]
    to [Coordinator.map_id_list] and, for the [dict] of ranks it returns,
    performs one send per rank and no other: the sends are the items of the
    [dict] in order, each to its rank, with the code of the item and with
    the rank's identifiers as an [int32] tensor in front of [rest].  Their
    number is the number of ranks, and for every rank the sends addressed
    to it are exactly one if the rank is a key of the [dict] and none
    otherwise.  The loop then goes on with the rest of the queue. *)
Theorem client_deal_queue_fans_out s (sender : Z) (code : MessageCode)
    (id_list : Tensor) (rest : list Tensor) (q : list (message Tensor)) (c : Coord) d :
  ClientConnector.coordinator s = Some c ->
  map_id_list c id_list = inr d ->
  dict_wf d ->
  let r := ClientConnector.deal_queue_body
             (ClientConnector.set_mq_read ((sender, code, id_list :: rest) :: q) s) in
  out r = Done tt /\
  st r = ClientConnector.set_mq_read q s /\
  evs r = (fun rv : Z * list Z => EvSend rv.1 code (Tensor_to_int32 rv.2 :: rest)) <$> d /\
  length (evs r) = length (keys d) /\
  (forall rank : Z,
     filter (fun e => is_send_to rank e) (evs r)
     = match dict_get d rank with
       | Some values => [EvSend rank code (Tensor_to_int32 values :: rest)]
       | None => []
       end) /\
  forall fuel : nat,
    let next := ClientConnector.deal_queue fuel (ClientConnector.set_mq_read q s) in
    ClientConnector.deal_queue (Datatypes.S fuel)
      (ClientConnector.set_mq_read ((sender, code, id_list :: rest) :: q) s)
    = Result (st next) (evs r ++ evs next) (out next).
Proof.
  intros Hc Hmap Hwf r.
  assert (Hr : r = Result (ClientConnector.set_mq_read q s)
                 ((fun rv : Z * list Z => EvSend rv.1 code (Tensor_to_int32 rv.2 :: rest)) <$> d)
                 (Done tt)).
  { subst r. unfold ClientConnector.deal_queue_body.
    rewrite (bind_Done _ _ _ (sender, code, id_list :: rest)) by reflexivity.
    simpl st at 1. simpl evs at 1.
    rewrite (bind_Done _ _ _ id_list) by reflexivity.
    simpl. rewrite Hc. simpl. rewrite Hmap. simpl.
    rewrite (for_each_send d (fun rv => Tensor_to_int32 rv.2 :: rest) fst code).
    reflexivity. }
  subst r. split; [now rewrite Hr|]. split; [now rewrite Hr|]. split; [now rewrite Hr|].
  split; [|split].
  - rewrite Hr. unfold keys. cbn [evs]. now rewrite !length_fmap.
  - intros rank. rewrite Hr. cbn [evs].
    apply (sends_to_rank code (fun values => Tensor_to_int32 values :: rest) d rank Hwf).
  - intros fuel next. unfold ClientConnector.deal_queue. cbn [forever].
    rewrite (bind_Done _ _ _ tt) by now rewrite Hr.
    rewrite Hr. reflexivity.
Qed.

End ClientDealQueueFacts.

(** The fan-out scenario of the specification: a broadcast to identifiers
    3, 7 and 9 makes two sends, one to rank 2 with 3 and 7 and one to rank 5
    with 9. *)
Lemma client_deal_queue_fans_out_witness :
  let d : dict Z (list Z) := [(2, [3; 7]); (5, [9])] in
  let r := ClientConnector.deal_queue_body
             (ClientConnector.set_mq_read [Scenario.fan_item] Scenario.fan_connector) in
  ClientConnector.coordinator Scenario.fan_connector = Some Scenario.fan_coordinator /\
  map_id_list Scenario.fan_coordinator [3; 7; 9] = inr d /\
  dict_wf d /\
  evs r = [EvSend 2 ParameterUpdate [[3; 7]; Scenario.model_buffer];
           EvSend 5 ParameterUpdate [[9]; Scenario.model_buffer]] /\
  length (evs r) = 2%nat.
Proof.
  intros d r.
  assert (Hwf : dict_wf d).
  { unfold dict_wf, keys. apply (bool_decide_unpack _). vm_compute. exact I. }
  assert (Hmap : map_id_list Scenario.fan_coordinator [3; 7; 9] = inr d)
    by (vm_compute; reflexivity).
  destruct (client_deal_queue_fans_out Scenario.fan_connector 0 ParameterUpdate
              [3; 7; 9] [Scenario.model_buffer] [] Scenario.fan_coordinator d
              eq_refl Hmap Hwf) as (_ & _ & Hev & Hlen & _).
  split; [reflexivity|]. split; [exact Hmap|]. split; [exact Hwf|].
  split; [exact Hev | exact Hlen].
Defined.

(** ** [ClientConnector.setup] *)

Lemma range_elem_of (lo hi rank : Z) : rank ∈ range lo hi <-> lo <= rank < hi.
Proof.
  unfold range. rewrite list_elem_of_fmap. split.
  - intros (i & -> & Hi). apply elem_of_seq in Hi. lia.
  - intros Hr. exists (Z.to_nat (rank - lo)). split; [lia|].
    apply elem_of_seq. lia.
Qed.

Lemma range_lookup (lo hi : Z) (i : nat) (rank : Z) :
  range lo hi !! i = Some rank <-> rank = lo + Z.of_nat i /\ lo + Z.of_nat i < hi.
Proof.
  unfold range. rewrite list_lookup_fmap, fmap_Some. split.
  - intros (j & Hj & ->). apply lookup_seq in Hj as [-> Hlt]. simpl. lia.
  - intros [-> Hlt]. exists i. split; [|reflexivity].
    apply lookup_seq. split; [reflexivity | lia].
Qed.

Lemma range_NoDup (lo hi : Z) : NoDup (range lo hi).
Proof.
  unfold range. apply NoDup_fmap_2; [|apply NoDup_seq].
  intros i j Hij. lia.
Qed.

Section DictFacts.
Context {K V : Type} `{EqDecision K}.

Lemma dict_set_fresh (d : dict K V) (k : K) (v : V) :
  k ∉ keys d -> dict_set d k v = d ++ [(k, v)].
Proof.
  unfold keys. induction d as [|[k' v'] d IH]; intros Hk; [reflexivity|].
  simpl in Hk. apply not_elem_of_cons in Hk as [Hne Hk].
  simpl. case_decide; [congruence|]. now rewrite IH.
Qed.

Lemma dict_set_keys (d : dict K V) (k : K) (v : V) :
  keys (dict_set d k v) = if decide (k ∈ keys d) then keys d else keys d ++ [k].
Proof.
  unfold keys. induction d as [|[k' v'] d IH].
  - cbn. destruct (decide (k ∈ [])) as [H0|_]; [inversion H0 | reflexivity].
  - cbn [dict_set]. destruct (decide (k' = k)) as [->|Hk].
    + rewrite !fmap_cons. cbn [fst].
      destruct (decide (k ∈ k :: d.*1)) as [_|Hin]; [reflexivity|].
      exfalso. apply Hin. left.
    + rewrite !fmap_cons, IH. cbn [fst].
      destruct (decide (k ∈ d.*1)) as [Hin|Hin];
        destruct (decide (k ∈ k' :: d.*1)) as [Hin'|Hin']; try reflexivity.
      * exfalso. apply Hin'. now right.
      * exfalso. apply elem_of_cons in Hin' as [->|]; tauto.
Qed.

Lemma dict_set_wf (d : dict K V) (k : K) (v : V) :
  dict_wf d -> dict_wf (dict_set d k v).
Proof.
  unfold dict_wf. rewrite dict_set_keys. case_decide as Hk; [tauto|].
  intros Hd. apply NoDup_app. split; [exact Hd|]. split.
  - intros x Hx Hx'. apply list_elem_of_singleton in Hx'. now subst x.
  - apply NoDup_singleton.
Qed.

Lemma dict_get_set (d : dict K V) (k k' : K) (v : V) :
  dict_get (dict_set d k v) k' = if decide (k = k') then Some v else dict_get d k'.
Proof.
  induction d as [|[k0 v0] d IH]; cbn [dict_set dict_get].
  - reflexivity.
  - destruct (decide (k0 = k)) as [->|Hne]; cbn [dict_get].
    + repeat case_decide; congruence.
    + rewrite IH. repeat case_decide; congruence.
Qed.

Lemma dict_get_elem_of (d : dict K V) (k : K) (v : V) :
  dict_wf d -> (k, v) ∈ d <-> dict_get d k = Some v.
Proof.
  unfold dict_wf, keys. induction d as [|[k0 v0] d IH]; intros Hwf; simpl.
  - split; [intros H0; inversion H0 | discriminate].
  - apply NoDup_cons in Hwf as [Hk0 Hwf]. rewrite elem_of_cons, (IH Hwf).
    case_decide as Hk.
    + subst k0. split.
      * intros [Heq|Hget]; [congruence|].
        exfalso. apply Hk0. apply (IH Hwf) in Hget.
        apply list_elem_of_fmap. now exists (k, v).
      * intros [= ->]. now left.
    + split; [intros [Heq|Hget]; [congruence | exact Hget] | tauto].
Qed.

End DictFacts.

Section ClientSetupFacts.
Context {Tensor Coord : Type} `{!Torch Tensor} `{!CoordinatorAPI Tensor Coord}.
Implicit Types (s : ClientConnector.t Tensor Coord) (l : list (message Tensor)).

(** Receiving from one rank does not change which message is the first
    pending one of another rank. *)
Lemma take_from_other (rank rank' : Z) l (m : message Tensor) rest :
  take_from rank l = Some (m, rest) -> rank' <> rank ->
  fst <$> take_from rank' rest = fst <$> take_from rank' l.
Proof.
  revert m rest. induction l as [|x l IH]; intros m rest Ht Hne; [discriminate|].
  cbn [take_from] in Ht |- *. destruct (decide (sender_of x = rank)) as [Hx|Hx].
  - injection Ht as <- <-. destruct (decide (sender_of x = rank')); [congruence|].
    now destruct (take_from rank' l) as [[m' r']|].
  - destruct (take_from rank l) as [[m0 r0]|] eqn:Hl; [|discriminate].
    injection Ht as <- <-. cbn [take_from].
    destruct (decide (sender_of x = rank')); [reflexivity|].
    specialize (IH m0 r0 eq_refl Hne).
    destruct (take_from rank' r0) as [[m1 r1]|], (take_from rank' l) as [[m2 r2]|];
      simpl in IH |- *; congruence.
Qed.

Lemma declaration_other (rank rank' : Z) l (m : message Tensor) rest :
  take_from rank l = Some (m, rest) -> rank' <> rank ->
  ClientConnector.declaration rest rank' = ClientConnector.declaration l rank'.
Proof.
  intros Ht Hne. pose proof (take_from_other rank rank' l m rest Ht Hne) as Hf.
  unfold ClientConnector.declaration.
  destruct (take_from rank' rest) as [[m1 r1]|], (take_from rank' l) as [[m2 r2]|];
    simpl in Hf; try congruence.
  now injection Hf as ->.
Qed.

Lemma set_network_same s :
  ClientConnector.set_network
    {| world_size := world_size (ClientConnector._network s);
       inbox := inbox (ClientConnector._network s) |} s = s.
Proof. destruct s as [[ws ib] h r w c]. reflexivity. Qed.

Lemma setup_rank_spec s (acc : dict Z Z) (rank : Z) (m : message Tensor) (v : Z) :
  ClientConnector.declaration (inbox (ClientConnector._network s)) rank = Some (m, v) ->
  exists rest,
    take_from rank (inbox (ClientConnector._network s)) = Some (m, rest) /\
    ClientConnector.setup_rank acc rank s
    = Result (ClientConnector.set_network
                {| world_size := world_size (ClientConnector._network s); inbox := rest |} s)
             [EvRecv (Some rank) m] (Done (dict_set acc rank v)).
Proof.
  unfold ClientConnector.declaration. intros Hd.
  destruct (take_from rank (inbox (ClientConnector._network s))) as [[m0 rest]|] eqn:Ht;
    [|discriminate].
  destruct (payload_of m0 !! 0%nat) as [c0|] eqn:Hp; [|discriminate].
  destruct (item c0) as [v0|] eqn:Hi; [|discriminate].
  injection Hd as -> ->. exists rest. split; [reflexivity|].
  unfold ClientConnector.setup_rank, ClientConnector.recv, recv_on, bind, index.
  simpl. rewrite Ht. simpl. rewrite Hp. simpl. rewrite Hi. reflexivity.
Qed.

Lemma setup_loop_spec (ranks : list Z) : forall s (acc : dict Z Z) (decls : list (message Tensor * Z)),
  NoDup ranks ->
  Forall (fun rank => rank ∉ keys acc) ranks ->
  mapM (ClientConnector.declaration (inbox (ClientConnector._network s))) ranks = Some decls ->
  ClientConnector.setup_loop ranks acc s
  = Result (ClientConnector.set_network
              {| world_size := world_size (ClientConnector._network s);
                 inbox := ClientConnector.consume (inbox (ClientConnector._network s)) ranks |} s)
           (zip_with (fun rank d => EvRecv (Some rank) d.1) ranks decls)
           (Done (acc ++ zip ranks decls.*2)).
Proof.
  induction ranks as [|rank ranks IH]; intros s acc decls Hnd Hfresh Hm.
  - apply mapM_Some in Hm. apply Forall2_nil_inv_l in Hm as ->.
    simpl. unfold ret. rewrite set_network_same, app_nil_r. reflexivity.
  - apply mapM_Some in Hm. apply Forall2_cons_inv_l in Hm as ([m v] & decls' & Hd & Hm & ->).
    apply NoDup_cons in Hnd as [Hrank Hnd].
    apply Forall_cons in Hfresh as [Hfr Hfresh].
    destruct (setup_rank_spec s acc rank m v Hd) as (rest & Ht & Hstep).
    cbn [ClientConnector.setup_loop].
    rewrite (bind_Done _ _ _ (dict_set acc rank v)) by now rewrite Hstep.
    rewrite Hstep. cbn [st evs out].
    rewrite (IH _ (dict_set acc rank v) decls' Hnd).
    + assert (Hc : ClientConnector.consume (inbox (ClientConnector._network s)) (rank :: ranks)
                   = ClientConnector.consume rest ranks).
      { unfold ClientConnector.consume. cbn [fold_left]. now rewrite Ht. }
      rewrite Hc, (dict_set_fresh acc rank v Hfr), <- app_assoc. reflexivity.
    + rewrite dict_set_keys. case_decide; [tauto|].
      apply Forall_forall. intros r Hr Hin. apply elem_of_app in Hin as [Hin|Hin].
      * rewrite Forall_forall in Hfresh. now apply (Hfresh r Hr).
      * apply list_elem_of_singleton in Hin. now subst r.
    + apply mapM_Some. cbn [ClientConnector.set_network ClientConnector._network inbox].
      clear IH Hnd Hfresh. induction Hm as [|r d rs ds Hrd Hm IHm]; constructor.
      * rewrite (declaration_other rank r _ m rest Ht); [exact Hrd|].
        intros ->. apply Hrank. left.
      * apply IHm. intros Hin. apply Hrank. now right.
Qed.

End ClientSetupFacts.

Section ClientSetupTheorem.
Context {Tensor Coord : Type} `{!Torch Tensor} `{!CoordinatorAPI Tensor Coord}.
Implicit Types (s : ClientConnector.t Tensor Coord).

(** C2. [ClientConnector.setup] receives once from every rank of
    [[1, world_size)], in increasing rank order, and nothing else: when each
    of these ranks has an identity declaration pending, the events of
    [setup] are one receive per rank, the [i]-th from rank [1 + i] and
    returning the first pending message of that rank.  The coordinator is
    built from the [dict] that gives each rank the one number it declared,
    and a handler that is attached gets the coordinator's [total] as its
    [client_num_in_total]; without a handler nothing is assigned.  The
    queues are left alone. *)
Theorem client_setup_handshake s (decls : list (message Tensor * Z)) (c : Coord) :
  let ws := world_size (ClientConnector._network s) in
  let ranks := range 1 ws in
  mapM (ClientConnector.declaration (inbox (ClientConnector._network s))) ranks = Some decls ->
  Coordinator_new (zip ranks decls.*2) = inr c ->
  let r := ClientConnector.setup s in
  out r = Done tt /\
  evs r = zip_with (fun rank d => EvRecv (Some rank) d.1) ranks decls /\
  length (evs r) = length ranks /\
  (forall rank : Z, rank ∈ ranks <-> 1 <= rank < ws) /\
  (forall (i : nat) (rank : Z),
     ranks !! i = Some rank <-> rank = 1 + Z.of_nat i /\ 1 + Z.of_nat i < ws) /\
  ClientConnector.coordinator (st r) = Some c /\
  ClientConnector._handler (st r)
  = (fun _ => {| client_num_in_total := total c |}) <$> ClientConnector._handler s /\
  inbox (ClientConnector._network (st r))
  = ClientConnector.consume (inbox (ClientConnector._network s)) ranks /\
  ClientConnector.mq_read (st r) = ClientConnector.mq_read s /\
  ClientConnector.mq_write (st r) = ClientConnector.mq_write s.
Proof.
  intros ws ranks Hm Hc r.
  pose proof (setup_loop_spec ranks s [] decls (range_NoDup 1 ws)) as Hloop.
  rewrite app_nil_l in Hloop.
  assert (Hfresh : Forall (fun rank : Z => rank ∉ keys (V := Z) []) ranks).
  { apply Forall_forall. intros rank _ Hin. inversion Hin. }
  specialize (Hloop Hfresh Hm).
  assert (Hlen : length decls = length ranks).
  { apply mapM_Some, Forall2_length in Hm. congruence. }
  assert (Hr : r = Result
                     (ClientConnector.set_handler
                        ((fun _ => {| client_num_in_total := total c |})
                           <$> ClientConnector._handler s)
                        (ClientConnector.set_coordinator (Some c)
                           (ClientConnector.set_network
                              {| world_size := ws;
                                 inbox := ClientConnector.consume
                                            (inbox (ClientConnector._network s)) ranks |} s)))
                     (zip_with (fun rank d => EvRecv (Some rank) d.1) ranks decls)
                     (Done tt)).
  { subst r. unfold ClientConnector.setup.
    rewrite (bind_Done _ _ _ ws) by reflexivity. cbn [gets st evs out app].
    fold ranks. rewrite (bind_Done _ _ _ (zip ranks decls.*2)) by now rewrite Hloop.
    rewrite Hloop. cbn [st evs out]. rewrite Hc. cbn [lift].
    rewrite (bind_Done _ _ _ c) by reflexivity. cbn [ret st evs out].
    rewrite (bind_Done _ _ _ tt) by reflexivity. cbn [modify st evs out].
    destruct s as [n [h|] rq wq co]; cbn; now rewrite !app_nil_r. }
  rewrite Hr. cbn [st evs out].
  split; [reflexivity|]. split; [reflexivity|].
  split; [rewrite length_zip_with; lia|].
  split; [intros rank; apply range_elem_of|].
  split; [intros i rank; apply range_lookup|].
  destruct s as [n h rq wq co]. repeat split.
Qed.

End ClientSetupTheorem.

(** The handshake of the end-to-end scenario: three receives, from the
    ranks 1, 2 and 3 in this order although the declarations arrived in
    another; the coordinator knows three identifiers and the handler is
    told so. *)
Lemma client_setup_handshake_witness :
  let s := Scenario.handshake_connector in
  let decls := [(Scenario.declare 1 10, 10); (Scenario.declare 2 11, 11);
                (Scenario.declare 3 12, 12)] in
  mapM (ClientConnector.declaration (inbox (ClientConnector._network s))) (range 1 4)
  = Some decls /\
  Coordinator_new (zip (range 1 4) decls.*2) = inr Scenario.handshake_coordinator /\
  evs (ClientConnector.setup s)
  = [EvRecv (Some 1) (Scenario.declare 1 10); EvRecv (Some 2) (Scenario.declare 2 11);
     EvRecv (Some 3) (Scenario.declare 3 12)] /\
  ClientConnector.coordinator (st (ClientConnector.setup s))
  = Some Scenario.handshake_coordinator /\
  ClientConnector._handler (st (ClientConnector.setup s))
  = Some {| client_num_in_total := 3 |}.
Proof.
  intros s decls.
  assert (Hm : mapM (ClientConnector.declaration (inbox (ClientConnector._network s)))
                 (range 1 (world_size (ClientConnector._network s))) = Some decls)
    by (vm_compute; reflexivity).
  assert (Hc : Coordinator_new (zip (range 1 (world_size (ClientConnector._network s)))
                                  decls.*2) = inr Scenario.handshake_coordinator)
    by (vm_compute; reflexivity).
  destruct (client_setup_handshake s decls Scenario.handshake_coordinator Hm Hc)
    as (_ & Hev & _ & _ & _ & Hco & Hh & _).
  split; [exact Hm|]. split; [exact Hc|]. split; [exact Hev|]. split; [exact Hco|].
  exact Hh.
Defined.

(** ** Client managers *)

Section LoopFacts.
Context {Tensor S : Type}.
Implicit Types (body : M S (event Tensor) unit) (l : list (event Tensor)).

(** A property of logs that holds of the empty log and of a concatenation
    of logs that have it carries over from the body to the loop. *)
Lemma forever_evs (P : list (event Tensor) -> Prop) body :
  P [] -> (forall a b, P a -> P b -> P (a ++ b)) ->
  (forall s, P (evs (body s))) ->
  forall (fuel : nat) s, P (evs (forever fuel body s)).
Proof.
  intros Hnil Happ Hbody. induction fuel as [|fuel IH]; intros s; [exact Hnil|].
  cbn [forever]. unfold bind. specialize (Hbody s).
  destruct (out (body s)); cbn [evs]; try exact Hbody.
  apply Happ; [exact Hbody | apply IH].
Qed.

Lemma forever_ends_at_exit body :
  (forall s, ends_at_exit (body s)) ->
  forall (fuel : nat) s, ends_at_exit (forever fuel body s).
Proof.
  intros Hbody. induction fuel as [|fuel IH]; intros s.
  - left. constructor.
  - cbn [forever]. unfold bind. specialize (Hbody s).
    destruct (out (body s)) as [[]| | |] eqn:Ho.
    + destruct Hbody as [Hb|(pre & src & m & _ & _ & _ & Hraise)]; [|congruence].
      destruct (IH (st (body s))) as [Hr|(pre & src & m & Hev & Hpre & Hm & Hout)].
      * left. cbn [evs]. now apply Forall_app.
      * right. exists (evs (body s) ++ pre), src, m. cbn [evs out].
        rewrite Hev, app_assoc. repeat split; try assumption. now apply Forall_app.
    + destruct Hbody as [Hb|(pre & src & m & Hev & Hpre & Hm & Hout)].
      * now left.
      * right. exists pre, src, m. cbn [evs out]. rewrite <- Hout, Ho. now repeat split.
    + destruct Hbody as [Hb|(pre & src & m & _ & _ & _ & Hraise)]; [now left | congruence].
    + destruct Hbody as [Hb|(pre & src & m & _ & _ & _ & Hraise)]; [now left | congruence].
Qed.

Lemma emit_then_ends_at_exit (e : event Tensor) (m : M S (event Tensor) unit) s :
  is_exit_recv e = false -> ends_at_exit (m s) -> ends_at_exit (bind (emit e) (fun _ => m) s).
Proof.
  intros He [Hr|(pre & src & m0 & Hev & Hpre & Hm & Hout)].
  - left. cbn. now constructor.
  - right. exists (e :: pre), src, m0. cbn. rewrite Hev. repeat split; try assumption.
    now constructor.
Qed.

(** In a log that ends at an [Exit], nothing comes after the receive of
    the [Exit]. *)
Lemma ends_at_exit_last {A} (r : result S (event Tensor) A) pre (src : option Z)
    (m : message Tensor) post :
  ends_at_exit r -> evs r = pre ++ EvRecv src m :: post -> code_of m = Exit ->
  post = [] /\ out r = Raise (SystemExit 0).
Proof.
  intros [Hall|(pre' & src' & m' & Hev & Hpre & Hm' & Hout)] Hsplit Hm.
  - exfalso. rewrite Hsplit in Hall. apply Forall_app in Hall as [_ Hall].
    apply Forall_cons in Hall as [Hex _]. cbn in Hex.
    now rewrite bool_decide_eq_true_2 in Hex.
  - split; [|exact Hout]. rewrite Hev in Hsplit.
    destruct post as [|e post] using rev_ind; [reflexivity|]. exfalso.
    rewrite app_comm_cons, app_assoc in Hsplit.
    apply app_inj_tail in Hsplit as [-> _].
    apply Forall_app in Hpre as [_ Hpre].
    apply Forall_cons in Hpre as [Hex _]. cbn in Hex.
    now rewrite bool_decide_eq_true_2 in Hex.
Qed.

Lemma sends_follow_training_nil : sends_follow_training (Tensor := Tensor) [].
Proof. intros i dst code payload Hi. now rewrite lookup_nil in Hi. Qed.

Lemma sends_follow_training_app l l' :
  sends_follow_training l -> sends_follow_training l' -> sends_follow_training (l ++ l').
Proof.
  intros Hl Hl' i dst code payload Hi.
  apply lookup_app_Some in Hi as [Hi|[Hge Hi]].
  - destruct (Hl i dst code payload Hi) as (Hd & Hc & Ht & j & p & -> & Hj).
    repeat split; try assumption. exists j, p. split; [reflexivity|].
    now apply lookup_app_l_Some.
  - destruct (Hl' _ dst code payload Hi) as (Hd & Hc & Ht & j & p & Hij & Hj).
    repeat split; try assumption. exists (length l + j)%nat, p. split; [lia|].
    rewrite lookup_app_r by lia. now replace (length l + j - length l)%nat with j by lia.
Qed.

End LoopFacts.

Section PassiveFacts.
Context {Tensor H Model : Type} `{!ClientBackendHandler Tensor H Model}.
Implicit Types (s : ClientPassiveManager.t Tensor H) (m : message Tensor).

Lemma passive_run_body_blocked s :
  take_from 0 (inbox (ClientPassiveManager._network s)) = None ->
  ClientPassiveManager.run_body s = Result s [] Blocked.
Proof.
  intros Ht. unfold ClientPassiveManager.run_body, ClientPassiveManager.recv_package,
    recv_on, bind. cbn. now rewrite Ht.
Qed.

Lemma passive_run_body_exit s m rest :
  take_from 0 (inbox (ClientPassiveManager._network s)) = Some (m, rest) ->
  code_of m = Exit ->
  ClientPassiveManager.run_body s
  = Result (ClientPassiveManager.after_recv rest s) [EvRecv (Some 0) m] (Raise (SystemExit 0)).
Proof.
  intros Ht Hm. unfold ClientPassiveManager.run_body, ClientPassiveManager.recv_package,
    recv_on, bind. cbn. rewrite Ht. cbn. rewrite decide_True by exact Hm. reflexivity.
Qed.

Lemma passive_run_body_empty s m rest :
  take_from 0 (inbox (ClientPassiveManager._network s)) = Some (m, rest) ->
  code_of m <> Exit -> payload_of m = [] ->
  ClientPassiveManager.run_body s
  = Result (ClientPassiveManager.after_recv rest s) [EvRecv (Some 0) m] (Raise IndexError).
Proof.
  intros Ht Hm Hp. unfold ClientPassiveManager.run_body, ClientPassiveManager.recv_package,
    recv_on, bind. cbn. rewrite Ht. cbn. rewrite decide_False by exact Hm.
  unfold ClientPassiveManager.on_receive, index, bind. rewrite Hp. reflexivity.
Qed.

Lemma passive_run_body_train s m rest (p : Tensor) (ps : list Tensor) :
  take_from 0 (inbox (ClientPassiveManager._network s)) = Some (m, rest) ->
  code_of m <> Exit -> payload_of m = p :: ps ->
  ClientPassiveManager.run_body s
  = Result (ClientPassiveManager.set_handler
              (train Omitted p (ClientPassiveManager._handler s)) (ClientPassiveManager.after_recv rest s))
           [EvRecv (Some 0) m; EvTrain Omitted p;
            EvSend 0 ParameterUpdate
              [serialize_model (model (train Omitted p (ClientPassiveManager._handler s)))]]
           (Done tt).
Proof.
  intros Ht Hm Hp. unfold ClientPassiveManager.run_body, ClientPassiveManager.recv_package,
    recv_on, bind. cbn. rewrite Ht. cbn. rewrite decide_False by exact Hm.
  unfold ClientPassiveManager.on_receive, index, bind. rewrite Hp. reflexivity.
Qed.

(** The four ways a turn of the passive loop can go. *)
Lemma passive_run_body_cases s :
  ClientPassiveManager.run_body s = Result s [] Blocked \/
  (exists m rest, code_of m = Exit /\
     ClientPassiveManager.run_body s
     = Result (ClientPassiveManager.after_recv rest s) [EvRecv (Some 0) m] (Raise (SystemExit 0))) \/
  (exists m rest, code_of m <> Exit /\
     ClientPassiveManager.run_body s
     = Result (ClientPassiveManager.after_recv rest s) [EvRecv (Some 0) m] (Raise IndexError)) \/
  (exists (m : message Tensor) (p t : Tensor) (s' : ClientPassiveManager.t Tensor H),
     code_of m <> Exit /\
     ClientPassiveManager.run_body s
     = Result s' [EvRecv (Some 0) m; EvTrain Omitted p; EvSend 0 ParameterUpdate [t]]
              (Done tt)).
Proof.
  destruct (take_from 0 (inbox (ClientPassiveManager._network s))) as [[m rest]|] eqn:Ht.
  - destruct (decide (code_of m = Exit)) as [Hm|Hm].
    + right. left. exists m, rest. split; [exact Hm|]. now apply passive_run_body_exit.
    + destruct (payload_of m) as [|p ps] eqn:Hp.
      * right. right. left. exists m, rest. split; [exact Hm|].
        now apply passive_run_body_empty.
      * right. right. right. eexists m, p, _, _. split; [exact Hm|].
        now apply (passive_run_body_train s m rest p ps).
  - left. now apply passive_run_body_blocked.
Qed.

Lemma passive_body_ends_at_exit s : ends_at_exit (ClientPassiveManager.run_body s).
Proof.
  destruct (passive_run_body_cases s)
    as [->|[(m & rest & Hm & ->)|[(m & rest & Hm & ->)|(m & p & t & s' & Hm & ->)]]].
  - left. constructor.
  - right. exists [], (Some 0), m. now repeat split.
  - left. cbn. repeat constructor. cbn. now rewrite bool_decide_eq_false_2.
  - left. cbn. repeat constructor. cbn. now rewrite bool_decide_eq_false_2.
Qed.

Lemma passive_body_sends_follow_training s :
  sends_follow_training (evs (ClientPassiveManager.run_body s)).
Proof.
  destruct (passive_run_body_cases s)
    as [->|[(m & rest & Hm & ->)|[(m & rest & Hm & ->)|(m & p & t & s' & Hm & ->)]]];
    intros i dst code payload Hi; cbn in Hi.
  - discriminate.
  - destruct i as [|i]; discriminate.
  - destruct i as [|i]; discriminate.
  - destruct i as [|[|[|i]]]; try discriminate.
    injection Hi as <- <- <-. repeat split. { now exists t. }
    exists 1%nat, p. split; reflexivity.
Qed.

End PassiveFacts.

Section ActiveFacts.
Context {Tensor H Model : Type} `{!ClientBackendHandler Tensor H Model}.
Implicit Types (s : ClientActiveManager.t Tensor H) (m : message Tensor).

Lemma active_run_body_blocked s :
  take_from 0 (inbox (ClientActiveManager._network s)) = None ->
  ClientActiveManager.run_body s = Result s [EvSend 0 ParameterRequest []] Blocked.
Proof.
  intros Ht. unfold ClientActiveManager.run_body, ClientActiveManager.recv_package,
    recv_on, bind. cbn. now rewrite Ht.
Qed.

Lemma active_run_body_exit s m rest :
  take_from 0 (inbox (ClientActiveManager._network s)) = Some (m, rest) ->
  code_of m = Exit ->
  ClientActiveManager.run_body s
  = Result (ClientActiveManager.after_recv rest s)
           [EvSend 0 ParameterRequest []; EvRecv (Some 0) m] (Raise (SystemExit 0)).
Proof.
  intros Ht Hm. unfold ClientActiveManager.run_body, ClientActiveManager.recv_package,
    recv_on, bind. cbn. rewrite Ht. cbn. rewrite decide_True by exact Hm. reflexivity.
Qed.

Lemma active_run_body_short s m rest :
  take_from 0 (inbox (ClientActiveManager._network s)) = Some (m, rest) ->
  code_of m <> Exit -> (length (payload_of m) < 2)%nat ->
  ClientActiveManager.run_body s
  = Result (ClientActiveManager.after_recv rest s)
           [EvSend 0 ParameterRequest []; EvRecv (Some 0) m] (Raise IndexError).
Proof.
  intros Ht Hm Hp. unfold ClientActiveManager.run_body, ClientActiveManager.recv_package,
    recv_on, bind. cbn. rewrite Ht. cbn. rewrite decide_False by exact Hm. cbn.
  unfold ClientActiveManager.on_receive, index, bind.
  destruct (payload_of m) as [|p [|g ps]]; cbn in Hp |- *; try reflexivity. lia.
Qed.

Lemma active_run_body_train s m rest (p g : Tensor) (ps : list Tensor) :
  take_from 0 (inbox (ClientActiveManager._network s)) = Some (m, rest) ->
  code_of m <> Exit -> payload_of m = p :: g :: ps ->
  ClientActiveManager.run_body s
  = Result (ClientActiveManager.set_handler
              (train (Given (ClientActiveManager.epochs s)) p (ClientActiveManager._handler s))
              (ClientActiveManager.set_model_gen_time (Some g)
                 (ClientActiveManager.after_recv rest s)))
           [EvSend 0 ParameterRequest []; EvRecv (Some 0) m;
            EvTrain (Given (ClientActiveManager.epochs s)) p;
            EvSend 0 ParameterUpdate
              [serialize_model
                 (model (train (Given (ClientActiveManager.epochs s)) p
                           (ClientActiveManager._handler s)));
               g]]
           (Done tt).
Proof.
  intros Ht Hm Hp. unfold ClientActiveManager.run_body, ClientActiveManager.recv_package,
    recv_on, bind. cbn. rewrite Ht. cbn. rewrite decide_False by exact Hm. cbn.
  unfold ClientActiveManager.on_receive, index, bind. rewrite Hp. reflexivity.
Qed.

Lemma active_body_ends_at_exit s : ends_at_exit (ClientActiveManager.run_body s).
Proof.
  destruct (take_from 0 (inbox (ClientActiveManager._network s))) as [[m rest]|] eqn:Ht.
  - destruct (decide (code_of m = Exit)) as [Hm|Hm].
    + right. exists [EvSend 0 ParameterRequest []], (Some 0), m.
      rewrite (active_run_body_exit s m rest Ht Hm). repeat split; try assumption.
      now repeat constructor.
    + left. destruct (decide (length (payload_of m) < 2)%nat) as [Hp|Hp].
      * rewrite (active_run_body_short s m rest Ht Hm Hp). cbn.
        repeat constructor. cbn. now rewrite bool_decide_eq_false_2.
      * destruct (payload_of m) as [|p [|g ps]] eqn:Hpay; cbn in Hp; try lia.
        rewrite (active_run_body_train s m rest p g ps Ht Hm Hpay). cbn.
        repeat constructor. cbn. now rewrite bool_decide_eq_false_2.
  - left. rewrite (active_run_body_blocked s Ht). now repeat constructor.
Qed.

End ActiveFacts.

Section ClientTheorems.
Context {Tensor H Model : Type} `{!ClientBackendHandler Tensor H Model}.

(** C3. In [ClientPassiveManager.run] and in [ClientActiveManager.run]
    alike, the receive of an envelope whose code is [Exit] is the last
    thing the client does: wherever such a receive stands in the log of a
    run, nothing follows it, no send in particular, and the run has ended
    with [SystemExit(0)].  And when the envelope a client receives next has
    the code [Exit], the run ends there: the passive client has sent
    nothing, the active client only the request it makes before it
    receives. *)
Theorem exit_stops_client :
  (forall (fuel : nat) (s : ClientPassiveManager.t Tensor H)
          (pre : list (event Tensor)) (src : option Z) (m : message Tensor)
          (post : list (event Tensor)),
     evs (ClientPassiveManager.run fuel s) = pre ++ EvRecv src m :: post ->
     code_of m = Exit ->
     post = [] /\ out (ClientPassiveManager.run fuel s) = Raise (SystemExit 0)) /\
  (forall (fuel : nat) (s : ClientActiveManager.t Tensor H)
          (pre : list (event Tensor)) (src : option Z) (m : message Tensor)
          (post : list (event Tensor)),
     evs (ClientActiveManager.run fuel s) = pre ++ EvRecv src m :: post ->
     code_of m = Exit ->
     post = [] /\ out (ClientActiveManager.run fuel s) = Raise (SystemExit 0)) /\
  (forall (fuel : nat) (s : ClientPassiveManager.t Tensor H) (m : message Tensor)
          (rest : list (message Tensor)),
     take_from 0 (inbox (ClientPassiveManager._network s)) = Some (m, rest) ->
     code_of m = Exit ->
     ClientPassiveManager.run (Datatypes.S fuel) s
     = Result (ClientPassiveManager.after_recv rest s)
              [EvInit; EvRecv (Some 0) m] (Raise (SystemExit 0))) /\
  (forall (fuel : nat) (s : ClientActiveManager.t Tensor H) (m : message Tensor)
          (rest : list (message Tensor)),
     take_from 0 (inbox (ClientActiveManager._network s)) = Some (m, rest) ->
     code_of m = Exit ->
     ClientActiveManager.run (Datatypes.S fuel) s
     = Result (ClientActiveManager.after_recv rest s)
              [EvInit; EvSend 0 ParameterRequest []; EvRecv (Some 0) m]
              (Raise (SystemExit 0))).
Proof.
  split; [|split; [|split]].
  4: { intros fuel s m rest Ht Hm. unfold ClientActiveManager.run.
       rewrite (bind_Done _ _ _ tt) by reflexivity. cbn [emit st evs out forever].
       unfold bind. cbv zeta. now rewrite (active_run_body_exit s m rest Ht Hm). }
  3: { intros fuel s m rest Ht Hm. unfold ClientPassiveManager.run.
       rewrite (bind_Done _ _ _ tt) by reflexivity. cbn [emit st evs out forever].
       unfold bind. cbv zeta. now rewrite (passive_run_body_exit s m rest Ht Hm). }
  all: intros fuel s pre src m post Hev Hm.
  - apply (ends_at_exit_last _ pre src m post); [|exact Hev|exact Hm].
    unfold ClientPassiveManager.run. apply emit_then_ends_at_exit; [reflexivity|].
    apply forever_ends_at_exit, passive_body_ends_at_exit.
  - apply (ends_at_exit_last _ pre src m post); [|exact Hev|exact Hm].
    unfold ClientActiveManager.run. apply emit_then_ends_at_exit; [reflexivity|].
    apply forever_ends_at_exit, active_body_ends_at_exit.
Qed.

(** C4. When [ClientActiveManager] receives from rank 0 an envelope that
    is not an [Exit] and whose payload is the parameters [p] followed by
    the generation time [g], [on_receive] keeps [g] in [model_gen_time] and
    the [synchronize] that follows sends one [ParameterUpdate] to rank 0
    whose buffers are the serialized trained model and then [g] itself.
    This holds of [on_receive] followed by [synchronize] from any state and
    of the whole turn of [run]. *)
Theorem active_carries_generation_time (s : ClientActiveManager.t Tensor H)
    (m : message Tensor) (rest : list (message Tensor)) (p g : Tensor) (ps : list Tensor) :
  take_from 0 (inbox (ClientActiveManager._network s)) = Some (m, rest) ->
  code_of m <> Exit ->
  payload_of m = p :: g :: ps ->
  let trained := train (Given (ClientActiveManager.epochs s)) p (ClientActiveManager._handler s) in
  let r := ClientActiveManager.run_body s in
  let r' := (ClientActiveManager.on_receive (sender_of m) (code_of m) (payload_of m);;
             ClientActiveManager.synchronize)%py s in
  out r = Done tt /\
  evs r = [EvSend 0 ParameterRequest []; EvRecv (Some 0) m;
           EvTrain (Given (ClientActiveManager.epochs s)) p;
           EvSend 0 ParameterUpdate [serialize_model (model trained); g]] /\
  ClientActiveManager.model_gen_time (st r) = Some g /\
  out r' = Done tt /\
  evs r' = [EvTrain (Given (ClientActiveManager.epochs s)) p;
            EvSend 0 ParameterUpdate [serialize_model (model trained); g]] /\
  ClientActiveManager.model_gen_time (st r') = Some g.
Proof.
  intros Ht Hm Hp trained r r'. subst r r'.
  rewrite (active_run_body_train s m rest p g ps Ht Hm Hp), Hp.
  repeat split.
Qed.

(** C7. A turn of [ClientPassiveManager.run] on an envelope from rank 0
    that is not an [Exit] and whose payload starts with the parameters [p]
    trains on [p] and then makes one send: a [ParameterUpdate] to rank 0
    that holds the serialized model the training left in the handler.  In
    a run of any length, every send of the passive client is such a
    [ParameterUpdate] of one buffer to rank 0 and stands right after a
    training step: there is no other contact. *)
Theorem passive_trains_then_synchronizes :
  (forall (s : ClientPassiveManager.t Tensor H) (m : message Tensor)
          (rest : list (message Tensor)) (p : Tensor) (ps : list Tensor),
     take_from 0 (inbox (ClientPassiveManager._network s)) = Some (m, rest) ->
     code_of m <> Exit ->
     payload_of m = p :: ps ->
     let trained := train Omitted p (ClientPassiveManager._handler s) in
     ClientPassiveManager.run_body s
     = Result (ClientPassiveManager.set_handler trained
                 (ClientPassiveManager.after_recv rest s))
              [EvRecv (Some 0) m; EvTrain Omitted p;
               EvSend 0 ParameterUpdate [serialize_model (model trained)]]
              (Done tt)) /\
  (forall (fuel : nat) (s : ClientPassiveManager.t Tensor H) (i : nat) (dst : Z)
          (code : MessageCode) (payload : list Tensor),
     evs (ClientPassiveManager.run fuel s) !! i = Some (EvSend dst code payload) ->
     dst = 0 /\ code = ParameterUpdate /\ (exists t, payload = [t]) /\
     exists (j : nat) (p : Tensor),
       i = Datatypes.S j /\
       evs (ClientPassiveManager.run fuel s) !! j = Some (EvTrain Omitted p)).
Proof.
  split.
  - intros s m rest p ps Ht Hm Hp trained. now apply (passive_run_body_train s m rest p ps).
  - intros fuel s. change (sends_follow_training (evs (ClientPassiveManager.run fuel s))).
    unfold ClientPassiveManager.run.
    rewrite (bind_Done _ _ _ tt) by reflexivity. cbn [evs emit st].
    apply sends_follow_training_app.
    + intros [|i] dst code payload Hi; cbn in Hi; discriminate.
    + apply forever_evs.
      * apply sends_follow_training_nil.
      * apply sends_follow_training_app.
      * apply passive_body_sends_follow_training.
Qed.

End ClientTheorems.

(** A passive and an active client that are sent parameters, then [Exit],
    then parameters again: each makes its round, receives the [Exit] and
    ends; the third envelope is never received. *)
Lemma exit_stops_client_witness :
  let pre := [EvInit; EvRecv (Some 0) (Scenario.broadcast [1; 2]); EvTrain Omitted [1; 2];
              EvSend 0 ParameterUpdate [[2; 3]]] in
  evs (ClientPassiveManager.run 5 Scenario.passive_client)
  = pre ++ EvRecv (Some 0) Scenario.stop :: [] /\
  code_of Scenario.stop = Exit /\
  ([] = @nil (event (list Z)) /\
   out (ClientPassiveManager.run 5 Scenario.passive_client) = Raise (SystemExit 0)).
Proof.
  intros pre.
  assert (Hev : evs (ClientPassiveManager.run 5 Scenario.passive_client)
                = pre ++ EvRecv (Some 0) Scenario.stop :: []) by (vm_compute; reflexivity).
  split; [exact Hev|]. split; [reflexivity|].
  exact (proj1 exit_stops_client 5%nat Scenario.passive_client pre (Some 0)
           Scenario.stop [] Hev eq_refl).
Defined.

(** The active client of the scenario sends back the generation time 7 it
    was given, behind the trained parameters. *)
Lemma active_carries_generation_time_witness :
  let s := Scenario.active_client in
  let m := Scenario.answer [1; 2] 7 in
  take_from 0 (inbox (ClientActiveManager._network s))
  = Some (m, [Scenario.stop; Scenario.answer [5; 6] 8]) /\
  code_of m <> Exit /\
  payload_of m = [[1; 2]; [7]] /\
  evs (ClientActiveManager.run_body s)
  = [EvSend 0 ParameterRequest []; EvRecv (Some 0) m; EvTrain (Given (Some 3)) [1; 2];
     EvSend 0 ParameterUpdate [[2; 3]; [7]]].
Proof.
  intros s m.
  assert (Hm : code_of m <> Exit) by discriminate.
  split; [reflexivity|]. split; [exact Hm|]. split; [reflexivity|].
  exact (proj1 (proj2 (active_carries_generation_time s m
                         [Scenario.stop; Scenario.answer [5; 6] 8] [1; 2] [7] []
                         eq_refl Hm eq_refl))).
Defined.

(** The passive client of the scenario trains on the parameters it was sent
    and sends the result to rank 0. *)
Lemma passive_trains_then_synchronizes_witness :
  let s := Scenario.passive_client in
  let m := Scenario.broadcast [1; 2] in
  take_from 0 (inbox (ClientPassiveManager._network s))
  = Some (m, [Scenario.stop; Scenario.broadcast [5; 6]]) /\
  code_of m <> Exit /\
  payload_of m = [[1; 2]] /\
  evs (ClientPassiveManager.run_body s)
  = [EvRecv (Some 0) m; EvTrain Omitted [1; 2]; EvSend 0 ParameterUpdate [[2; 3]]] /\
  (evs (ClientPassiveManager.run 5 s) !! 3%nat = Some (EvSend 0 ParameterUpdate [[2; 3]]) /\
   exists (j : nat) (p : list Z),
     3%nat = Datatypes.S j /\
     evs (ClientPassiveManager.run 5 s) !! j = Some (EvTrain Omitted p)).
Proof.
  intros s m.
  assert (Hm : code_of m <> Exit) by discriminate.
  split; [reflexivity|]. split; [exact Hm|]. split; [reflexivity|]. split.
  - exact (f_equal evs (proj1 passive_trains_then_synchronizes s m
                          [Scenario.stop; Scenario.broadcast [5; 6]] [1; 2] []
                          eq_refl Hm eq_refl)).
  - assert (Hi : evs (ClientPassiveManager.run 5 s) !! 3%nat
                 = Some (EvSend 0 ParameterUpdate [[2; 3]])) by (vm_compute; reflexivity).
    split; [exact Hi|].
    exact (proj2 (proj2 (proj2 (proj2 passive_trains_then_synchronizes 5%nat s 3%nat 0
                                  ParameterUpdate [[2; 3]] Hi)))).
Defined.

(** ** The coordinator *)

Lemma group_spec (m : dict Z (list Z)) (ids : list Z) : forall (acc d : dict Z (list Z)),
  dict_wf acc ->
  Coordinator.group m ids acc = inr d ->
  dict_wf d /\
  forall rank : Z,
    default [] (dict_get d rank)
    = default [] (dict_get acc rank)
      ++ filter (fun id => Coordinator.owner m id = Some rank) ids.
Proof.
  induction ids as [|id ids IH]; intros acc d Hwf Hg.
  - cbn in Hg. injection Hg as <-. split; [exact Hwf|].
    intros rank. now rewrite filter_nil, app_nil_r.
  - cbn [Coordinator.group] in Hg.
    destruct (Coordinator.owner m id) as [r|] eqn:Ho; [|discriminate].
    destruct (IH _ d (dict_set_wf acc r _ Hwf) Hg) as [Hd Hget].
    split; [exact Hd|]. intros rank. rewrite Hget.
    unfold Coordinator.add_to_group. rewrite dict_get_set.
    destruct (decide (r = rank)) as [->|Hne].
    + rewrite filter_cons_True by exact Ho.
      change (default [] (Some (default [] (dict_get acc rank) ++ [id])))
        with (default [] (dict_get acc rank) ++ [id]).
      now rewrite <- app_assoc.
    + rewrite filter_cons_False by congruence. reflexivity.
Qed.

(** C8. [Coordinator.map_id_list] is a function of the mapping and of the
    list it is given.  The [dict] it returns has every rank once, and the
    group of a rank is the list of the requested identifiers the rank owns,
    in the order in which they were requested: a subsequence of the input.
    A call leaves the coordinator as it was, so that a second call with the
    same list returns the same [dict]. *)
Theorem map_id_list_ordered_and_pure (c : Coordinator.t) (ids : list Z) (d : dict Z (list Z)) :
  Coordinator.map_id_list c ids = inr d ->
  dict_wf d /\
  (forall (rank : Z) (g : list Z),
     (rank, g) ∈ d ->
     g = filter (fun id => Coordinator.owner (Coordinator.rank_ids c) id = Some rank) ids /\
     sublist g ids) /\
  let r1 := Coordinator.call_map_id_list (E := unit) ids c in
  let r2 := Coordinator.call_map_id_list (E := unit) ids (st r1) in
  st r1 = c /\ out r1 = Done d /\ st r2 = c /\ out r2 = Done d.
Proof.
  intros Hmap. unfold Coordinator.map_id_list in Hmap.
  assert (Hnil : dict_wf (K := Z) (V := list Z) []) by apply NoDup_nil_2.
  destruct (group_spec _ ids [] d Hnil Hmap) as [Hwf Hget].
  split; [exact Hwf|]. split.
  - intros rank g Hin. apply (dict_get_elem_of d rank g Hwf) in Hin.
    specialize (Hget rank). rewrite Hin in Hget. cbn in Hget. subst g.
    split; [reflexivity | apply sublist_filter].
  - unfold Coordinator.call_map_id_list, Coordinator.map_id_list, bind. cbn.
    rewrite Hmap. cbn. rewrite Hmap. now repeat split.
Qed.

(** In the fan-out scenario a request for 9, 3, 7 is grouped as 9 for
    rank 5 and 3, 7 for rank 2. *)
Lemma map_id_list_ordered_and_pure_witness :
  Coordinator.map_id_list Scenario.fan_coordinator [9; 3; 7] = inr [(5, [9]); (2, [3; 7])] /\
  dict_wf (K := Z) (V := list Z) [(5, [9]); (2, [3; 7])] /\
  out (Coordinator.call_map_id_list (E := unit) [9; 3; 7] Scenario.fan_coordinator)
  = Done [(5, [9]); (2, [3; 7])].
Proof.
  assert (Hmap : Coordinator.map_id_list Scenario.fan_coordinator [9; 3; 7]
                 = inr [(5, [9]); (2, [3; 7])]) by (vm_compute; reflexivity).
  destruct (map_id_list_ordered_and_pure Scenario.fan_coordinator [9; 3; 7]
              [(5, [9]); (2, [3; 7])] Hmap) as (Hwf & _ & _ & Hout & _).
  split; [exact Hmap|]. split; [exact Hwf | exact Hout].
Defined.

(** ** [main_loop] and [setup] *)

Section MainLoopFacts.
Context {Tensor : Type}.

(** A loop whose body returns or blocks never raises. *)
Lemma forever_never_raises {S} (body : M S (event Tensor) unit) :
  (forall s, out (body s) = Done tt \/ out (body s) = Blocked) ->
  forall (fuel : nat) s,
    out (forever fuel body s) = Blocked \/ out (forever fuel body s) = OutOfFuel.
Proof.
  intros Hbody. induction fuel as [|fuel IH]; intros s; [now right|].
  cbn [forever]. unfold bind. destruct (Hbody s) as [-> | ->]; cbn [out].
  - apply IH.
  - now left.
Qed.

Lemma server_main_loop_body_out (s : ServerConnector.t Tensor) :
  out (ServerConnector.main_loop_body s) = Done tt \/
  out (ServerConnector.main_loop_body s) = Blocked.
Proof.
  unfold ServerConnector.main_loop_body, ServerConnector.recv_package, recv_on, bind.
  cbn. destruct (inbox (ServerConnector._network s)); cbn; [now right | now left].
Qed.

Lemma client_main_loop_body_out {Coord} (s : ClientConnector.t Tensor Coord) :
  out (ClientConnector.main_loop_body s) = Done tt \/
  out (ClientConnector.main_loop_body s) = Blocked.
Proof.
  unfold ClientConnector.main_loop_body, ClientConnector.recv, recv_on, bind.
  cbn. destruct (inbox (ClientConnector._network s)); cbn; [now right | now left].
Qed.

Lemma server_forever_run (fuel : nat) : forall (ws : Z) (pending rq wq : list (message Tensor)),
  forever fuel ServerConnector.main_loop_body
    {| ServerConnector._network := {| world_size := ws; inbox := pending |};
       ServerConnector.mq_read := rq; ServerConnector.mq_write := wq |}
  = Result {| ServerConnector._network := {| world_size := ws; inbox := drop fuel pending |};
              ServerConnector.mq_read := rq;
              ServerConnector.mq_write := wq ++ take fuel pending |}
           (EvRecv None <$> take fuel pending)
           (if decide (fuel <= length pending)%nat then OutOfFuel else Blocked).
Proof.
  induction fuel as [|fuel IH]; intros ws pending rq wq.
  - cbn. now rewrite app_nil_r.
  - destruct pending as [|[[sender code] payload] pending].
    + cbn. now rewrite app_nil_r.
    + cbn [forever]. rewrite (bind_Done _ _ _ tt) by reflexivity.
      assert (Hb : ServerConnector.main_loop_body
                     {| ServerConnector._network :=
                          {| world_size := ws;
                             inbox := @cons (message Tensor) (sender, code, payload) pending |};
                        ServerConnector.mq_read := rq; ServerConnector.mq_write := wq |}
                   = Result {| ServerConnector._network := {| world_size := ws; inbox := pending |};
                               ServerConnector.mq_read := rq;
                               ServerConnector.mq_write := wq ++ [(sender, code, payload)] |}
                            [EvRecv None (sender, code, payload)] (Done tt)) by reflexivity.
      rewrite Hb. cbn [st evs out]. rewrite IH. cbn [st evs out].
      rewrite <- app_assoc. cbn -[decide].
      f_equal. repeat case_decide; try reflexivity; lia.
Qed.

End MainLoopFacts.

Section MainLoopTheorem.
Context {Tensor Coord : Type} `{!Torch Tensor} `{!CoordinatorAPI Tensor Coord}.

(** C5, as the code has it.  No lifecycle state is kept and no call is
    refused for coming before [setup].  [ClientConnector.main_loop] calls
    [setup] itself as its first step: when [setup] does not return,
    [main_loop] ends as [setup] ended, no thread started and no loop
    entered; when it returns, the drain thread is started and the receive
    loop runs from the state [setup] left, and the loop itself never
    raises.  [ServerConnector.main_loop] calls no [setup]: from any state
    it starts the drain thread and moves every envelope it receives to its
    write queue, in order, until it waits on the transport; it never
    raises. *)
Theorem main_loop_runs_setup_itself :
  (forall (fuel : nat) (s : ClientConnector.t Tensor Coord),
     let r0 := ClientConnector.setup s in
     let r := ClientConnector.main_loop fuel s in
     match out r0 with
     | Done _ =>
         let loop := forever fuel ClientConnector.main_loop_body (st r0) in
         r = Result (st loop) (evs r0 ++ EvThread deal_queue_target :: evs loop) (out loop) /\
         (out r = Blocked \/ out r = OutOfFuel)
     | o => r = Result (st r0) (evs r0) o
     end) /\
  (forall (fuel : nat) (ws : Z) (pending rq wq : list (message Tensor)),
     ServerConnector.main_loop fuel
       {| ServerConnector._network := {| world_size := ws; inbox := pending |};
          ServerConnector.mq_read := rq; ServerConnector.mq_write := wq |}
     = Result {| ServerConnector._network := {| world_size := ws; inbox := drop fuel pending |};
                 ServerConnector.mq_read := rq;
                 ServerConnector.mq_write := wq ++ take fuel pending |}
              (EvThread deal_queue_target :: (EvRecv None <$> take fuel pending))
              (if decide (fuel <= length pending)%nat then OutOfFuel else Blocked)).
Proof.
  split.
  - intros fuel s. cbv zeta.
    destruct (out (ClientConnector.setup s)) as [[]| | |] eqn:Ho.
    + assert (Hr : ClientConnector.main_loop fuel s
                   = Result (st (forever fuel ClientConnector.main_loop_body
                                   (st (ClientConnector.setup s))))
                            (evs (ClientConnector.setup s)
                               ++ EvThread deal_queue_target
                                    :: evs (forever fuel ClientConnector.main_loop_body
                                              (st (ClientConnector.setup s))))
                            (out (forever fuel ClientConnector.main_loop_body
                                    (st (ClientConnector.setup s))))).
      { unfold ClientConnector.main_loop. rewrite (bind_Done _ _ _ tt Ho).
        rewrite (bind_Done _ _ _ tt) by reflexivity. reflexivity. }
      rewrite Hr. split; [reflexivity|]. cbn [out].
      apply forever_never_raises, client_main_loop_body_out.
    + unfold ClientConnector.main_loop, bind. cbv zeta. now rewrite Ho.
    + unfold ClientConnector.main_loop, bind. cbv zeta. now rewrite Ho.
    + unfold ClientConnector.main_loop, bind. cbv zeta. now rewrite Ho.
  - intros fuel ws pending rq wq. unfold ServerConnector.main_loop.
    rewrite (bind_Done _ _ _ tt) by reflexivity. cbn [emit st evs out].
    now rewrite server_forever_run.
Qed.

End MainLoopTheorem.

(** Against C5 as stated: [main_loop] called on connectors fresh from their
    constructors, before any [setup], is not refused.  The server-facing
    connector receives the pending envelope and queues it; the
    client-facing connector runs the handshake and then waits for
    envelopes. *)
Lemma main_loop_before_setup_not_refused :
  ~ fails_with_LifecycleViolation (ServerConnector.main_loop 2 Scenario.fresh_server_connector) /\
  ServerConnector.mq_write (st (ServerConnector.main_loop 2 Scenario.fresh_server_connector))
  = [Scenario.broadcast [1; 2]] /\
  ~ fails_with_LifecycleViolation (ClientConnector.main_loop 2 Scenario.fresh_client_connector) /\
  out (ClientConnector.main_loop 2 Scenario.fresh_client_connector) = Blocked.
Proof.
  split; [|split; [|split]].
  - unfold fails_with_LifecycleViolation. vm_compute. discriminate.
  - vm_compute. reflexivity.
  - unfold fails_with_LifecycleViolation. vm_compute. discriminate.
  - vm_compute. reflexivity.
Qed.

(** ** [AverageMeter] *)

Section AverageMeterFacts.
Context {num : Type} `{!PyNum num}.
Implicit Types (s : AverageMeter.t num) (calls : list (num * kwarg num)).

Lemma update_spec s (v : num) (n : kwarg num) :
  let c := add (AverageMeter.count s) (AverageMeter.n_of n) in
  let t := add (AverageMeter.sum s) (mul v (AverageMeter.n_of n)) in
  AverageMeter.update v n s
  = if is_zero c
    then Result {| AverageMeter.val := v; AverageMeter.avg := AverageMeter.avg s;
                   AverageMeter.sum := t; AverageMeter.count := c |}
                [] (Raise ZeroDivisionError)
    else Result {| AverageMeter.val := v; AverageMeter.avg := div t c;
                   AverageMeter.sum := t; AverageMeter.count := c |}
                [] (Done tt).
Proof.
  cbv zeta. unfold AverageMeter.update, AverageMeter.truediv, bind, modify, gets. cbn.
  destruct (is_zero (add (AverageMeter.count s) (AverageMeter.n_of n))); reflexivity.
Qed.

(** The meter after a sequence of calls from any state, as long as no call
    leaves the count at zero. *)
Lemma updates_spec calls : forall s,
  (forall k, (0 < k <= length calls)%nat ->
     is_zero (fold_left (fun acc c => add acc (AverageMeter.n_of c.2)) (take k calls)
                (AverageMeter.count s)) = false) ->
  let r := AverageMeter.updates calls s in
  out r = Done tt /\ evs r = [] /\
  AverageMeter.count (st r)
  = fold_left (fun acc c => add acc (AverageMeter.n_of c.2)) calls (AverageMeter.count s) /\
  AverageMeter.sum (st r)
  = fold_left (fun acc c => add acc (mul c.1 (AverageMeter.n_of c.2))) calls
      (AverageMeter.sum s) /\
  AverageMeter.val (st r) = default (AverageMeter.val s) (fst <$> last calls) /\
  (calls <> [] ->
   AverageMeter.truediv (AverageMeter.sum (st r)) (AverageMeter.count (st r))
   = Some (AverageMeter.avg (st r))) /\
  (calls = [] -> st r = s).
Proof.
  induction calls as [|[v n] calls IH]; intros s Hnz.
  - cbn. now repeat split.
  - pose proof (Hnz 1%nat ltac:(cbn; lia)) as H1.
    change (take 1 ((v, n) :: calls)) with ((v, n) :: take 0 calls) in H1.
    rewrite take_0 in H1. cbn [fold_left snd] in H1.
    cbn [AverageMeter.updates]. cbv zeta.
    pose proof (update_spec s v n) as Hu. cbv zeta in Hu. rewrite H1 in Hu.
    rewrite (bind_Done _ _ _ tt) by now rewrite Hu.
    rewrite Hu. cbn [st evs out app].
    set (s1 := {| AverageMeter.val := v;
                  AverageMeter.avg := div (add (AverageMeter.sum s) (mul v (AverageMeter.n_of n)))
                                          (add (AverageMeter.count s) (AverageMeter.n_of n));
                  AverageMeter.sum := add (AverageMeter.sum s) (mul v (AverageMeter.n_of n));
                  AverageMeter.count := add (AverageMeter.count s) (AverageMeter.n_of n) |}).
    assert (Hnz' : forall k, (0 < k <= length calls)%nat ->
              is_zero (fold_left (fun acc c => add acc (AverageMeter.n_of c.2)) (take k calls)
                         (AverageMeter.count s1)) = false).
    { intros k Hk. apply (Hnz (Datatypes.S k)). cbn. lia. }
    destruct (IH s1 Hnz') as (Hout & Hev & Hc & Hs & Hv & Ha & He).
    split; [exact Hout|]. split; [exact Hev|]. split; [exact Hc|]. split; [exact Hs|].
    split; [|split].
    + rewrite Hv, last_cons. now destruct (last calls) as [[v' n']|].
    + intros _. destruct calls as [|c calls].
      * rewrite (He eq_refl). cbn. unfold AverageMeter.truediv. now rewrite H1.
      * apply Ha. discriminate.
    + discriminate.
Qed.

(** C10, as the code has it.  [reset] puts [0.0] in [val], [avg], [sum] and
    [count], from any state.  After [reset], or after construction, and a
    non-empty sequence of [update(val, n)] calls none of which leaves
    [count] at zero, every call has returned, [count] is the sum of the
    [n], [sum] the sum of the [val * n], both added up in the order of the
    calls, [val] is the last [val], and [avg] is [sum / count]. *)
Theorem average_meter_invariant s calls :
  calls <> [] ->
  AverageMeter.counts_nonzero calls ->
  AverageMeter.reset s
  = Result {| AverageMeter.val := zero; AverageMeter.avg := zero;
              AverageMeter.sum := zero; AverageMeter.count := zero |} [] (Done tt) /\
  AverageMeter.meter_holds calls ((AverageMeter.reset;; AverageMeter.updates calls)%py s) /\
  AverageMeter.meter_holds calls (AverageMeter.updates calls AverageMeter.__init__).
Proof.
  intros Hne Hnz. split; [reflexivity|].
  assert (H0 : AverageMeter.meter_holds calls (AverageMeter.updates calls AverageMeter.__init__)).
  { destruct (updates_spec calls AverageMeter.__init__ Hnz) as (Hout & _ & Hc & Hs & Hv & Ha & _).
    unfold AverageMeter.meter_holds. split; [exact Hout|]. split; [exact Hc|].
    split; [exact Hs|]. split; [exact Hv | exact (Ha Hne)]. }
  split; [|exact H0].
  rewrite (bind_Done _ _ _ tt) by reflexivity.
  destruct H0 as (Hout & Hc & Hs & Hv & Ha).
  unfold AverageMeter.meter_holds. cbn [st out].
  split; [exact Hout|]. split; [exact Hc|]. split; [exact Hs|]. split; [exact Hv | exact Ha].
Qed.

End AverageMeterFacts.

(** Three batches of 2, 1 and 1 samples with the values 3, 5 and 9: the
    meter counts 4 samples, their sum is 20 and their mean 5. *)
Lemma average_meter_invariant_witness :
  let calls := [(3%Q, Given 2%Q); (5%Q, Omitted); (9%Q, Given 1%Q)] in
  let r := AverageMeter.updates calls AverageMeter.__init__ in
  calls <> [] /\
  AverageMeter.counts_nonzero calls /\
  AverageMeter.meter_holds calls r /\
  (AverageMeter.count (st r) == 4)%Q /\
  (AverageMeter.sum (st r) == 20)%Q /\
  (AverageMeter.avg (st r) == 5)%Q.
Proof.
  intros calls r.
  assert (Hne : calls <> []) by discriminate.
  assert (Hnz : AverageMeter.counts_nonzero calls).
  { intros k Hk. cbn in Hk.
    destruct k as [|[|[|[|k]]]]; try lia; vm_compute; reflexivity. }
  split; [exact Hne|]. split; [exact Hnz|]. split.
  - exact (proj2 (proj2 (average_meter_invariant AverageMeter.__init__ calls Hne Hnz))).
  - repeat split; vm_compute; reflexivity.
Defined.

(** Against C10 as stated: after [reset], the single call [update(1, 0)]
    leaves [count] at zero; the division raises [ZeroDivisionError], the
    call does not return and [avg] keeps its old value, while [sum / count]
    has no value. *)
Lemma average_meter_update_zero_count :
  out Scenario.zero_count_run = Raise ZeroDivisionError /\
  AverageMeter.truediv (AverageMeter.sum (st Scenario.zero_count_run))
                       (AverageMeter.count (st Scenario.zero_count_run)) = None /\
  ~ AverageMeter.meter_holds [(1%Q, Given 0%Q)] Scenario.zero_count_run.
Proof.
  split; [vm_compute; reflexivity|]. split; [vm_compute; reflexivity|].
  intros (Hout & _). vm_compute in Hout. discriminate.
Qed.


(** * Further properties of the code *)

(** ** [ClientConnector.deal_queue]: order and failure *)

Section ClientDrainFacts.
Context {Tensor Coord : Type} `{!Torch Tensor} `{!CoordinatorAPI Tensor Coord}.
Implicit Types (s : ClientConnector.t Tensor Coord) (m : message Tensor).

Lemma client_deal_queue_body_spec s (c : Coord) m (q : list (message Tensor)) :
  ClientConnector.coordinator s = Some c ->
  ClientConnector.deal_queue_body (ClientConnector.set_mq_read (m :: q) s)
  = match Relay.fan_out c m with
    | inr sends => Result (ClientConnector.set_mq_read q s) sends (Done tt)
    | inl e => Result (ClientConnector.set_mq_read q s) [] (Raise e)
    end.
Proof.
  intros Hc. destruct m as [[sender code] [|id_list rest]].
  - reflexivity.
  - unfold Relay.fan_out, ClientConnector.deal_queue_body.
    rewrite (bind_Done _ _ _ (sender, code, id_list :: rest)) by reflexivity.
    cbn [queue_get ClientConnector.set_mq_read ClientConnector.mq_read st evs out app].
    rewrite (bind_Done _ _ _ id_list) by reflexivity.
    cbn. rewrite Hc. cbn.
    destruct (map_id_list c id_list) as [e|d]; cbn; [reflexivity|].
    rewrite (for_each_send d (fun rv => Tensor_to_int32 rv.2 :: rest) fst code).
    reflexivity.
Qed.

Lemma client_deal_queue_run s (c : Coord) (items : list (message Tensor)) :
  ClientConnector.coordinator s = Some c ->
  forall (sends : list (list (event Tensor))) (fuel : nat),
    Forall2 (fun m l => Relay.fan_out c m = inr l) items sends ->
    ClientConnector.deal_queue fuel (ClientConnector.set_mq_read items s)
    = Result (ClientConnector.set_mq_read (drop fuel items) s)
             (concat (take fuel sends))
             (if decide (fuel <= length items)%nat then OutOfFuel else Blocked).
Proof.
  intros Hc sends fuel Hall. revert fuel.
  induction Hall as [|m l items sends Hm Hall IH]; intros [|fuel]; try reflexivity.
  unfold ClientConnector.deal_queue in *. cbn [forever].
  pose proof (client_deal_queue_body_spec s c m items Hc) as Hb. rewrite Hm in Hb.
  rewrite (bind_Done _ _ _ tt) by now rewrite Hb.
  rewrite Hb. cbn [st evs out]. rewrite IH. cbn [st evs out take drop concat length].
  f_equal. repeat case_decide; try reflexivity; lia.
Qed.

(** X1. [ClientConnector.deal_queue] serves its read queue in order.  With
    a coordinator in place and a queue whose items all have a leading
    identifier list the coordinator can map, [fuel] turns of the loop take
    the first [fuel] items off the queue and log the sends of the first
    item, then those of the second, and so on; nothing is sent for an item
    before all sends of the items in front of it are made.  Once the queue
    is empty the loop waits. *)
Theorem client_deal_queue_in_order s (c : Coord) (items : list (message Tensor))
    (sends : list (list (event Tensor))) (fuel : nat) :
  ClientConnector.coordinator s = Some c ->
  Forall2 (fun m l => Relay.fan_out c m = inr l) items sends ->
  let r := ClientConnector.deal_queue fuel (ClientConnector.set_mq_read items s) in
  evs r = concat (take fuel sends) /\
  ClientConnector.mq_read (st r) = drop fuel items /\
  out r = (if decide (fuel <= length items)%nat then OutOfFuel else Blocked) /\
  ClientConnector.mq_write (st r) = ClientConnector.mq_write s /\
  ClientConnector.coordinator (st r) = Some c.
Proof.
  intros Hc Hall r. subst r. rewrite (client_deal_queue_run s c items Hc sends fuel Hall).
  cbn. now repeat split.
Qed.

(** X2. An item [ClientConnector.deal_queue] cannot serve ends the drain
    thread.  When the items [good] in front of it are served and [bad] has
    no payload, or a leading identifier list for which [map_id_list]
    raises, the loop makes the sends of [good], takes [bad] off the queue,
    sends nothing for it and ends with the exception; the items behind it
    stay in the queue and are never served. *)
Theorem client_deal_queue_stops_at_bad_item s (c : Coord)
    (good later : list (message Tensor)) (bad : message Tensor)
    (sends : list (list (event Tensor))) (e : exn) (fuel : nat) :
  ClientConnector.coordinator s = Some c ->
  Forall2 (fun m l => Relay.fan_out c m = inr l) good sends ->
  Relay.fan_out c bad = inl e ->
  (length good < fuel)%nat ->
  ClientConnector.deal_queue fuel (ClientConnector.set_mq_read (good ++ bad :: later) s)
  = Result (ClientConnector.set_mq_read later s) (concat sends) (Raise e).
Proof.
  intros Hc Hall Hbad. revert fuel.
  induction Hall as [|m l items sends' Hm Hall IH]; intros [|fuel] Hlt; cbn in Hlt; try lia.
  - unfold ClientConnector.deal_queue. cbn [forever app].
    pose proof (client_deal_queue_body_spec s c bad later Hc) as Hb. rewrite Hbad in Hb.
    unfold bind. cbv zeta. rewrite Hb. reflexivity.
  - unfold ClientConnector.deal_queue in *. cbn [forever].
    rewrite <- app_comm_cons.
    pose proof (client_deal_queue_body_spec s c m (items ++ bad :: later) Hc) as Hb.
    rewrite Hm in Hb.
    rewrite (bind_Done _ _ _ tt) by now rewrite Hb.
    rewrite Hb. cbn [st evs out]. rewrite IH by lia. reflexivity.
Qed.

End ClientDrainFacts.

(** Two servable items are fanned out one after the other; the loop then
    waits. *)
Lemma client_deal_queue_in_order_witness :
  let sends := [[EvSend 5 ParameterUpdate [[9]; [1; 1]]; EvSend 2 ParameterUpdate [[3]; [1; 1]]];
                [EvSend 2 (Control 4) [[7]; [2; 2]]]] in
  ClientConnector.coordinator Scenario.fan_connector = Some Scenario.fan_coordinator /\
  Forall2 (fun m l => Relay.fan_out Scenario.fan_coordinator m = inr l)
    [Scenario2.item_a; Scenario2.item_b] sends /\
  evs (ClientConnector.deal_queue 5
         (ClientConnector.set_mq_read [Scenario2.item_a; Scenario2.item_b]
            Scenario.fan_connector))
  = concat (take 5 sends).
Proof.
  intros sends.
  assert (Hall : Forall2 (fun m l => Relay.fan_out Scenario.fan_coordinator m = inr l)
                   [Scenario2.item_a; Scenario2.item_b] sends).
  { repeat constructor; vm_compute; reflexivity. }
  split; [reflexivity|]. split; [exact Hall|].
  exact (proj1 (client_deal_queue_in_order Scenario.fan_connector Scenario.fan_coordinator
                  [Scenario2.item_a; Scenario2.item_b] sends 5 eq_refl Hall)).
Defined.

(** An item for the identifiers 3 and 8, of which 8 is unknown, ends the
    thread with [UnknownIdentity]: nothing is sent for it, not even for 3,
    and the item behind it stays queued. *)
Lemma client_deal_queue_stops_at_bad_item_witness :
  ClientConnector.coordinator Scenario.fan_connector = Some Scenario.fan_coordinator /\
  Forall2 (fun m l => Relay.fan_out Scenario.fan_coordinator m = inr l)
    [Scenario2.item_b] [[EvSend 2 (Control 4) [[7]; [2; 2]]]] /\
  Relay.fan_out Scenario.fan_coordinator Scenario2.item_unknown = inl UnknownIdentity /\
  (length [Scenario2.item_b] < 4)%nat /\
  ClientConnector.deal_queue 4
    (ClientConnector.set_mq_read
       ([Scenario2.item_b] ++ Scenario2.item_unknown :: [Scenario2.item_a])
       Scenario.fan_connector)
  = Result (ClientConnector.set_mq_read [Scenario2.item_a] Scenario.fan_connector)
           (concat [[EvSend 2 (Control 4) [[7]; [2; 2]]]]) (Raise UnknownIdentity).
Proof.
  assert (Hall : Forall2 (fun m l => Relay.fan_out Scenario.fan_coordinator m = inr l)
                   [Scenario2.item_b] [[EvSend 2 (Control 4) [[7]; [2; 2]]]]).
  { repeat constructor; vm_compute; reflexivity. }
  assert (Hbad : Relay.fan_out Scenario.fan_coordinator Scenario2.item_unknown
                 = inl UnknownIdentity) by (vm_compute; reflexivity).
  assert (Hlt : (length [Scenario2.item_b] < 4)%nat) by (cbn; lia).
  split; [reflexivity|]. split; [exact Hall|]. split; [exact Hbad|]. split; [exact Hlt|].
  exact (client_deal_queue_stops_at_bad_item Scenario.fan_connector Scenario.fan_coordinator
           [Scenario2.item_b] [Scenario2.item_a] Scenario2.item_unknown
           [[EvSend 2 (Control 4) [[7]; [2; 2]]]] UnknownIdentity 4 eq_refl Hall Hbad Hlt).
Defined.

(** ** More on the monad *)

Section BindStops.
Context {S E A B : Type}.
Implicit Types (m : M S E A) (k : A -> M S E B).

Lemma bind_Raise m k (s : S) (e : exn) :
  out (m s) = Raise e -> bind m k s = Result (st (m s)) (evs (m s)) (Raise e).
Proof. intros Ho. unfold bind. now rewrite Ho. Qed.

Lemma bind_Blocked m k (s : S) :
  out (m s) = Blocked -> bind m k s = Result (st (m s)) (evs (m s)) Blocked.
Proof. intros Ho. unfold bind. now rewrite Ho. Qed.

Lemma bind_OutOfFuel m k (s : S) :
  out (m s) = OutOfFuel -> bind m k s = Result (st (m s)) (evs (m s)) OutOfFuel.
Proof. intros Ho. unfold bind. now rewrite Ho. Qed.

End BindStops.

(** ** [ClientConnector.setup]: handshakes that do not complete *)

Section ClientSetupFailures.
Context {Tensor Coord : Type} `{!Torch Tensor} `{!CoordinatorAPI Tensor Coord}.
Implicit Types (s : ClientConnector.t Tensor Coord) (l : list (message Tensor)).

Lemma bad_declaration_other {A} (rank rank' : Z) l (m : message Tensor) rest :
  take_from rank l = Some (m, rest) -> rank' <> rank ->
  Relay.bad_declaration_log rest rank' = Relay.bad_declaration_log l rank' /\
  Relay.bad_declaration_end (A := A) rest rank' = Relay.bad_declaration_end l rank'.
Proof.
  intros Ht Hne. pose proof (take_from_other rank rank' l m rest Ht Hne) as Hf.
  unfold Relay.bad_declaration_log, Relay.bad_declaration_end.
  destruct (take_from rank' rest) as [[m1 r1]|], (take_from rank' l) as [[m2 r2]|];
    simpl in Hf; try congruence; [|now split].
  injection Hf as ->. now split.
Qed.

Lemma setup_rank_bad s (acc : dict Z Z) (rank : Z) :
  ClientConnector.declaration (inbox (ClientConnector._network s)) rank = None ->
  ClientConnector.setup_rank acc rank s
  = Result (ClientConnector.set_network
              {| world_size := world_size (ClientConnector._network s);
                 inbox := ClientConnector.consume (inbox (ClientConnector._network s)) [rank] |} s)
           (Relay.bad_declaration_log (inbox (ClientConnector._network s)) rank)
           (Relay.bad_declaration_end (inbox (ClientConnector._network s)) rank).
Proof.
  unfold ClientConnector.declaration, Relay.bad_declaration_log,
    Relay.bad_declaration_end, ClientConnector.consume. intros Hd. cbn [fold_left].
  unfold ClientConnector.setup_rank, ClientConnector.recv, recv_on, bind, index. cbn.
  destruct (take_from rank (inbox (ClientConnector._network s))) as [[m rest]|] eqn:Ht.
  - cbn. destruct (payload_of m) as [|c0 cs] eqn:Hp; cbn; [reflexivity|].
    cbn in Hd. destruct (item c0); [discriminate | reflexivity].
  - cbn. now rewrite set_network_same.
Qed.

Lemma setup_loop_stops (good : list Z) : forall s (acc : dict Z Z)
    (decls : list (message Tensor * Z)) (rank : Z) (later : list Z),
  NoDup (good ++ [rank]) ->
  Forall (fun r => r ∉ keys acc) good ->
  mapM (ClientConnector.declaration (inbox (ClientConnector._network s))) good = Some decls ->
  ClientConnector.declaration (inbox (ClientConnector._network s)) rank = None ->
  ClientConnector.setup_loop (good ++ rank :: later) acc s
  = Result (ClientConnector.set_network
              {| world_size := world_size (ClientConnector._network s);
                 inbox := ClientConnector.consume (inbox (ClientConnector._network s))
                            (good ++ [rank]) |} s)
           (Relay.handshake_log good decls
              ++ (Relay.bad_declaration_log (inbox (ClientConnector._network s)) rank))
           (Relay.bad_declaration_end (inbox (ClientConnector._network s)) rank).
Proof.
  induction good as [|g good IH]; intros s acc decls rank later Hnd Hfresh Hm Hbad.
  - apply mapM_Some in Hm. apply Forall2_nil_inv_l in Hm as ->.
    cbn [app ClientConnector.setup_loop].
    pose proof (setup_rank_bad s acc rank Hbad) as Hr.
    unfold bind. cbv zeta. rewrite Hr.
    unfold Relay.bad_declaration_log, Relay.bad_declaration_end.
    destruct (take_from rank (inbox (ClientConnector._network s))) as [[m rest]|]; cbn;
      [destruct (payload_of m)|]; reflexivity.
  - apply mapM_Some in Hm. apply Forall2_cons_inv_l in Hm as ([m v] & decls' & Hd & Hm & ->).
    rewrite <- app_comm_cons in Hnd. apply NoDup_cons in Hnd as [Hg Hnd].
    apply Forall_cons in Hfresh as [Hfr Hfresh].
    destruct (setup_rank_spec s acc g m v Hd) as (rest & Ht & Hstep).
    rewrite <- app_comm_cons. cbn [ClientConnector.setup_loop].
    rewrite (bind_Done _ _ _ (dict_set acc g v)) by now rewrite Hstep.
    rewrite Hstep. cbn [st evs out].
    assert (Hne : rank <> g).
    { intros ->. apply Hg. apply elem_of_app. right. left. }
    rewrite (IH _ (dict_set acc g v) decls' rank later Hnd).
    + cbn [ClientConnector.set_network ClientConnector._network inbox world_size st evs out].
      destruct (bad_declaration_other (A := dict Z Z) g rank _ m rest Ht Hne) as [-> ->].
      assert (Hc : ClientConnector.consume (inbox (ClientConnector._network s))
                     ((g :: good) ++ [rank])
                   = ClientConnector.consume rest (good ++ [rank])).
      { unfold ClientConnector.consume. cbn [app fold_left]. now rewrite Ht. }
      rewrite Hc. reflexivity.
    + rewrite dict_set_keys. case_decide; [tauto|].
      apply Forall_forall. intros r Hr Hin. apply elem_of_app in Hin as [Hin|Hin].
      * rewrite Forall_forall in Hfresh. now apply (Hfresh r Hr).
      * apply list_elem_of_singleton in Hin. subst r. apply Hg.
        apply elem_of_app. now left.
    + apply mapM_Some. cbn [ClientConnector.set_network ClientConnector._network inbox].
      clear IH Hnd Hfresh. induction Hm as [|r d rs ds Hrd Hm IHm]; constructor.
      * rewrite (declaration_other g r _ m rest Ht); [exact Hrd|].
        intros ->. apply Hg. left.
      * apply IHm. intros Hin. apply Hg. now right.
    + cbn [ClientConnector.set_network ClientConnector._network inbox].
      now rewrite (declaration_other g rank _ m rest Ht Hne).
Qed.

(** The whole of [setup] when every rank has declared. *)
Lemma setup_loop_then s (decls : list (message Tensor * Z)) :
  let ws := world_size (ClientConnector._network s) in
  mapM (ClientConnector.declaration (inbox (ClientConnector._network s))) (range 1 ws)
  = Some decls ->
  ClientConnector.setup s
  = let received :=
        ClientConnector.set_network
          {| world_size := ws;
             inbox := ClientConnector.consume (inbox (ClientConnector._network s))
                        (range 1 ws) |} s in
    match Coordinator_new (zip (range 1 ws) decls.*2) with
    | inr c =>
        Result (ClientConnector.set_handler
                  ((fun _ => {| client_num_in_total := total c |})
                     <$> ClientConnector._handler s)
                  (ClientConnector.set_coordinator (Some c) received))
               (Relay.handshake_log (range 1 ws) decls) (Done tt)
    | inl e => Result received (Relay.handshake_log (range 1 ws) decls) (Raise e)
    end.
Proof.
  intros ws Hm.
  pose proof (setup_loop_spec (range 1 ws) s [] decls (range_NoDup 1 ws)) as Hloop.
  rewrite app_nil_l in Hloop.
  assert (Hfresh : Forall (fun rank : Z => rank ∉ keys (V := Z) []) (range 1 ws)).
  { apply Forall_forall. intros rank _ Hin. inversion Hin. }
  specialize (Hloop Hfresh Hm).
  unfold ClientConnector.setup.
  rewrite (bind_Done _ _ _ ws) by reflexivity. cbn [gets st evs out app].
  fold ws. rewrite (bind_Done _ _ _ (zip (range 1 ws) decls.*2)) by now rewrite Hloop.
  rewrite Hloop. cbn [st evs out]. cbv zeta.
  destruct (Coordinator_new (zip (range 1 ws) decls.*2)) as [e|c]; cbn [lift].
  - unfold bind. cbn. now rewrite app_nil_r.
  - rewrite (bind_Done _ _ _ c) by reflexivity. cbn [ret st evs out].
    rewrite (bind_Done _ _ _ tt) by reflexivity. cbn [modify st evs out].
    destruct s as [n [h|] rq wq co]; cbn; now rewrite !app_nil_r.
Qed.

(** X3. [ClientConnector.setup] never builds a coordinator from a partial
    handshake.  It stops at the first rank of [[1, world_size)] that has no
    well-formed declaration pending: it has received from the ranks before
    it, in order; from the rank itself it waits for ever if nothing is
    pending, and otherwise receives the message and raises [IndexError] on
    an empty payload and [ValueError] on a first tensor that is not a
    single number.  It receives from no later rank, and the coordinator,
    the handler and both queues are as they were. *)
Theorem client_setup_stops_at_first_bad s (good later : list Z) (rank : Z)
    (decls : list (message Tensor * Z)) :
  let pending := inbox (ClientConnector._network s) in
  range 1 (world_size (ClientConnector._network s)) = good ++ rank :: later ->
  mapM (ClientConnector.declaration pending) good = Some decls ->
  ClientConnector.declaration pending rank = None ->
  let r := ClientConnector.setup s in
  evs r = Relay.handshake_log good decls ++ (Relay.bad_declaration_log pending rank) /\
  out r = (Relay.bad_declaration_end pending rank) /\
  (forall u, out r <> Done u) /\
  inbox (ClientConnector._network (st r)) = ClientConnector.consume pending (good ++ [rank]) /\
  ClientConnector.coordinator (st r) = ClientConnector.coordinator s /\
  ClientConnector._handler (st r) = ClientConnector._handler s /\
  ClientConnector.mq_read (st r) = ClientConnector.mq_read s /\
  ClientConnector.mq_write (st r) = ClientConnector.mq_write s.
Proof.
  intros pending Hranges Hm Hbad r. subst pending.
  assert (Hnd : NoDup (good ++ [rank])).
  { pose proof (range_NoDup 1 (world_size (ClientConnector._network s))) as Hn.
    rewrite Hranges in Hn. apply NoDup_app in Hn as (Hg & Hdisj & Hr).
    apply NoDup_app. split; [exact Hg|]. split.
    - intros x Hx Hx'. apply list_elem_of_singleton in Hx'. subst x.
      apply (Hdisj rank Hx). left.
    - apply NoDup_singleton. }
  assert (Hfresh : Forall (fun r0 : Z => r0 ∉ keys (V := Z) []) good).
  { apply Forall_forall. intros r0 _ Hin. inversion Hin. }
  pose proof (setup_loop_stops good s [] decls rank later Hnd Hfresh Hm Hbad) as Hloop.
  set (pending := inbox (ClientConnector._network s)) in *.
  assert (Hr : r = Result
                     (ClientConnector.set_network
                        {| world_size := world_size (ClientConnector._network s);
                           inbox := ClientConnector.consume pending (good ++ [rank]) |} s)
                     (Relay.handshake_log good decls
                        ++ (Relay.bad_declaration_log pending rank))
                     (Relay.bad_declaration_end pending rank)).
  { subst r. unfold ClientConnector.setup.
    rewrite (bind_Done _ _ _ (world_size (ClientConnector._network s))) by reflexivity.
    cbn [gets st evs out app]. rewrite Hranges.
    unfold Relay.bad_declaration_log, Relay.bad_declaration_end in *.
    destruct (take_from rank pending) as [[m rest]|]; [destruct (payload_of m)|].
    - rewrite (bind_Raise _ _ _ IndexError) by now rewrite Hloop. now rewrite Hloop.
    - rewrite (bind_Raise _ _ _ ValueError) by now rewrite Hloop. now rewrite Hloop.
    - rewrite bind_Blocked by now rewrite Hloop. now rewrite Hloop. }
  rewrite Hr. cbn [st evs out].
  split; [reflexivity|]. split; [reflexivity|]. split.
  - intros u. unfold Relay.bad_declaration_end.
    destruct (take_from rank pending) as [[m rest]|]; [destruct (payload_of m)|];
      discriminate.
  - destruct s as [n h rq wq co]. now repeat split.
Qed.

(** X4. When every rank has declared and the [Coordinator] constructor
    raises on the [dict] of the declarations, [ClientConnector.setup]
    raises the same exception after the last receive; the connector keeps
    the coordinator it had and the handler is not assigned. *)
Theorem client_setup_constructor_raises s (decls : list (message Tensor * Z)) (e : exn) :
  let ranks := range 1 (world_size (ClientConnector._network s)) in
  mapM (ClientConnector.declaration (inbox (ClientConnector._network s))) ranks = Some decls ->
  Coordinator_new (zip ranks decls.*2) = inl e ->
  let r := ClientConnector.setup s in
  out r = Raise e /\
  evs r = Relay.handshake_log ranks decls /\
  ClientConnector.coordinator (st r) = ClientConnector.coordinator s /\
  ClientConnector._handler (st r) = ClientConnector._handler s.
Proof.
  intros ranks Hm He r. subst r. rewrite (setup_loop_then s decls Hm). cbv zeta.
  fold ranks. rewrite He. destruct s as [n h rq wq co]. now repeat split.
Qed.

End ClientSetupFailures.

(** With rank 2 silent, [setup] receives the declaration of rank 1 and then
    waits: the declaration of rank 3 stays pending. *)
Lemma client_setup_stops_at_first_bad_witness :
  let s := Scenario2.silent_rank_connector in
  range 1 (world_size (ClientConnector._network s)) = [1] ++ 2 :: [3] /\
  mapM (ClientConnector.declaration (inbox (ClientConnector._network s))) [1]
  = Some [(Scenario.declare 1 10, 10)] /\
  ClientConnector.declaration (inbox (ClientConnector._network s)) 2 = None /\
  evs (ClientConnector.setup s) = [EvRecv (Some 1) (Scenario.declare 1 10)] /\
  out (ClientConnector.setup s) = Blocked /\
  inbox (ClientConnector._network (st (ClientConnector.setup s))) = [Scenario.declare 3 12].
Proof.
  intros s.
  assert (Hr : range 1 (world_size (ClientConnector._network s)) = [1] ++ 2 :: [3])
    by (vm_compute; reflexivity).
  assert (Hm : mapM (ClientConnector.declaration (inbox (ClientConnector._network s))) [1]
               = Some [(Scenario.declare 1 10, 10)]) by (vm_compute; reflexivity).
  assert (Hb : ClientConnector.declaration (inbox (ClientConnector._network s)) 2 = None)
    by (vm_compute; reflexivity).
  destruct (client_setup_stops_at_first_bad s [1] [3] 2 [(Scenario.declare 1 10, 10)]
              Hr Hm Hb) as (Hev & Hout & _ & Hin & _).
  split; [exact Hr|]. split; [exact Hm|]. split; [exact Hb|].
  split; [exact Hev|]. split; [exact Hout | exact Hin].
Defined.

(** Two ranks that declare the same identifier: the coordinator modelled
    from the specification refuses them, and [setup] raises
    [DuplicateIdentity] after both receives. *)
Lemma client_setup_constructor_raises_witness :
  let s := Scenario2.duplicate_connector in
  let decls := [(Scenario.declare 1 10, 10); (Scenario.declare 2 10, 10)] in
  mapM (ClientConnector.declaration (inbox (ClientConnector._network s))) (range 1 3)
  = Some decls /\
  Coordinator_new (zip (range 1 3) decls.*2) = inl (B := Coordinator.t) DuplicateIdentity /\
  out (ClientConnector.setup s) = Raise DuplicateIdentity /\
  ClientConnector._handler (st (ClientConnector.setup s))
  = Some {| client_num_in_total := 0 |}.
Proof.
  intros s decls.
  assert (Hm : mapM (ClientConnector.declaration (inbox (ClientConnector._network s)))
                 (range 1 (world_size (ClientConnector._network s))) = Some decls)
    by (vm_compute; reflexivity).
  assert (Hc : Coordinator_new (zip (range 1 (world_size (ClientConnector._network s)))
                                  decls.*2) = inl (B := Coordinator.t) DuplicateIdentity)
    by (vm_compute; reflexivity).
  destruct (client_setup_constructor_raises s decls DuplicateIdentity Hm Hc)
    as (Hout & _ & _ & Hh).
  split; [exact Hm|]. split; [exact Hc|]. split; [exact Hout | exact Hh].
Defined.

(** ** [ClientConnector.main_loop]: the receive loop *)

Section ClientMainLoopFacts.
Context {Tensor Coord : Type} `{!Torch Tensor} `{!CoordinatorAPI Tensor Coord}.
Implicit Types (s : ClientConnector.t Tensor Coord).

Lemma client_forever_run (fuel : nat) : forall (ws : Z) (pending rq wq : list (message Tensor))
    (h : option Handler) (co : option Coord),
  forever fuel ClientConnector.main_loop_body
    {| ClientConnector._network := {| world_size := ws; inbox := pending |};
       ClientConnector._handler := h; ClientConnector.mq_read := rq;
       ClientConnector.mq_write := wq; ClientConnector.coordinator := co |}
  = Result {| ClientConnector._network := {| world_size := ws; inbox := drop fuel pending |};
              ClientConnector._handler := h; ClientConnector.mq_read := rq;
              ClientConnector.mq_write := wq ++ take fuel pending;
              ClientConnector.coordinator := co |}
           (EvRecv None <$> take fuel pending)
           (if decide (fuel <= length pending)%nat then OutOfFuel else Blocked).
Proof.
  induction fuel as [|fuel IH]; intros ws pending rq wq h co.
  - cbn. now rewrite app_nil_r.
  - destruct pending as [|m pending].
    + cbn. now rewrite app_nil_r.
    + cbn [forever]. rewrite (bind_Done _ _ _ tt) by reflexivity.
      assert (Hb : ClientConnector.main_loop_body
                     {| ClientConnector._network := {| world_size := ws; inbox := m :: pending |};
                        ClientConnector._handler := h; ClientConnector.mq_read := rq;
                        ClientConnector.mq_write := wq; ClientConnector.coordinator := co |}
                   = Result {| ClientConnector._network :=
                                 {| world_size := ws; inbox := pending |};
                               ClientConnector._handler := h; ClientConnector.mq_read := rq;
                               ClientConnector.mq_write := wq ++ [m];
                               ClientConnector.coordinator := co |}
                            [EvRecv None m] (Done tt)) by reflexivity.
      rewrite Hb. cbn [st evs out]. rewrite IH. cbn [st evs out].
      rewrite <- app_assoc. cbn -[decide].
      f_equal. repeat case_decide; try reflexivity; lia.
Qed.

(** X5. After a complete handshake [ClientConnector.main_loop] only
    forwards.  The envelopes the handshake left pending are received in
    arrival order, whatever their sender, and each is appended to the write
    queue as it is; the loop sends nothing, leaves the read queue and the
    coordinator alone, and waits on the transport once nothing is
    pending. *)
Theorem client_main_loop_forwards s (decls : list (message Tensor * Z)) (c : Coord)
    (fuel : nat) :
  let ranks := range 1 (world_size (ClientConnector._network s)) in
  let left := ClientConnector.consume (inbox (ClientConnector._network s)) ranks in
  mapM (ClientConnector.declaration (inbox (ClientConnector._network s))) ranks = Some decls ->
  Coordinator_new (zip ranks decls.*2) = inr c ->
  let r := ClientConnector.main_loop fuel s in
  evs r = Relay.handshake_log ranks decls
            ++ EvThread deal_queue_target :: (EvRecv None <$> take fuel left) /\
  ClientConnector.mq_write (st r) = ClientConnector.mq_write s ++ take fuel left /\
  inbox (ClientConnector._network (st r)) = drop fuel left /\
  ClientConnector.mq_read (st r) = ClientConnector.mq_read s /\
  ClientConnector.coordinator (st r) = Some c /\
  out r = (if decide (fuel <= length left)%nat then OutOfFuel else Blocked).
Proof.
  intros ranks left Hm Hc r. subst r. unfold ClientConnector.main_loop.
  pose proof (setup_loop_then s decls Hm) as Hs. cbv zeta in Hs. fold ranks in Hs.
  rewrite Hc in Hs. fold left in Hs.
  rewrite (bind_Done _ _ _ tt) by now rewrite Hs.
  rewrite (bind_Done _ _ _ tt) by reflexivity.
  rewrite Hs. cbn [emit st evs out].
  destruct s as [[ws pending] h rq wq co].
  unfold ClientConnector.set_handler, ClientConnector.set_coordinator,
    ClientConnector.set_network.
  cbn [ClientConnector._network ClientConnector._handler ClientConnector.mq_read
       ClientConnector.mq_write ClientConnector.coordinator world_size inbox].
  rewrite client_forever_run. cbn [st evs out ClientConnector._network
       ClientConnector.mq_read ClientConnector.mq_write ClientConnector.coordinator inbox].
  now repeat split.
Qed.

End ClientMainLoopFacts.

(** The connector of the end-to-end scenario with two more envelopes behind
    the declarations: after the handshake both are moved to the write
    queue. *)
Lemma client_main_loop_forwards_witness :
  let s := ClientConnector.set_network
             {| world_size := 4;
                inbox := [Scenario.declare 2 11; (3, ParameterUpdate, [[5]]);
                          Scenario.declare 3 12; Scenario.declare 1 10;
                          (1, ParameterUpdate, [[6]])] |}
             Scenario.handshake_connector in
  let decls := [(Scenario.declare 1 10, 10); (Scenario.declare 2 11, 11);
                ((3, ParameterUpdate, [[5]]), 5)] in
  mapM (ClientConnector.declaration (inbox (ClientConnector._network s))) (range 1 4)
  = Some decls /\
  Coordinator_new (zip (range 1 4) decls.*2)
  = inr {| Coordinator.rank_ids := [(1, [10]); (2, [11]); (3, [5])] |} /\
  ClientConnector.mq_write (st (ClientConnector.main_loop 9 s))
  = [Scenario.declare 3 12; (1, ParameterUpdate, [[6]])] /\
  out (ClientConnector.main_loop 9 s) = Blocked.
Proof.
  intros s decls.
  assert (Hm : mapM (ClientConnector.declaration (inbox (ClientConnector._network s)))
                 (range 1 (world_size (ClientConnector._network s))) = Some decls)
    by (vm_compute; reflexivity).
  assert (Hc : Coordinator_new (zip (range 1 (world_size (ClientConnector._network s)))
                                  decls.*2)
               = inr {| Coordinator.rank_ids := [(1, [10]); (2, [11]); (3, [5])] |})
    by (vm_compute; reflexivity).
  destruct (client_main_loop_forwards s decls _ 9 Hm Hc) as (_ & Hw & _ & _ & _ & Ho).
  split; [exact Hm|]. split; [exact Hc|]. split; [exact Hw | exact Ho].
Defined.

(** ** Client managers: rounds, strays and malformed envelopes *)

Section PendingFacts.
Context {Tensor : Type}.
Implicit Types (l rest : list (message Tensor)) (m : message Tensor).

Lemma take_from_Some_filter (src : Z) l m rest :
  take_from src l = Some (m, rest) ->
  sender_of m = src /\
  Rounds.from src l = m :: Rounds.from src rest /\
  Rounds.not_from src rest = Rounds.not_from src l.
Proof.
  unfold Rounds.from, Rounds.not_from. revert m rest.
  induction l as [|x l IH]; intros m rest Ht; [discriminate|].
  cbn [take_from] in Ht. destruct (decide (sender_of x = src)) as [Hx|Hx].
  - injection Ht as <- <-. split; [exact Hx|]. split.
    + now rewrite filter_cons_True.
    + rewrite (filter_cons_False _ x) by tauto. reflexivity.
  - destruct (take_from src l) as [[m0 r0]|]; [|discriminate].
    injection Ht as <- <-. destruct (IH m0 r0 eq_refl) as (Hm & Hf & Hn).
    split; [exact Hm|]. split.
    + rewrite !filter_cons_False by exact Hx. exact Hf.
    + rewrite !filter_cons_True by exact Hx. now rewrite Hn.
Qed.

Lemma take_from_None_filter (src : Z) l :
  take_from src l = None -> Rounds.from src l = [] /\ Rounds.not_from src l = l.
Proof.
  unfold Rounds.from, Rounds.not_from.
  induction l as [|x l IH]; intros Ht; [now split|].
  cbn [take_from] in Ht. destruct (decide (sender_of x = src)) as [Hx|Hx]; [discriminate|].
  destruct (take_from src l) as [[m0 r0]|]; [discriminate|].
  destruct (IH eq_refl) as [Hf Hn]. split.
  - now rewrite filter_cons_False.
  - rewrite filter_cons_True by exact Hx. now rewrite Hn.
Qed.

Lemma from_nil_take (src : Z) l :
  Rounds.from src l = [] -> take_from src l = None /\ Rounds.not_from src l = l.
Proof.
  intros Hf. destruct (take_from src l) as [[m rest]|] eqn:Ht.
  - destruct (take_from_Some_filter src l m rest Ht) as (_ & Hc & _). congruence.
  - split; [reflexivity|]. now apply take_from_None_filter.
Qed.

Lemma from_cons_take (src : Z) l m (ms : list (message Tensor)) :
  Rounds.from src l = m :: ms ->
  exists rest, take_from src l = Some (m, rest) /\ Rounds.from src rest = ms /\
               Rounds.not_from src rest = Rounds.not_from src l.
Proof.
  intros Hf. destruct (take_from src l) as [[m' rest]|] eqn:Ht.
  - destruct (take_from_Some_filter src l m' rest Ht) as (_ & Hc & Hn).
    rewrite Hc in Hf. injection Hf as -> <-. now exists rest.
  - destruct (take_from_None_filter src l Ht) as [Hc _]. congruence.
Qed.

(** A property of the state that every turn keeps is kept by the loop. *)
Lemma forever_st {S} (P : S -> Prop) (body : M S (event Tensor) unit) :
  (forall s, P s -> P (st (body s))) ->
  forall (fuel : nat) s, P s -> P (st (forever fuel body s)).
Proof.
  intros Hbody. induction fuel as [|fuel IH]; intros s Hs; [exact Hs|].
  cbn [forever]. unfold bind. specialize (Hbody s Hs).
  destruct (out (body s)); cbn [st]; try exact Hbody. now apply IH.
Qed.

End PendingFacts.

Section PassiveRounds.
Context {Tensor H Model : Type} `{!ClientBackendHandler Tensor H Model}.
Implicit Types (s : ClientPassiveManager.t Tensor H) (m : message Tensor).

Lemma passive_forever_rounds (ms : list (message Tensor)) : forall s (fuel : nat),
  Rounds.from 0 (inbox (ClientPassiveManager._network s)) = ms ->
  Forall Rounds.passive_servable ms ->
  (length ms < fuel)%nat ->
  forever fuel ClientPassiveManager.run_body s
  = Result (ClientPassiveManager.set_handler
              (Rounds.passive_rounds (ClientPassiveManager._handler s) ms).2
              (ClientPassiveManager.after_recv
                 (Rounds.not_from 0 (inbox (ClientPassiveManager._network s))) s))
           (Rounds.passive_rounds (ClientPassiveManager._handler s) ms).1
           Blocked.
Proof.
  induction ms as [|m ms IH]; intros s [|fuel] Hfrom Hall Hlt; cbn in Hlt; try lia.
  - destruct (from_nil_take 0 _ Hfrom) as [Ht Hn]. cbn [forever].
    rewrite bind_Blocked by now rewrite (passive_run_body_blocked s Ht).
    rewrite (passive_run_body_blocked s Ht), Hn. cbn.
    destruct s as [[ws pending] h]. reflexivity.
  - destruct (from_cons_take 0 _ m ms Hfrom) as (rest & Ht & Hrest & Hn).
    apply Forall_cons in Hall as [[Hcode Hlen] Hall].
    destruct (payload_of m) as [|p ps] eqn:Hp; [cbn in Hlen; lia|].
    pose proof (passive_run_body_train s m rest p ps Ht Hcode Hp) as Hb.
    cbn [forever]. rewrite (bind_Done _ _ _ tt) by now rewrite Hb.
    rewrite Hb. cbn [st evs out].
    rewrite (IH _ fuel); [| exact Hrest | exact Hall | lia].
    cbn [Rounds.passive_rounds]. rewrite Hp. cbn [fst snd].
    destruct s as [[ws pending] h].
    unfold ClientPassiveManager.after_recv, ClientPassiveManager.set_handler,
      ClientPassiveManager.set_network in *.
    cbn [ClientPassiveManager._network ClientPassiveManager._handler inbox world_size] in *.
    now rewrite Hn.
Qed.

(** X6. A passive client serves the envelopes of rank 0 in arrival order,
    one round each.  When none of them is an [Exit] and each has a payload,
    [run] logs for each, in order, the receive, the training on its first
    buffer and one [ParameterUpdate] to rank 0 with the model that training
    left; each round trains the handler the round before left.  The client
    then waits for the server.  Envelopes of other ranks are never
    received: they stay pending in their order. *)
Theorem passive_serves_rounds (s : ClientPassiveManager.t Tensor H) (fuel : nat) :
  let pending := inbox (ClientPassiveManager._network s) in
  let ms := Rounds.from 0 pending in
  let rounds := Rounds.passive_rounds (ClientPassiveManager._handler s) ms in
  Forall Rounds.passive_servable ms ->
  (length ms < fuel)%nat ->
  let r := ClientPassiveManager.run fuel s in
  evs r = EvInit :: rounds.1 /\
  ClientPassiveManager._handler (st r) = rounds.2 /\
  inbox (ClientPassiveManager._network (st r)) = Rounds.not_from 0 pending /\
  out r = Blocked /\
  length (filter (fun e => is_send_to 0 e) (evs r)) = length ms.
Proof.
  intros pending ms rounds Hall Hlt r. subst r. unfold ClientPassiveManager.run.
  rewrite (bind_Done _ _ _ tt) by reflexivity. cbn [emit st evs out].
  rewrite (passive_forever_rounds ms s fuel eq_refl Hall Hlt). cbn [st evs out app].
  fold pending. fold rounds. destruct s as [[ws pend] h].
  split; [reflexivity|]. split; [reflexivity|]. split; [reflexivity|].
  split; [reflexivity|].
  subst rounds. cbn [ClientPassiveManager._handler].
  clear Hlt. generalize h. induction Hall as [|m ms' [Hcode Hlen] Hall IH]; intros h0.
  - reflexivity.
  - cbn [Rounds.passive_rounds]. destruct (payload_of m) as [|p ps]; [cbn in Hlen; lia|].
    cbn [fst snd length]. rewrite <- (IH (train Omitted p h0)).
    reflexivity.
Qed.

(** X7. An envelope of rank 0 that is not an [Exit] and has no payload
    ends the passive client with [IndexError] right after the receive: no
    training is done, nothing is sent and the handler is as it was. *)
Theorem passive_crashes_on_empty_payload (s : ClientPassiveManager.t Tensor H)
    (m : message Tensor) (rest : list (message Tensor)) (fuel : nat) :
  take_from 0 (inbox (ClientPassiveManager._network s)) = Some (m, rest) ->
  code_of m <> Exit ->
  payload_of m = [] ->
  ClientPassiveManager.run (Datatypes.S fuel) s
  = Result (ClientPassiveManager.after_recv rest s)
           [EvInit; EvRecv (Some 0) m] (Raise IndexError).
Proof.
  intros Ht Hm Hp. unfold ClientPassiveManager.run.
  rewrite (bind_Done _ _ _ tt) by reflexivity. cbn [emit st evs out forever].
  rewrite (bind_Raise _ _ _ IndexError) by now rewrite (passive_run_body_empty s m rest Ht Hm Hp).
  now rewrite (passive_run_body_empty s m rest Ht Hm Hp).
Qed.

End PassiveRounds.

Section ActiveRounds.
Context {Tensor H Model : Type} `{!ClientBackendHandler Tensor H Model}.
Implicit Types (s : ClientActiveManager.t Tensor H) (m : message Tensor).

Lemma active_forever_rounds (ms : list (message Tensor)) : forall s (fuel : nat),
  Rounds.from 0 (inbox (ClientActiveManager._network s)) = ms ->
  Forall Rounds.active_servable ms ->
  (length ms < fuel)%nat ->
  let rounds := Rounds.active_rounds (ClientActiveManager.epochs s)
                  (ClientActiveManager._handler s) (ClientActiveManager.model_gen_time s) ms in
  forever fuel ClientActiveManager.run_body s
  = Result (ClientActiveManager.set_handler rounds.1.2
              (ClientActiveManager.set_model_gen_time rounds.2
                 (ClientActiveManager.after_recv
                    (Rounds.not_from 0 (inbox (ClientActiveManager._network s))) s)))
           rounds.1.1 Blocked.
Proof.
  induction ms as [|m ms IH]; intros s [|fuel] Hfrom Hall Hlt; cbn in Hlt; try lia; cbv zeta.
  - destruct (from_nil_take 0 _ Hfrom) as [Ht Hn]. cbn [forever].
    rewrite bind_Blocked by now rewrite (active_run_body_blocked s Ht).
    rewrite (active_run_body_blocked s Ht), Hn. cbn.
    destruct s as [[ws pending] h ep g]. reflexivity.
  - destruct (from_cons_take 0 _ m ms Hfrom) as (rest & Ht & Hrest & Hn).
    apply Forall_cons in Hall as [[Hcode Hlen] Hall].
    destruct (payload_of m) as [|p [|t ps]] eqn:Hp; cbn in Hlen; try lia.
    pose proof (active_run_body_train s m rest p t ps Ht Hcode Hp) as Hb.
    cbn [forever]. rewrite (bind_Done _ _ _ tt) by now rewrite Hb.
    rewrite Hb. cbn [st evs out].
    cbv zeta in IH. rewrite (IH _ fuel); [| exact Hrest | exact Hall | lia].
    cbn [Rounds.active_rounds]. rewrite Hp. cbn [fst snd].
    destruct s as [[ws pending] h ep g].
    unfold ClientActiveManager.after_recv, ClientActiveManager.set_handler,
      ClientActiveManager.set_model_gen_time, ClientActiveManager.set_network in *.
    cbn [ClientActiveManager._network ClientActiveManager._handler ClientActiveManager.epochs
         ClientActiveManager.model_gen_time inbox world_size] in *.
    now rewrite Hn.
Qed.

(** X8. An active client serves the answers of rank 0 in arrival order,
    one round each.  When none of them is an [Exit] and each has at least
    two buffers, [run] logs for each, in order, a [ParameterRequest], the
    receive, the training on the first buffer with the client's [epochs],
    and one [ParameterUpdate] that holds the trained model and the second
    buffer of that very answer: the generation time of an earlier round is
    never sent again.  After the last answer the client has made one more
    request and waits.  Envelopes of other ranks stay pending. *)
Theorem active_serves_rounds (s : ClientActiveManager.t Tensor H) (fuel : nat) :
  let pending := inbox (ClientActiveManager._network s) in
  let ms := Rounds.from 0 pending in
  let rounds := Rounds.active_rounds (ClientActiveManager.epochs s)
                  (ClientActiveManager._handler s) (ClientActiveManager.model_gen_time s) ms in
  Forall Rounds.active_servable ms ->
  (length ms < fuel)%nat ->
  let r := ClientActiveManager.run fuel s in
  evs r = EvInit :: rounds.1.1 /\
  ClientActiveManager._handler (st r) = rounds.1.2 /\
  ClientActiveManager.model_gen_time (st r) = rounds.2 /\
  ClientActiveManager.epochs (st r) = ClientActiveManager.epochs s /\
  inbox (ClientActiveManager._network (st r)) = Rounds.not_from 0 pending /\
  out r = Blocked.
Proof.
  intros pending ms rounds Hall Hlt r. subst r. unfold ClientActiveManager.run.
  rewrite (bind_Done _ _ _ tt) by reflexivity. cbn [emit st evs out].
  pose proof (active_forever_rounds ms s fuel eq_refl Hall Hlt) as Hr. cbv zeta in Hr.
  rewrite Hr. cbn [st evs out app].
  destruct s as [[ws pend] h ep g]. now repeat split.
Qed.

(** X9. An answer of rank 0 that is not an [Exit] and has fewer than two
    buffers ends the active client with [IndexError] right after the
    receive.  Even when the parameters are there and only the generation
    time is missing, no training is done, no [ParameterUpdate] is sent, and
    the handler and the stored generation time are as they were. *)
Theorem active_crashes_on_short_payload (s : ClientActiveManager.t Tensor H)
    (m : message Tensor) (rest : list (message Tensor)) (fuel : nat) :
  take_from 0 (inbox (ClientActiveManager._network s)) = Some (m, rest) ->
  code_of m <> Exit ->
  (length (payload_of m) < 2)%nat ->
  ClientActiveManager.run (Datatypes.S fuel) s
  = Result (ClientActiveManager.after_recv rest s)
           [EvInit; EvSend 0 ParameterRequest []; EvRecv (Some 0) m] (Raise IndexError).
Proof.
  intros Ht Hm Hp. unfold ClientActiveManager.run.
  rewrite (bind_Done _ _ _ tt) by reflexivity. cbn [emit st evs out forever].
  rewrite (bind_Raise _ _ _ IndexError) by now rewrite (active_run_body_short s m rest Ht Hm Hp).
  now rewrite (active_run_body_short s m rest Ht Hm Hp).
Qed.

Lemma requests_before_receives_app (l l' : list (event Tensor)) :
  Rounds.requests_before_receives l -> Rounds.requests_before_receives l' ->
  Rounds.requests_before_receives (l ++ l').
Proof.
  intros Hl Hl' i e Hi. apply lookup_app_Some in Hi as [Hi|[Hge Hi]].
  - specialize (Hl i e Hi). destruct e as [|src m|dst code payload| |]; try exact I.
    + destruct Hl as (Hsrc & j & -> & Hj). split; [exact Hsrc|].
      exists j. split; [reflexivity|]. now apply lookup_app_l_Some.
    + destruct Hl as (Hdst & [Hreq|(Hcode & t & g & j & ep & p & Hpay & -> & Hj)]).
      * split; [exact Hdst|]. now left.
      * split; [exact Hdst|]. right. split; [exact Hcode|].
        exists t, g, j, ep, p. split; [exact Hpay|]. split; [reflexivity|].
        now apply lookup_app_l_Some.
  - specialize (Hl' _ e Hi). destruct e as [|src m|dst code payload| |]; try exact I.
    + destruct Hl' as (Hsrc & j & Hij & Hj). split; [exact Hsrc|].
      exists (length l + j)%nat. split; [lia|].
      rewrite lookup_app_r by lia. now replace (length l + j - length l)%nat with j by lia.
    + destruct Hl' as (Hdst & [Hreq|(Hcode & t & g & j & ep & p & Hpay & Hij & Hj)]).
      * split; [exact Hdst|]. now left.
      * split; [exact Hdst|]. right. split; [exact Hcode|].
        exists t, g, (length l + j)%nat, ep, p. split; [exact Hpay|]. split; [lia|].
        rewrite lookup_app_r by lia. now replace (length l + j - length l)%nat with j by lia.
Qed.

Lemma active_body_requests_before_receives s :
  Rounds.requests_before_receives (evs (ClientActiveManager.run_body s)).
Proof.
  assert (Hreq : forall (l : list (event Tensor)) (i : nat) (e : event Tensor),
             (EvSend 0 ParameterRequest [] :: l) !! i = Some e ->
             (i = 0%nat /\ e = EvSend 0 ParameterRequest []) \/
             exists j, i = Datatypes.S j /\ l !! j = Some e).
  { intros l [|j] e Hi; cbn in Hi; [left; split; congruence | right; now exists j]. }
  destruct (take_from 0 (inbox (ClientActiveManager._network s))) as [[m rest]|] eqn:Ht.
  - destruct (decide (code_of m = Exit)) as [Hm|Hm];
      [rewrite (active_run_body_exit s m rest Ht Hm)|
       destruct (decide (length (payload_of m) < 2)%nat) as [Hp|Hp];
       [rewrite (active_run_body_short s m rest Ht Hm Hp)|]].
    1,2: intros i e Hi; cbn [evs] in Hi;
         destruct i as [|[|i]]; cbn in Hi; try discriminate;
         injection Hi as <-; [split; [reflexivity|]; now left
                             | split; [reflexivity|]; exists 0%nat; now split].
    destruct (payload_of m) as [|p [|g ps]] eqn:Hpay; cbn in Hp; try lia.
    rewrite (active_run_body_train s m rest p g ps Ht Hm Hpay).
    intros i e Hi; cbn [evs] in Hi.
    destruct i as [|[|[|[|i]]]]; cbn in Hi; try discriminate; injection Hi as <-.
    + split; [reflexivity|]. now left.
    + split; [reflexivity|]. exists 0%nat. now split.
    + exact I.
    + split; [reflexivity|]. right. split; [reflexivity|].
      eexists _, g, 2%nat, _, p. now repeat split.
  - rewrite (active_run_body_blocked s Ht). intros i e Hi; cbn [evs] in Hi.
    destruct i as [|i]; cbn in Hi; try discriminate. injection Hi as <-.
    split; [reflexivity|]. now left.
Qed.

(** X10. In every run of an active client, however it ends, each receive
    asks rank 0 and comes right after a [ParameterRequest] with no payload
    sent to rank 0, and every other send is a [ParameterUpdate] of exactly
    two buffers to rank 0 that comes right after a training step.  The
    client never receives without having asked and never sends to another
    rank. *)
Theorem active_requests_before_receives (fuel : nat) (s : ClientActiveManager.t Tensor H)
    (i : nat) (e : event Tensor) :
  evs (ClientActiveManager.run fuel s) !! i = Some e ->
  match e with
  | EvRecv src m =>
      src = Some 0 /\
      exists j : nat,
        i = Datatypes.S j /\
        evs (ClientActiveManager.run fuel s) !! j = Some (EvSend 0 ParameterRequest [])
  | EvSend dst code payload =>
      dst = 0 /\
      ((code = ParameterRequest /\ payload = []) \/
       (code = ParameterUpdate /\
        exists (t g : Tensor) (j : nat) (ep : kwarg (option Z)) (p : Tensor),
          payload = [t; g] /\ i = Datatypes.S j /\
          evs (ClientActiveManager.run fuel s) !! j = Some (EvTrain ep p)))
  | _ => True
  end.
Proof.
  revert i e. change (Rounds.requests_before_receives (evs (ClientActiveManager.run fuel s))).
  unfold ClientActiveManager.run.
  rewrite (bind_Done _ _ _ tt) by reflexivity. cbn [evs emit st].
  apply requests_before_receives_app.
  - intros [|i] e Hi; cbn in Hi; [|discriminate]. now injection Hi as <-.
  - apply forever_evs.
    + intros i e Hi. discriminate.
    + apply requests_before_receives_app.
    + apply active_body_requests_before_receives.
Qed.

End ActiveRounds.

Section OnlyFromServer.
Context {Tensor H Model : Type} `{!ClientBackendHandler Tensor H Model}.

Lemma passive_body_keeps_strays (s : ClientPassiveManager.t Tensor H) :
  let s' := st (ClientPassiveManager.run_body s) in
  Rounds.not_from 0 (inbox (ClientPassiveManager._network s'))
  = Rounds.not_from 0 (inbox (ClientPassiveManager._network s)) /\
  world_size (ClientPassiveManager._network s') = world_size (ClientPassiveManager._network s).
Proof.
  cbv zeta.
  destruct (take_from 0 (inbox (ClientPassiveManager._network s))) as [[m rest]|] eqn:Ht.
  - destruct (take_from_Some_filter 0 _ m rest Ht) as (_ & _ & Hn).
    destruct (decide (code_of m = Exit)) as [Hm|Hm].
    + rewrite (passive_run_body_exit s m rest Ht Hm). now split.
    + destruct (payload_of m) as [|p ps] eqn:Hp.
      * rewrite (passive_run_body_empty s m rest Ht Hm Hp). now split.
      * rewrite (passive_run_body_train s m rest p ps Ht Hm Hp). now split.
  - rewrite (passive_run_body_blocked s Ht). now split.
Qed.

Lemma active_body_keeps_strays (s : ClientActiveManager.t Tensor H) :
  let s' := st (ClientActiveManager.run_body s) in
  Rounds.not_from 0 (inbox (ClientActiveManager._network s'))
  = Rounds.not_from 0 (inbox (ClientActiveManager._network s)) /\
  world_size (ClientActiveManager._network s') = world_size (ClientActiveManager._network s).
Proof.
  cbv zeta.
  destruct (take_from 0 (inbox (ClientActiveManager._network s))) as [[m rest]|] eqn:Ht.
  - destruct (take_from_Some_filter 0 _ m rest Ht) as (_ & _ & Hn).
    destruct (decide (code_of m = Exit)) as [Hm|Hm].
    + rewrite (active_run_body_exit s m rest Ht Hm). now split.
    + destruct (decide (length (payload_of m) < 2)%nat) as [Hp|Hp].
      * rewrite (active_run_body_short s m rest Ht Hm Hp). now split.
      * destruct (payload_of m) as [|p [|g ps]] eqn:Hpay; cbn in Hp; try lia.
        rewrite (active_run_body_train s m rest p g ps Ht Hm Hpay). now split.
  - rewrite (active_run_body_blocked s Ht). now split.
Qed.

(** X11. Neither client ever takes an envelope that does not come from
    rank 0.  However a run of [ClientPassiveManager] or of
    [ClientActiveManager] goes and ends, the envelopes of other ranks that
    were pending are still pending afterwards, all of them and in their
    order. *)
Theorem clients_leave_strays_pending :
  (forall (fuel : nat) (s : ClientPassiveManager.t Tensor H),
     Rounds.not_from 0 (inbox (ClientPassiveManager._network
                                 (st (ClientPassiveManager.run fuel s))))
     = Rounds.not_from 0 (inbox (ClientPassiveManager._network s))) /\
  (forall (fuel : nat) (s : ClientActiveManager.t Tensor H),
     Rounds.not_from 0 (inbox (ClientActiveManager._network
                                 (st (ClientActiveManager.run fuel s))))
     = Rounds.not_from 0 (inbox (ClientActiveManager._network s))).
Proof.
  split; intros fuel s.
  - unfold ClientPassiveManager.run. rewrite (bind_Done _ _ _ tt) by reflexivity.
    cbn [emit st evs out].
    apply (forever_st
             (fun s' => Rounds.not_from 0 (inbox (ClientPassiveManager._network s'))
                        = Rounds.not_from 0 (inbox (ClientPassiveManager._network s))));
      [|reflexivity].
    intros s' Hs'. rewrite <- Hs'. apply passive_body_keeps_strays.
  - unfold ClientActiveManager.run. rewrite (bind_Done _ _ _ tt) by reflexivity.
    cbn [emit st evs out].
    apply (forever_st
             (fun s' => Rounds.not_from 0 (inbox (ClientActiveManager._network s'))
                        = Rounds.not_from 0 (inbox (ClientActiveManager._network s))));
      [|reflexivity].
    intros s' Hs'. rewrite <- Hs'. apply active_body_keeps_strays.
Qed.

End OnlyFromServer.

(** The passive client with a stray envelope of rank 3 between two
    broadcasts: two rounds, the second on the model the first left, and the
    stray envelope still pending. *)
Lemma passive_serves_rounds_witness :
  let s := Scenario3.busy_passive_client in
  let ms := Rounds.from 0 (inbox (ClientPassiveManager._network s)) in
  Forall Rounds.passive_servable ms /\
  (length ms < 5)%nat /\
  evs (ClientPassiveManager.run 5 s)
  = [EvInit;
     EvRecv (Some 0) (Scenario.broadcast [1; 2]); EvTrain Omitted [1; 2];
     EvSend 0 ParameterUpdate [[2; 3]];
     EvRecv (Some 0) (Scenario.broadcast [5; 6]); EvTrain Omitted [5; 6];
     EvSend 0 ParameterUpdate [[6; 7]]] /\
  inbox (ClientPassiveManager._network (st (ClientPassiveManager.run 5 s)))
  = [Scenario3.stray].
Proof.
  intros s ms.
  assert (Hms : ms = [Scenario.broadcast [1; 2]; Scenario.broadcast [5; 6]])
    by (vm_compute; reflexivity).
  assert (Hall : Forall Rounds.passive_servable ms).
  { rewrite Hms. repeat (constructor; [split; [discriminate | vm_compute; lia]|]).
    constructor. }
  assert (Hlt : (length ms < 5)%nat) by (rewrite Hms; vm_compute; lia).
  destruct (passive_serves_rounds s 5 Hall Hlt) as (Hev & _ & Hin & _).
  split; [exact Hall|]. split; [exact Hlt|]. split; [exact Hev | exact Hin].
Defined.

Lemma passive_crashes_on_empty_payload_witness :
  let s := Scenario3.hollow_passive_client in
  take_from 0 (inbox (ClientPassiveManager._network s)) = Some (Scenario3.hollow, []) /\
  code_of Scenario3.hollow <> Exit /\
  payload_of Scenario3.hollow = [] /\
  out (ClientPassiveManager.run 3 s) = Raise IndexError /\
  ClientPassiveManager._handler (st (ClientPassiveManager.run 3 s)) = [0; 0].
Proof.
  intros s.
  assert (Hm : code_of Scenario3.hollow <> Exit) by discriminate.
  pose proof (passive_crashes_on_empty_payload s Scenario3.hollow [] 2 eq_refl Hm eq_refl)
    as Hr.
  split; [reflexivity|]. split; [exact Hm|]. split; [reflexivity|].
  split; [exact (f_equal out Hr)|].
  exact (f_equal (fun r => ClientPassiveManager._handler (st r)) Hr).
Defined.

(** The active client with a stray envelope between two answers: the
    second update carries the generation time 8 of the second answer. *)
Lemma active_serves_rounds_witness :
  let s := Scenario3.busy_active_client in
  let ms := Rounds.from 0 (inbox (ClientActiveManager._network s)) in
  Forall Rounds.active_servable ms /\
  (length ms < 5)%nat /\
  evs (ClientActiveManager.run 5 s)
  = [EvInit;
     EvSend 0 ParameterRequest []; EvRecv (Some 0) (Scenario.answer [1; 2] 7);
     EvTrain (Given (Some 3)) [1; 2]; EvSend 0 ParameterUpdate [[2; 3]; [7]];
     EvSend 0 ParameterRequest []; EvRecv (Some 0) (Scenario.answer [5; 6] 8);
     EvTrain (Given (Some 3)) [5; 6]; EvSend 0 ParameterUpdate [[6; 7]; [8]];
     EvSend 0 ParameterRequest []] /\
  ClientActiveManager.model_gen_time (st (ClientActiveManager.run 5 s)) = Some [8].
Proof.
  intros s ms.
  assert (Hms : ms = [Scenario.answer [1; 2] 7; Scenario.answer [5; 6] 8])
    by (vm_compute; reflexivity).
  assert (Hall : Forall Rounds.active_servable ms).
  { rewrite Hms. repeat (constructor; [split; [discriminate | vm_compute; lia]|]).
    constructor. }
  assert (Hlt : (length ms < 5)%nat) by (rewrite Hms; vm_compute; lia).
  destruct (active_serves_rounds s 5 Hall Hlt) as (Hev & _ & Hg & _).
  split; [exact Hall|]. split; [exact Hlt|]. split; [exact Hev | exact Hg].
Defined.

(** An answer with parameters but without generation time: the active
    client ends with [IndexError] and has not trained. *)
Lemma active_crashes_on_short_payload_witness :
  let s := Scenario3.untimed_active_client in
  let m := Scenario.broadcast [1; 2] in
  take_from 0 (inbox (ClientActiveManager._network s)) = Some (m, []) /\
  code_of m <> Exit /\
  (length (payload_of m) < 2)%nat /\
  ClientActiveManager.run 3 s
  = Result (ClientActiveManager.after_recv [] s)
           [EvInit; EvSend 0 ParameterRequest []; EvRecv (Some 0) m] (Raise IndexError).
Proof.
  intros s m.
  assert (Hm : code_of m <> Exit) by discriminate.
  assert (Hlen : (length (payload_of m) < 2)%nat) by (cbn; lia).
  split; [reflexivity|]. split; [exact Hm|]. split; [exact Hlen|].
  exact (active_crashes_on_short_payload s m [] 2 eq_refl Hm Hlen).
Defined.

(** The receive of the first answer stands at index 2 of the log, right
    after the request at index 1. *)
Lemma active_requests_before_receives_witness :
  let s := Scenario3.busy_active_client in
  evs (ClientActiveManager.run 5 s) !! 2%nat
  = Some (EvRecv (Some 0) (Scenario.answer [1; 2] 7)) /\
  exists j : nat,
    2%nat = Datatypes.S j /\
    evs (ClientActiveManager.run 5 s) !! j = Some (EvSend 0 ParameterRequest []).
Proof.
  intros s.
  assert (Hi : evs (ClientActiveManager.run 5 s) !! 2%nat
               = Some (EvRecv (Some 0) (Scenario.answer [1; 2] 7)))
    by (vm_compute; reflexivity).
  split; [exact Hi|].
  exact (proj2 (active_requests_before_receives 5 s 2
                  (EvRecv (Some 0) (Scenario.answer [1; 2] 7)) Hi)).
Defined.

(** ** [evaluate] *)

Section EvaluateFacts.
Context {Batch num : Type} `{!PyNum num} `{!Evaluation Batch num}.

Lemma accumulate_from (cuda : bool) (l : list Batch) : forall a b c : num,
  fold_left (fun acc x =>
               let '(loss_sum, correct, total) := acc in
               (add loss_sum (batch_loss cuda x),
                add correct (batch_correct cuda x),
                add total (batch_len x))) l (a, b, c)
  = (fold_left (fun acc x => add acc (batch_loss cuda x)) l a,
     fold_left (fun acc x => add acc (batch_correct cuda x)) l b,
     fold_left (fun acc x => add acc (batch_len x)) l c).
Proof.
  induction l as [|x l IH]; intros a b c; [reflexivity|].
  cbn [fold_left]. apply IH.
Qed.

(** X12. [evaluate] puts the model in evaluation mode and adds up, over the
    batches of the loader in order and each on its own, the losses, the
    numbers of correct predictions and the numbers of labels.  When the
    number of labels is zero the division raises [ZeroDivisionError]:
    nothing is printed and nothing returned, and the model stays in
    evaluation mode.  Otherwise it prints and returns the sum of the losses
    and the quotient of the correct predictions by the labels. *)
Theorem evaluate_result (cuda : bool) (test_loader : list Batch) (training : bool) :
  let loss_sum := Functional.total_of (batch_loss cuda) test_loader in
  let correct := Functional.total_of (batch_correct cuda) test_loader in
  let total := Functional.total_of batch_len test_loader in
  Functional.evaluate cuda test_loader training
  = if is_zero total
    then Result false [] (Raise ZeroDivisionError)
    else Result false [Functional.Evaluate loss_sum (div correct total)]
                (Done (loss_sum, div correct total)).
Proof.
  cbv zeta. unfold Functional.evaluate, Functional.accumulate.
  rewrite accumulate_from. fold (Functional.total_of (batch_loss cuda) test_loader).
  fold (Functional.total_of (batch_correct cuda) test_loader).
  fold (Functional.total_of batch_len test_loader).
  rewrite (bind_Done _ _ _ tt) by reflexivity. cbn [modify st evs out app].
  unfold AverageMeter.truediv.
  destruct (is_zero (Functional.total_of batch_len test_loader)); reflexivity.
Qed.

(** X13. On a loader without batches [evaluate] raises
    [ZeroDivisionError], for the accuracy is [0.0 / 0.0]; the model has been
    put in evaluation mode all the same. *)
Theorem evaluate_empty_loader (cuda training : bool) :
  is_zero (zero : num) = true ->
  Functional.evaluate (Batch := Batch) cuda [] training
  = Result false [] (Raise ZeroDivisionError).
Proof.
  intros Hz. rewrite evaluate_result. cbn. now rewrite Hz.
Qed.

End EvaluateFacts.

Lemma evaluate_empty_loader_witness :
  is_zero (0 : Q)%Q = true /\
  Functional.evaluate (Batch := Q * Q * Q) true [] true
  = Result false [] (Raise ZeroDivisionError).
Proof.
  assert (Hz : is_zero (zero : Q) = true) by reflexivity.
  split; [exact Hz|].
  exact (evaluate_empty_loader (Batch := Q * Q * Q) true true Hz).
Defined.

(** ** [AverageMeter]: calls that raise *)

Section MeterFailures.
Context {num : Type} `{!PyNum num}.
Implicit Types (s : AverageMeter.t num) (calls : list (num * kwarg num)).

Lemma meter_after_spec calls : forall s,
  AverageMeter.count (meter_after calls s)
  = fold_left (fun acc c => add acc (AverageMeter.n_of c.2)) calls (AverageMeter.count s) /\
  AverageMeter.sum (meter_after calls s)
  = fold_left (fun acc c => add acc (mul c.1 (AverageMeter.n_of c.2))) calls
      (AverageMeter.sum s) /\
  AverageMeter.val (meter_after calls s) = default (AverageMeter.val s) (fst <$> last calls).
Proof.
  induction calls as [|[v n] calls IH]; intros s; [now repeat split|].
  unfold meter_after in *. cbn [fold_left fst snd].
  destruct (IH (st (AverageMeter.update v n s))) as (Hc & Hs & Hv).
  rewrite Hc, Hs, Hv, last_cons. pose proof (update_spec s v n) as Hu. cbv zeta in Hu.
  rewrite Hu.
  destruct (is_zero (add (AverageMeter.count s) (AverageMeter.n_of n)));
    cbn [st AverageMeter.count AverageMeter.sum AverageMeter.val];
    (split; [reflexivity|]; split; [reflexivity|]);
    now destruct (last calls) as [[v' n']|].
Qed.

Lemma fold_left_snoc {A B} (f : A -> B -> A) (l : list B) (x : B) (a : A) :
  fold_left f (l ++ [x]) a = f (fold_left f l a) x.
Proof. now rewrite fold_left_app. Qed.

(** X14. A call of [update] that raises does not spoil the meter.  After
    [reset] and any calls, returned or not, [count], [sum] and [val] are
    the sum of the [n], the sum of the [val * n] and the last [val] of all
    calls made.  The next call returns exactly when it leaves [count] other
    than zero, and then the meter holds what it is meant to hold, [avg]
    included; when it raises, [avg] is what it was. *)
Theorem meter_survives_failed_updates s calls (v : num) (n : kwarg num) :
  let m := meter_after calls (st (AverageMeter.reset s)) in
  let r := AverageMeter.update v n m in
  AverageMeter.count m = AverageMeter.count_of calls /\
  AverageMeter.sum m = AverageMeter.sum_of calls /\
  AverageMeter.val m = AverageMeter.last_val calls /\
  if is_zero (AverageMeter.count_of (calls ++ [(v, n)]))
  then out r = Raise ZeroDivisionError /\ AverageMeter.avg (st r) = AverageMeter.avg m
  else AverageMeter.meter_holds (calls ++ [(v, n)]) r.
Proof.
  cbv zeta. destruct (meter_after_spec calls (st (AverageMeter.reset s))) as (Hc & Hs & Hv).
  change (AverageMeter.count (meter_after calls (st (AverageMeter.reset s)))
          = AverageMeter.count_of calls) in Hc.
  change (AverageMeter.sum (meter_after calls (st (AverageMeter.reset s)))
          = AverageMeter.sum_of calls) in Hs.
  split; [exact Hc|]. split; [exact Hs|]. split; [exact Hv|].
  assert (Hc' : AverageMeter.count_of (calls ++ [(v, n)])
                = add (AverageMeter.count_of calls) (AverageMeter.n_of n)).
  { unfold AverageMeter.count_of. now rewrite fold_left_snoc. }
  assert (Hs' : AverageMeter.sum_of (calls ++ [(v, n)])
                = add (AverageMeter.sum_of calls) (mul v (AverageMeter.n_of n))).
  { unfold AverageMeter.sum_of. now rewrite fold_left_snoc. }
  assert (Hv' : AverageMeter.last_val (calls ++ [(v, n)]) = v).
  { unfold AverageMeter.last_val. now rewrite last_snoc. }
  unfold AverageMeter.meter_holds. rewrite Hc', Hs', Hv'.
  pose proof (update_spec (meter_after calls (st (AverageMeter.reset s))) v n) as Hu.
  cbv zeta in Hu. rewrite Hc, Hs in Hu. rewrite Hu.
  destruct (is_zero (add (AverageMeter.count_of calls) (AverageMeter.n_of n))) eqn:Hz;
    cbn [st out AverageMeter.count AverageMeter.sum AverageMeter.val AverageMeter.avg].
  - now split.
  - unfold AverageMeter.truediv. rewrite Hz. now repeat split.
Qed.

End MeterFailures.

(** ** The serial client of the hierarchical example *)

(** X15. The serial client of rank [rank] simulates ten clients, the
    identifiers [(rank - 1) * 10] to [(rank - 1) * 10 + 9] in increasing
    order, and every identifier belongs to exactly one rank: [c] is
    simulated by rank [c / 10 + 1] and by no other.  Ranks never share a
    client and no client is left out. *)
Theorem client_id_list_partition (rank : Z) :
  length (SerialClient.client_id_list rank) = 10%nat /\
  (forall (i : nat) (c : Z),
     SerialClient.client_id_list rank !! i = Some c
     <-> c = (rank - 1) * 10 + Z.of_nat i /\ (i < 10)%nat) /\
  (forall c : Z, c ∈ SerialClient.client_id_list rank <-> rank = c / 10 + 1).
Proof.
  unfold SerialClient.client_id_list. split; [|split].
  - unfold range. rewrite length_fmap, length_seq. lia.
  - intros i c. rewrite range_lookup. lia.
  - intros c. rewrite range_elem_of. split.
    + intros Hc. assert (c / 10 = rank - 1); [|lia].
      symmetry. apply (Z.div_unique c 10 (rank - 1) (c - (rank - 1) * 10)); lia.
    + intros ->. pose proof (Z.div_mod c 10 ltac:(lia)) as Hd.
      pose proof (Z.mod_pos_bound c 10 ltac:(lia)) as Hm. lia.
Qed.

Section PartitionFacts.
Context {V : Type}.
Implicit Types (data acc : dict Z V) (l : list Z).

Lemma comprehension_spec data l : forall (k : nat) acc,
  (forall c, c ∈ l -> is_Some (dict_get data c)) ->
  (forall i : nat, (k <= i)%nat -> Z.of_nat i ∉ keys acc) ->
  exists d,
    SerialClient.comprehension data (imap (fun i x => (Z.of_nat (k + i), x)) l) acc = inr d /\
    keys d = keys acc ++ (Z.of_nat <$> seq k (length l)) /\
    (forall (i : nat) (c : Z), l !! i = Some c ->
       dict_get d (Z.of_nat (k + i)) = dict_get data c) /\
    (forall key : Z, key ∈ keys acc -> dict_get d key = dict_get acc key).
Proof.
  induction l as [|c l IH]; intros k acc Hall Hfresh.
  - exists acc. cbn. rewrite app_nil_r. repeat split. intros i c Hi. discriminate.
  - rewrite imap_cons. cbn [SerialClient.comprehension].
    destruct (Hall c ltac:(left)) as [v Hv]. rewrite Hv.
    replace (k + 0)%nat with k by lia.
    assert (Hk : Z.of_nat k ∉ keys acc) by (apply Hfresh; lia).
    destruct (IH (Datatypes.S k) (dict_set acc (Z.of_nat k) v)) as (d & Hd & Hkeys & Hget & Hold).
    + intros c' Hc'. apply Hall. now right.
    + intros i Hi. rewrite dict_set_keys. case_decide; [tauto|].
      intros Hin. apply elem_of_app in Hin as [Hin|Hin].
      * apply (Hfresh i); [lia | exact Hin].
      * apply list_elem_of_singleton in Hin. lia.
    + exists d. split; [|split; [|split]].
      * rewrite <- Hd. f_equal. apply imap_ext. intros i x _. cbn. f_equal. f_equal. lia.
      * rewrite Hkeys, dict_set_keys. case_decide; [tauto|].
        cbn [length seq fmap list_fmap]. now rewrite <- app_assoc.
      * intros [|i] c' Hi; cbn in Hi.
        -- injection Hi as <-. replace (k + 0)%nat with k by lia.
           rewrite Hold.
           ++ rewrite dict_get_set, decide_True by reflexivity. now rewrite Hv.
           ++ rewrite dict_set_keys. case_decide; [tauto|].
              apply elem_of_app. right. now left.
        -- replace (k + Datatypes.S i)%nat with (Datatypes.S k + i)%nat by lia.
           now apply Hget.
      * intros key Hkey. rewrite Hold.
        -- rewrite dict_get_set. case_decide as Heq; [|reflexivity].
           subst key. tauto.
        -- rewrite dict_set_keys. case_decide; [exact Hkey|].
           apply elem_of_app. now left.
Qed.

Lemma comprehension_stops data (present later : list Z) (c : Z) : forall (k : nat) acc,
  (forall c', c' ∈ present -> is_Some (dict_get data c')) ->
  dict_get data c = None ->
  SerialClient.comprehension data
    (imap (fun i x => (Z.of_nat (k + i), x)) (present ++ c :: later)) acc
  = inl (SerialClient.KeyError c).
Proof.
  induction present as [|p present IH]; intros k acc Hall Hc.
  - cbn [app]. rewrite imap_cons. cbn [SerialClient.comprehension]. now rewrite Hc.
  - rewrite <- app_comm_cons, imap_cons. cbn [SerialClient.comprehension].
    destruct (Hall p ltac:(left)) as [v Hv]. rewrite Hv.
    rewrite <- (IH (Datatypes.S k) (dict_set acc (Z.of_nat (k + 0)) v)).
    + f_equal. apply imap_ext. intros i x _. cbn. f_equal. f_equal. lia.
    + intros c' Hc'. apply Hall. now right.
    + exact Hc.
Qed.

(** X16. The data slices of a serial client.  When the partition holds
    every client of the rank, [sub_data_indices] has exactly the keys 0 to
    9, in this order, and the slice at index [idx] is the partition's
    entry of the client [(rank - 1) * 10 + idx]. *)
Theorem sub_data_indices_complete data (rank : Z) :
  (forall c, c ∈ SerialClient.client_id_list rank -> is_Some (dict_get data c)) ->
  exists d,
    SerialClient.sub_data_indices data rank = inr d /\
    keys d = range 0 10 /\
    forall idx : Z, 0 <= idx < 10 ->
      dict_get d idx = dict_get data ((rank - 1) * 10 + idx).
Proof.
  intros Hall. unfold SerialClient.sub_data_indices, SerialClient.enumerate.
  destruct (comprehension_spec data (SerialClient.client_id_list rank) 0 [] Hall)
    as (d & Hd & Hkeys & Hget & _).
  { intros i _ Hin. inversion Hin. }
  exists d. split; [exact Hd|]. split.
  - rewrite Hkeys. destruct (client_id_list_partition rank) as (Hlen & _). rewrite Hlen.
    reflexivity.
  - intros idx Hidx. replace idx with (Z.of_nat (0 + Z.to_nat idx)) at 1 by lia.
    apply Hget. apply (proj1 (proj2 (client_id_list_partition rank))). lia.
Qed.

(** X17. When the partition lacks a client of the rank,
    [sub_data_indices] raises [KeyError] with the first such client, in the
    order of the identifiers, and no slice is returned. *)
Theorem sub_data_indices_missing data (rank : Z) (present later : list Z) (c : Z) :
  SerialClient.client_id_list rank = present ++ c :: later ->
  (forall c', c' ∈ present -> is_Some (dict_get data c')) ->
  dict_get data c = None ->
  SerialClient.sub_data_indices data rank = inl (SerialClient.KeyError c).
Proof.
  intros Hl Hall Hc. unfold SerialClient.sub_data_indices, SerialClient.enumerate.
  rewrite Hl. apply (comprehension_stops data present later c 0 [] Hall Hc).
Qed.

End PartitionFacts.

(** Rank 2 of the example on a partition of thirty clients: the slice at
    index 4 is that of client 14. *)
Lemma sub_data_indices_complete_witness :
  (forall c, c ∈ SerialClient.client_id_list 2 ->
     is_Some (dict_get Scenario4.full_partition c)) /\
  exists d,
    SerialClient.sub_data_indices Scenario4.full_partition 2 = inr d /\
    keys d = range 0 10 /\
    forall idx : Z, 0 <= idx < 10 ->
      dict_get d idx = dict_get Scenario4.full_partition ((2 - 1) * 10 + idx).
Proof.
  assert (Hall : forall c, c ∈ SerialClient.client_id_list 2 ->
                   is_Some (dict_get Scenario4.full_partition c)).
  { intros c Hc. apply (proj2 (proj2 (client_id_list_partition 2))) in Hc.
    assert (Hr : 10 <= c < 20).
    { pose proof (Z.div_mod c 10 ltac:(lia)) as Hd.
      pose proof (Z.mod_pos_bound c 10 ltac:(lia)) as Hm. lia. }
    assert (Hin : c ∈ range 10 20) by now apply range_elem_of.
    revert Hin. vm_compute range. intros Hin.
    repeat (apply elem_of_cons in Hin as [->|Hin]; [vm_compute; eauto|]).
    inversion Hin. }
  split; [exact Hall|]. exact (sub_data_indices_complete Scenario4.full_partition 2 Hall).
Defined.

(** Rank 2 on a partition without client 14: [KeyError(14)]. *)
Lemma sub_data_indices_missing_witness :
  SerialClient.client_id_list 2 = [10; 11; 12; 13] ++ 14 :: [15; 16; 17; 18; 19] /\
  (forall c', c' ∈ [10; 11; 12; 13] -> is_Some (dict_get Scenario4.holed_partition c')) /\
  dict_get Scenario4.holed_partition 14 = None /\
  SerialClient.sub_data_indices Scenario4.holed_partition 2 = inl (SerialClient.KeyError 14).
Proof.
  assert (Hl : SerialClient.client_id_list 2
               = [10; 11; 12; 13] ++ 14 :: [15; 16; 17; 18; 19]) by (vm_compute; reflexivity).
  assert (Hall : forall c', c' ∈ [10; 11; 12; 13] ->
                   is_Some (dict_get Scenario4.holed_partition c')).
  { intros c' Hin.
    repeat (apply elem_of_cons in Hin as [->|Hin]; [vm_compute; eauto|]).
    inversion Hin. }
  assert (Hc : dict_get Scenario4.holed_partition 14 = None) by (vm_compute; reflexivity).
  split; [exact Hl|]. split; [exact Hall|]. split; [exact Hc|].
  exact (sub_data_indices_missing Scenario4.holed_partition 2 [10; 11; 12; 13]
           [15; 16; 17; 18; 19] 14 Hl Hall Hc).
Defined.

(** ** [DGCSGDMemory] *)

Section MoreDictFacts.
Context {K V : Type} `{EqDecision K}.
Implicit Types (d : dict K V).

Lemma dict_get_key d (k : K) : is_Some (dict_get d k) <-> k ∈ keys d.
Proof.
  unfold keys. induction d as [|[k' v'] d IH]; cbn [dict_get].
  - split; [intros [v Hv]; discriminate | intros Hin; inversion Hin].
  - rewrite fmap_cons, elem_of_cons. cbn [fst]. case_decide as Hk.
    + split; [intros _; left; congruence | eauto].
    + rewrite IH. split; [now right | intros [->|Hin]; [congruence | exact Hin]].
Qed.

Lemma dict_get_None_key d (k : K) : dict_get d k = None <-> k ∉ keys d.
Proof.
  rewrite <- dict_get_key. destruct (dict_get d k) as [v|].
  - split; [discriminate | intros Hn; destruct Hn; eauto].
  - split; [intros _ [v Hv]; discriminate | reflexivity].
Qed.

Lemma dict_set_same d (k : K) (v : V) : dict_get d k = Some v -> dict_set d k v = d.
Proof.
  induction d as [|[k' v'] d IH]; cbn [dict_get dict_set]; [discriminate|].
  case_decide as Hk.
  - intros [= ->]. now subst k'.
  - intros Hg. now rewrite IH.
Qed.

Lemma dict_set_keys_present d (k : K) (v : V) :
  k ∈ keys d -> keys (dict_set d k v) = keys d.
Proof. intros Hk. rewrite dict_set_keys. now rewrite decide_True. Qed.

Lemma dict_get_app d d' (k : K) :
  dict_get (d ++ d') k
  = match dict_get d k with Some v => Some v | None => dict_get d' k end.
Proof.
  induction d as [|[k' v'] d IH]; [reflexivity|].
  cbn [app dict_get]. now case_decide.
Qed.

End MoreDictFacts.

Section DGCFacts.
Context {Name T I num : Type} `{EqDecision Name} `{!TensorOps T I num}.
Implicit Types (s : DGCSGDMemory.t Name T num) (name : Name).

Local Abbreviation keeps := (DGCSGDMemory.keeps_names (Name := Name) (T := T) (num := num)).
Local Abbreviation same := (DGCSGDMemory.same_names (Name := Name) (T := T) (num := num)).

Lemma keeps_done {A} (a : A) : keeps (DGCSGDMemory.done a).
Proof. intros s. now split. Qed.

Lemma keeps_fail {A} (e : DGCSGDMemory.error Name) :
  keeps (DGCSGDMemory.fail (A := A) e).
Proof. intros s. now split. Qed.

Lemma keeps_torch {A} (r : option A) : keeps (DGCSGDMemory.torch r).
Proof. destruct r; [apply keeps_done | apply keeps_fail]. Qed.

Lemma keeps_lookup {A} (d : DGCSGDMemory.t Name T num -> dict Name A) name :
  keeps (DGCSGDMemory.lookup_in d name).
Proof. intros s. unfold DGCSGDMemory.lookup_in. destruct (dict_get (d s) name); now split. Qed.

Lemma keeps_and_then {A B} (m : DGCSGDMemory.method A) (k : A -> DGCSGDMemory.method B) :
  keeps m -> (forall a, keeps (k a)) ->
  keeps (DGCSGDMemory.and_then m k).
Proof.
  intros Hm Hk s. unfold DGCSGDMemory.and_then. specialize (Hm s).
  destruct (m s) as [s' [e|a]]; cbn [fst] in *; [exact Hm|].
  destruct (Hk a s') as [H1 H2]. destruct Hm as [H3 H4].
  split; congruence.
Qed.

Lemma keeps_momentum_inplace name (op : T -> option T) :
  keeps (DGCSGDMemory.momentum_inplace name op).
Proof.
  intros s. unfold DGCSGDMemory.momentum_inplace, DGCSGDMemory.and_then,
    DGCSGDMemory.lookup_in, DGCSGDMemory.torch.
  destruct (dict_get (DGCSGDMemory.momentums s) name) as [mmt|] eqn:Hg; [|now split].
  destruct (op mmt) as [mmt'|]; cbn; [|now split].
  split; [|reflexivity]. apply dict_set_keys_present, dict_get_key. eauto.
Qed.

Lemma keeps_velocity_inplace name (op : T -> option T) :
  keeps (DGCSGDMemory.velocity_inplace name op).
Proof.
  intros s. unfold DGCSGDMemory.velocity_inplace, DGCSGDMemory.and_then,
    DGCSGDMemory.lookup_in, DGCSGDMemory.torch.
  destruct (dict_get (DGCSGDMemory.velocities s) name) as [vec|] eqn:Hg; [|now split].
  destruct (op vec) as [vec'|]; cbn; [|now split].
  split; [reflexivity|]. apply dict_set_keys_present, dict_get_key. eauto.
Qed.

Lemma compensate_keeps_names (grad : T) name (accumulate : bool) :
  keeps (DGCSGDMemory.compensate (I := I) grad name accumulate).
Proof.
  intros s. unfold DGCSGDMemory.compensate.
  match goal with |- same s (?m s).1 =>
    assert (Hk : keeps m); [|exact (Hk s)] end.
  destruct accumulate, (DGCSGDMemory.nesterov s);
    repeat first [ apply keeps_lookup | apply keeps_momentum_inplace
                 | apply keeps_velocity_inplace | apply keeps_torch
                 | apply keeps_and_then; [|intros ?] ].
Qed.

Lemma update_keeps_names name (ctx : list I) :
  keeps (DGCSGDMemory.update name ctx).
Proof.
  intros s. unfold DGCSGDMemory.update. destruct ctx as [|indices ctx]; [now split|].
  match goal with |- same s (?m s).1 =>
    assert (Hk : keeps m); [|exact (Hk s)] end.
  destruct (DGCSGDMemory.momentum_masking s);
    repeat first [ apply keeps_momentum_inplace | apply keeps_velocity_inplace
                 | apply keeps_done | apply keeps_and_then; [|intros ?] ].
Qed.

Lemma load_name_keeps (sd : DGCSGDMemory.state Name T) name s :
  name ∈ keys (DGCSGDMemory.momentums s) ->
  DGCSGDMemory.paired s ->
  DGCSGDMemory.same_names s (DGCSGDMemory.load_name sd name s).1.
Proof.
  intros Hin Hp. unfold DGCSGDMemory.load_name.
  destruct (dict_get (DGCSGDMemory.sd_momentums sd) name) as [mmt|]; [|now split].
  destruct (dict_get (DGCSGDMemory.sd_velocities sd) name) as [vec|]; cbn.
  - split; [now apply dict_set_keys_present|].
    apply dict_set_keys_present. unfold DGCSGDMemory.paired in Hp. now rewrite <- Hp.
  - split; [now apply dict_set_keys_present | reflexivity].
Qed.

Lemma load_names_keeps (sd : DGCSGDMemory.state Name T) (names : list Name) : forall s,
  (forall name, name ∈ names -> name ∈ keys (DGCSGDMemory.momentums s)) ->
  DGCSGDMemory.paired s ->
  DGCSGDMemory.same_names s (DGCSGDMemory.load_names sd names s).1.
Proof.
  induction names as [|name names IH]; intros s Hin Hp; [now split|].
  cbn [DGCSGDMemory.load_names]. unfold DGCSGDMemory.and_then.
  pose proof (load_name_keeps sd name s (Hin name ltac:(left)) Hp) as [H1 H2].
  destruct (DGCSGDMemory.load_name sd name s) as [s' [e|[]]]; cbn [fst] in *; [now split|].
  destruct (IH s') as [H3 H4].
  - intros n Hn. rewrite H1. apply Hin. now right.
  - unfold DGCSGDMemory.paired in *. congruence.
  - split; congruence.
Qed.

Lemma initialize_paired (params : list (Name * T)) : forall s,
  DGCSGDMemory.paired s ->
  DGCSGDMemory.paired (DGCSGDMemory.initialize (I := I) params s).1 /\
  (DGCSGDMemory.initialize (I := I) params s).2 = inr tt.
Proof.
  induction params as [|[name param] params IH]; intros s Hp; [now split|].
  cbn [DGCSGDMemory.initialize]. apply IH.
  unfold DGCSGDMemory.paired, DGCSGDMemory.set_velocities, DGCSGDMemory.set_momentums in *.
  cbn [DGCSGDMemory.momentums DGCSGDMemory.velocities].
  rewrite !dict_set_keys, Hp. reflexivity.
Qed.

(** X18. The methods of [DGCSGDMemory] keep momentums and velocities
    paired.  In a memory in which the two hold tensors under the same
    names, [compensate], [update] and [load_state_dict], with any arguments
    and whether they return or raise, neither add nor drop a name, and
    [initialize] adds its names to both: afterwards the two still hold
    tensors under the same names. *)
Theorem DGC_names_stay_paired s :
  DGCSGDMemory.paired s ->
  (forall (grad : T) name (accumulate : bool),
     DGCSGDMemory.same_names s (DGCSGDMemory.compensate (I := I) grad name accumulate s).1) /\
  (forall name (ctx : list I),
     DGCSGDMemory.same_names s (DGCSGDMemory.update name ctx s).1) /\
  (forall sd : DGCSGDMemory.state Name T,
     DGCSGDMemory.same_names s (DGCSGDMemory.load_state_dict sd s).1) /\
  (forall params : list (Name * T),
     DGCSGDMemory.paired (DGCSGDMemory.initialize (I := I) params s).1).
Proof.
  intros Hp. split; [|split; [|split]].
  - intros grad name accumulate. apply compensate_keeps_names.
  - intros name ctx. apply update_keeps_names.
  - intros sd. unfold DGCSGDMemory.load_state_dict. now apply load_names_keeps.
  - intros params. now apply initialize_paired.
Qed.

End DGCFacts.

Section DGCLookups.
Context {Name T I num : Type} `{EqDecision Name} `{!TensorOps T I num}.
Implicit Types (s : DGCSGDMemory.t Name T num) (name : Name).

Lemma set_momentums_same s : DGCSGDMemory.set_momentums (DGCSGDMemory.momentums s) s = s.
Proof. now destruct s. Qed.

Lemma set_velocities_same s : DGCSGDMemory.set_velocities (DGCSGDMemory.velocities s) s = s.
Proof. now destruct s. Qed.

(** X19. A name the memory was not initialized with.  In a memory that
    holds momentums and velocities under the same names, [compensate] for
    another name raises [KeyError] with that name, and so does [update]
    once it has taken the indices from a non-empty context, with or
    without momentum masking; [update] with an empty context raises
    [IndexError].  In each case the memory is as it was. *)
Theorem DGC_unknown_name s name :
  DGCSGDMemory.paired s ->
  name ∉ keys (DGCSGDMemory.momentums s) ->
  (forall (grad : T) (accumulate : bool),
     DGCSGDMemory.compensate (I := I) grad name accumulate s
     = (s, inl (DGCSGDMemory.KeyError name))) /\
  (forall ctx : list I,
     DGCSGDMemory.update name ctx s
     = (s, inl (match ctx with
                | [] => DGCSGDMemory.IndexError
                | _ :: _ => DGCSGDMemory.KeyError name
                end))).
Proof.
  intros Hp Hn.
  assert (Hm : dict_get (DGCSGDMemory.momentums s) name = None) by now apply dict_get_None_key.
  assert (Hv : dict_get (DGCSGDMemory.velocities s) name = None).
  { apply dict_get_None_key. unfold DGCSGDMemory.paired in Hp. now rewrite <- Hp. }
  split.
  - intros grad accumulate. unfold DGCSGDMemory.compensate, DGCSGDMemory.and_then,
      DGCSGDMemory.lookup_in. now rewrite Hm.
  - intros [|indices ctx]; [reflexivity|].
    unfold DGCSGDMemory.update, DGCSGDMemory.and_then, DGCSGDMemory.momentum_inplace,
      DGCSGDMemory.velocity_inplace, DGCSGDMemory.and_then, DGCSGDMemory.lookup_in,
      DGCSGDMemory.done.
    destruct (DGCSGDMemory.momentum_masking s); [now rewrite Hm | now rewrite Hv].
Qed.

Lemma load_own_names s (names : list Name) :
  DGCSGDMemory.paired s ->
  (forall name, name ∈ names -> name ∈ keys (DGCSGDMemory.momentums s)) ->
  DGCSGDMemory.load_names (DGCSGDMemory.state_dict s) names s = (s, inr tt).
Proof.
  intros Hp. induction names as [|name names IH]; intros Hin; [reflexivity|].
  cbn [DGCSGDMemory.load_names]. unfold DGCSGDMemory.and_then.
  assert (Hstep : DGCSGDMemory.load_name (DGCSGDMemory.state_dict s) name s = (s, inr tt)).
  { unfold DGCSGDMemory.load_name, DGCSGDMemory.state_dict.
    cbn [DGCSGDMemory.sd_momentums DGCSGDMemory.sd_velocities].
    destruct (proj2 (dict_get_key (DGCSGDMemory.momentums s) name) (Hin name ltac:(left)))
      as [mmt Hm].
    assert (Hk : name ∈ keys (DGCSGDMemory.velocities s)).
    { unfold DGCSGDMemory.paired in Hp. rewrite <- Hp. apply Hin. left. }
    destruct (proj2 (dict_get_key (DGCSGDMemory.velocities s) name) Hk) as [vec Hv].
    rewrite Hm, Hv. rewrite (dict_set_same _ name mmt Hm), set_momentums_same.
    now rewrite (dict_set_same _ name vec Hv), set_velocities_same. }
  rewrite Hstep. apply IH. intros n Hn'. apply Hin. now right.
Qed.

(** X20. Saving and loading is a round trip.  In a memory that holds
    momentums and velocities under the same names, [load_state_dict] of
    the memory's own [state_dict] returns and leaves the memory exactly as
    it was. *)
Theorem DGC_state_dict_round_trip s :
  DGCSGDMemory.paired s ->
  DGCSGDMemory.load_state_dict (DGCSGDMemory.state_dict s) s = (s, inr tt).
Proof.
  intros Hp. unfold DGCSGDMemory.load_state_dict. now apply load_own_names.
Qed.

End DGCLookups.
